(** * UDP hole punching: rendezvous server and peer agent

    A shallow embedding of [nat_punch/server.py] and [nat_punch/peer.py].

    Python values are modelled as follows.
    - [bytes] is a list of [Byte.byte]; [str] is a list of Unicode code
      points ([N]).
    - The [(host, port)] tuple that [recvfrom] returns on an [AF_INET]
      socket is the record [sockaddr] (dotted-quad host, integer port).
    - The server's [peers] dict is an association list in insertion order; an
      assignment to a key already present keeps the key's position.
    - A process is run against the list of events its socket will observe;
      its result is the trace of its visible actions and an outcome (normal
      exit, uncaught exception, or still blocked in [recvfrom]).

    Environment assumptions: [bind], [close] and [print] succeed (standard
    output is UTF-8). [sendto] can fail: its own checks are modelled, and
    what name resolution and the system call answer is a parameter, the
    class [Network]. *)

From Stdlib Require Import List NArith ZArith Bool Lia.
From Stdlib.Strings Require Import String Ascii Byte.
From Stdlib Require Import DecimalString DecimalPos.
Import ListNotations.

Local Open Scope string_scope.
Local Open Scope list_scope.
Local Open Scope N_scope.

(* ------------------------------------------------------------------ *)
(** ** Python strings and bytes *)

Definition codepoint := N.
Definition str := list codepoint.
Definition bytes := list byte.

(** An ASCII literal as a [str]. *)
Definition lit (s : string) : str := map N_of_ascii (list_ascii_of_string s).

Fixpoint str_eqb (a b : str) : bool :=
  match a, b with
  | [], [] => true
  | x :: a', y :: b' => (x =? y) && str_eqb a' b'
  | _, _ => false
  end.

(** [str.isspace] on one character (Unicode 14 whitespace set, the one
    [str.strip()] and [str.split()] use). *)
Definition isspace (c : codepoint) : bool :=
  ((0x09 <=? c) && (c <=? 0x0D)) || ((0x1C <=? c) && (c <=? 0x20))
  || (c =? 0x85) || (c =? 0xA0) || (c =? 0x1680)
  || ((0x2000 <=? c) && (c <=? 0x200A))
  || (c =? 0x2028) || (c =? 0x2029) || (c =? 0x202F) || (c =? 0x205F)
  || (c =? 0x3000).

Fixpoint lstrip (s : str) : str :=
  match s with
  | c :: s' => if isspace c then lstrip s' else s
  | [] => []
  end.

(** [s.strip()] *)
Definition strip (s : str) : str := rev (lstrip (rev (lstrip s))).

(** [s.split()]: maximal runs of non-whitespace characters. [tok] is the
    current run, most recent character first. *)
Fixpoint split_from (tok : str) (s : str) : list str :=
  match s with
  | [] => match tok with [] => [] | _ => [rev tok] end
  | c :: s' =>
      if isspace c
      then match tok with
           | [] => split_from [] s'
           | _ => rev tok :: split_from [] s'
           end
      else split_from (c :: tok) s'
  end.

Definition split (s : str) : list str := split_from [] s.

(** [s.startswith(p)] *)
Fixpoint startswith (s p : str) : bool :=
  match p with
  | [] => true
  | x :: p' =>
      match s with
      | y :: s' => (x =? y) && startswith s' p'
      | [] => false
      end
  end.

(** [str(n)] for an [int] of at most 4300 digits (beyond that the
    interpreter raises; the programs format ports, octets and integers
    that [int] returned, all within the limit). *)
Definition str_of_int (z : Z) : str :=
  lit (NilZero.string_of_int (Z.to_int z)).

(* ------------------------------------------------------------------ *)
(** ** UTF-8 ([bytes.decode()] and [str.encode()], both strict) *)

Definition byte_of (n : N) : byte :=
  match Byte.of_N n with Some b => b | None => x00 end.

(** A continuation byte in [[lo, hi]], as its six payload bits. *)
Definition cont (lo hi : N) (b : byte) : option N :=
  let n := Byte.to_N b in
  if (lo <=? n) && (n <=? hi) then Some (n - 0x80) else None.

(** [bs.decode()]; [None] stands for [UnicodeDecodeError]. Overlong forms,
    surrogates and values above U+10FFFF are rejected through the bounds on
    the second byte. *)
Fixpoint decode (bs : bytes) : option str :=
  match bs with
  | [] => Some []
  | b0 :: r0 =>
      let n0 := Byte.to_N b0 in
      if n0 <? 0x80 then option_map (cons n0) (decode r0)
      else if n0 <? 0xC2 then None
      else if n0 <? 0xE0 then
        match r0 with
        | b1 :: r1 =>
            match cont 0x80 0xBF b1 with
            | Some c1 =>
                option_map (cons ((n0 - 0xC0) * 64 + c1)) (decode r1)
            | None => None
            end
        | _ => None
        end
      else if n0 <? 0xF0 then
        let lo := if n0 =? 0xE0 then 0xA0 else 0x80 in
        let hi := if n0 =? 0xED then 0x9F else 0xBF in
        match r0 with
        | b1 :: b2 :: r2 =>
            match cont lo hi b1, cont 0x80 0xBF b2 with
            | Some c1, Some c2 =>
                option_map (cons ((n0 - 0xE0) * 4096 + c1 * 64 + c2))
                           (decode r2)
            | _, _ => None
            end
        | _ => None
        end
      else if n0 <? 0xF5 then
        let lo := if n0 =? 0xF0 then 0x90 else 0x80 in
        let hi := if n0 =? 0xF4 then 0x8F else 0xBF in
        match r0 with
        | b1 :: b2 :: b3 :: r3 =>
            match cont lo hi b1, cont 0x80 0xBF b2, cont 0x80 0xBF b3 with
            | Some c1, Some c2, Some c3 =>
                option_map
                  (cons ((n0 - 0xF0) * 262144 + c1 * 4096 + c2 * 64 + c3))
                  (decode r3)
            | _, _, _ => None
            end
        | _ => None
        end
      else None
  end.

(** A code point that UTF-8 can carry: not a surrogate, at most U+10FFFF. *)
Definition scalar (c : codepoint) : bool :=
  (c <? 0xD800) || ((0xE000 <=? c) && (c <? 0x110000)).

Definition encode_cp (c : codepoint) : bytes :=
  if c <? 0x80 then [byte_of c]
  else if c <? 0x800 then [byte_of (0xC0 + c / 64); byte_of (0x80 + c mod 64)]
  else if c <? 0x10000 then
    [byte_of (0xE0 + c / 4096); byte_of (0x80 + (c / 64) mod 64);
     byte_of (0x80 + c mod 64)]
  else
    [byte_of (0xF0 + c / 262144); byte_of (0x80 + (c / 4096) mod 64);
     byte_of (0x80 + (c / 64) mod 64); byte_of (0x80 + c mod 64)].

(** [s.encode()]; [None] stands for [UnicodeEncodeError] (a lone surrogate,
    as [sys.argv] can contain). *)
Fixpoint encode (s : str) : option bytes :=
  match s with
  | [] => Some []
  | c :: s' =>
      if scalar c
      then option_map (app (encode_cp c)) (encode s')
      else None
  end.

(* ------------------------------------------------------------------ *)
(** ** [int(s)] on a [str] *)

(** First code point of every run of ten characters that carry the Unicode
    decimal-digit property (Unicode 14). *)
Definition digit_zeros : list N :=
  [0x30; 0x660; 0x6F0; 0x7C0; 0x966; 0x9E6; 0xA66; 0xAE6; 0xB66; 0xBE6;
   0xC66; 0xCE6; 0xD66; 0xDE6; 0xE50; 0xED0; 0xF20; 0x1040; 0x1090; 0x17E0;
   0x1810; 0x1946; 0x19D0; 0x1A80; 0x1A90; 0x1B50; 0x1BB0; 0x1C40; 0x1C50;
   0xA620; 0xA8D0; 0xA900; 0xA9D0; 0xA9F0; 0xAA50; 0xABF0; 0xFF10; 0x104A0;
   0x10D30; 0x11066; 0x110F0; 0x11136; 0x111D0; 0x112F0; 0x11450; 0x114D0;
   0x11650; 0x116C0; 0x11730; 0x118E0; 0x11950; 0x11C50; 0x11D50; 0x11DA0;
   0x16A60; 0x16AC0; 0x16B50; 0x1D7CE; 0x1D7D8; 0x1D7E2; 0x1D7EC; 0x1D7F6;
   0x1E140; 0x1E2F0; 0x1E950; 0x1FBF0].

Definition decimal (c : codepoint) : option N :=
  option_map (fun z => c - z)
             (find (fun z => (z <=? c) && (c <? z + 10)) digit_zeros).

(** The interpreter first rewrites the string to ASCII: non-ASCII
    whitespace becomes a space, a non-ASCII decimal digit its ASCII digit;
    any other non-ASCII character makes the conversion fail. *)
Definition ascii_of_char (c : codepoint) : option N :=
  if c <? 128 then Some c
  else if isspace c then Some 32
  else option_map (N.add 48) (decimal c).

Fixpoint ascii_of_str (s : str) : option (list N) :=
  match s with
  | [] => Some []
  | c :: s' =>
      match ascii_of_char c, ascii_of_str s' with
      | Some a, Some r => Some (a :: r)
      | _, _ => None
      end
  end.

Definition c_isspace (c : N) : bool :=
  (c =? 32) || ((9 <=? c) && (c <=? 13)).

Definition c_isdigit (c : N) : bool := (48 <=? c) && (c <=? 57).

Fixpoint skip_spaces (s : list N) : list N :=
  match s with
  | c :: s' => if c_isspace c then skip_spaces s' else s
  | [] => []
  end.

(** Digits with single underscores between them; [prev_us] tells whether
    the previous character was an underscore, [count] how many digits were
    read. *)
Fixpoint scan_digits (acc : N) (count : N) (prev_us : bool) (s : list N)
  : option (N * N * list N) :=
  match s with
  | c :: s' =>
      if c_isdigit c
      then scan_digits (10 * acc + (c - 48)) (count + 1) false s'
      else if c =? 95 then
        if prev_us then None else scan_digits acc count true s'
      else if prev_us then None else Some (acc, count, s)
  | [] => if prev_us then None else Some (acc, count, [])
  end.

(** The interpreter's default limit on the digits of a decimal string
    ([sys.int_info.default_max_str_digits]). *)
Definition max_str_digits : N := 4300.

Definition parse_int (s : list N) : option Z :=
  let s1 := skip_spaces s in
  let '(neg, s2) :=
    match s1 with
    | c :: r => if c =? 43 then (false, r)
                else if c =? 45 then (true, r) else (false, s1)
    | [] => (false, s1)
    end in
  match s2 with
  | c :: _ =>
      if c_isdigit c then
        match scan_digits 0 0 false s2 with
        | Some (n, count, r) =>
            if max_str_digits <? count then None
            else
              match skip_spaces r with
              | [] => Some (if neg then (- Z.of_N n)%Z else Z.of_N n)
              | _ => None
              end
        | None => None
        end
      else None
  | [] => None
  end.

(** [int(s)]; [None] stands for [ValueError], raised also for a string of
    more than 4300 digits. *)
Definition py_int (s : str) : option Z :=
  match ascii_of_str s with
  | Some a => parse_int a
  | None => None
  end.

(* ------------------------------------------------------------------ *)
(** ** Addresses, datagrams and events *)

Record ipv4 := IPv4 { oct1 : byte; oct2 : byte; oct3 : byte; oct4 : byte }.

(** The address tuple [recvfrom] returns: [addr[0]] is the dotted-quad host
    string, [addr[1]] the port. *)
Record sockaddr :=
  MkSockAddr { sa_ip : ipv4; sa_port_hi : byte; sa_port_lo : byte }.

(** The port, a 16-bit number. *)
Definition sa_port (a : sockaddr) : N :=
  256 * Byte.to_N (sa_port_hi a) + Byte.to_N (sa_port_lo a).

(** The address with the given port (taken modulo 65536). *)
Definition SockAddr (ip : ipv4) (p : N) : sockaddr :=
  MkSockAddr ip (byte_of ((p / 256) mod 256)) (byte_of (p mod 256)).

Definition str_of_byte (b : byte) : str := str_of_int (Z.of_N (Byte.to_N b)).

Definition host (a : sockaddr) : str :=
  let ip := sa_ip a in
  str_of_byte (oct1 ip) ++ lit "." ++ str_of_byte (oct2 ip) ++ lit "."
  ++ str_of_byte (oct3 ip) ++ lit "." ++ str_of_byte (oct4 ip).

Definition port (a : sockaddr) : Z := Z.of_N (sa_port a).

(** A destination given to [sendto] or [bind]: any [(host, port)] tuple. *)
Definition endpoint := (str * Z)%type.

Definition endpoint_of (a : sockaddr) : endpoint := (host a, port a).

(** [str(addr)] of the tuple, as an f-string interpolates it. *)
Definition repr_addr (a : sockaddr) : str :=
  lit "('" ++ host a ++ lit "', " ++ str_of_int (port a) ++ lit ")".

Record datagram := Datagram { payload : bytes; source : sockaddr }.

(** What the socket observes next: a datagram arrives, or nothing arrives
    for longer than any receive timeout. *)
Inductive rx_event :=
| Arrive (d : datagram)
| Silence.

(** [sock.recvfrom(bufsize)] on an arrived datagram: the payload is cut to
    the buffer size. *)
Definition recvfrom (bufsize : nat) (d : datagram) : bytes * sockaddr :=
  (firstn bufsize (payload d), source d).

Inductive event :=
| EvBind (local : endpoint)
| EvSendto (data : bytes) (dst : endpoint)
| EvPrint (line : str)
| EvSleep (millis : N)
| EvSetTimeout (millis : N)
| EvClose.

Inductive exn :=
| UnicodeDecodeError
| UnicodeEncodeError
| ValueError
| IndexError
| KeyError
| TypeError
| OverflowError
| OSError
| SocketTimeout.

(** How a computation ends: with a value, with an exception, or blocked in
    a receive that no event completes. *)
Inductive outcome (A : Type) :=
| Ok (a : A)
| Raise (e : exn)
| Block.
Arguments Ok {A} a.
Arguments Raise {A} e.
Arguments Block {A}.

(** Actions performed so far, and the outcome. *)
Definition W (A : Type) : Type := (list event * outcome A)%type.

Definition ret {A} (a : A) : W A := ([], Ok a).

Definition bind {A B} (m : W A) (k : A -> W B) : W B :=
  match m with
  | (t, Ok a) => let '(t', r) := k a in (t ++ t', r)
  | (t, Raise e) => (t, Raise e)
  | (t, Block) => (t, Block)
  end.

Declare Scope py_scope.
Delimit Scope py_scope with py.
Notation "x <- m ;; k" := (bind m (fun x => k))
  (at level 61, m at next level, right associativity) : py_scope.
Notation "' p <- m ;; k" := (bind m (fun p => k))
  (at level 61, p pattern, m at next level, right associativity) : py_scope.
Notation "m ;; k" := (bind m (fun _ => k))
  (at level 61, right associativity) : py_scope.
Local Open Scope py_scope.

Definition emit (e : event) : W unit := ([e], Ok tt).
Definition raise {A} (e : exn) : W A := ([], Raise e).
Definition block {A} : W A := ([], Block).

Definition lift {A} (e : exn) (o : option A) : W A :=
  match o with Some a => ret a | None => raise e end.

(** [try: m except e: h] *)
Definition try_except {A} (m : W A) (e : exn) (h : W A) : W A :=
  match m with
  | (t, Raise e') =>
      if match e, e' with
         | UnicodeDecodeError, UnicodeDecodeError
         | UnicodeEncodeError, UnicodeEncodeError
         | ValueError, ValueError
         | IndexError, IndexError
         | KeyError, KeyError
         | TypeError, TypeError
         | OverflowError, OverflowError
         | OSError, OSError
         | SocketTimeout, SocketTimeout => true
         | _, _ => false
         end
      then let '(t', r) := h in (t ++ t', r)
      else m
  | _ => m
  end.

Definition trace {A} (m : W A) : list event := fst m.
Definition result {A} (m : W A) : outcome A := snd m.

Definition print (line : str) : W unit := emit (EvPrint line).

(** What [sendto] asks of its environment: whether a host name that is not
    ASCII has an IDNA encoding, whether a host is an address or a name the
    resolver knows, whether the system call takes the datagram. The
    environment is taken to answer alike whenever it is asked the same
    during a run. *)
Class Network := {
  idna_ok : str -> bool;
  resolves : str -> bool;
  delivers : bytes -> endpoint -> bool
}.

(** The host of a destination as the socket module converts it: no null
    character, and ASCII or IDNA-encodable. *)
Definition host_arg_ok {net : Network} (h : str) : bool :=
  negb (existsb (N.eqb 0) h) && (forallb (fun c => c <? 128) h || idna_ok h).

(** [sock.sendto(data, (host, port))] on an [AF_INET] datagram socket, in
    the order of the socket module: the host is converted ([TypeError]), the
    port must be a C [int] ([OverflowError]), the host is resolved
    ([socket.gaierror], an [OSError]), the port must lie in 0..65535
    ([OverflowError]), and the system call is made ([OSError]). A datagram
    send does not wait, so the socket's timeout plays no part in it. *)
Definition sendto {net : Network} (data : bytes) (dst : endpoint) : W unit :=
  let '(h, p) := dst in
  if negb (host_arg_ok h) then raise TypeError
  else if ((p <? -2147483648) || (2147483647 <? p))%Z then raise OverflowError
  else if negb (resolves h) then raise OSError
  else if ((p <? 0) || (65535 <? p))%Z then raise OverflowError
  else if negb (delivers data dst) then raise OSError
  else emit (EvSendto data dst).

Definition index {A} (l : list A) (i : nat) : W A :=
  lift IndexError (nth_error l i).

(* ------------------------------------------------------------------ *)
(** ** The [peers] dict *)

Definition dict := list (str * sockaddr).

Definition keys (d : dict) : list str := map fst d.

(** [d[k] = v] *)
Fixpoint dict_set (d : dict) (k : str) (v : sockaddr) : dict :=
  match d with
  | [] => [(k, v)]
  | (k', v') :: d' =>
      if str_eqb k' k then (k', v) :: d' else (k', v') :: dict_set d' k v
  end.

(** [d[k]] *)
Fixpoint dict_get (d : dict) (k : str) : option sockaddr :=
  match d with
  | [] => None
  | (k', v') :: d' => if str_eqb k' k then Some v' else dict_get d' k
  end.

Definition getitem (d : dict) (k : str) : W sockaddr :=
  lift KeyError (dict_get d k).

(* ------------------------------------------------------------------ *)
(** ** [nat_punch/server.py] *)

Module Server.

Definition PORT : Z := 9999%Z.

(** The body of the [while] loop after [recvfrom] returned [(data, addr)]. *)
Definition loop_body (peers : dict) (data : bytes) (addr : sockaddr)
  : W dict :=
  s <- lift UnicodeDecodeError (decode data) ;;
  let peer_id := strip s in
  print (lit "got " ++ peer_id ++ lit " from " ++ repr_addr addr) ;;
  ret (dict_set peers peer_id addr).

(** [while len(peers) < 2: ...] against the events [rx]; returns the dict
    and the events not consumed. *)
Fixpoint loop (peers : dict) (rx : list rx_event)
  : W (dict * list rx_event) :=
  if (List.length peers <? 2)%nat then
    match rx with
    | [] => block
    | Silence :: rx' => loop peers rx'
    | Arrive d :: rx' =>
        let '(data, addr) := recvfrom 1024 d in
        peers' <- loop_body peers data addr ;;
        loop peers' rx'
    end
  else ret (peers, rx).

(** The f-string of an introduction. *)
Definition introduction (id : str) (a : sockaddr) : str :=
  id ++ lit " " ++ host a ++ lit " " ++ str_of_int (port a).

Section WithNetwork.
Context {net : Network}.

(** The statements after the loop. *)
Definition introduce (peers : dict) : W unit :=
  let ids := keys peers in
  a_id <- index ids 0 ;;
  b_id <- index ids 1 ;;
  a_addr <- getitem peers a_id ;;
  b_addr <- getitem peers b_id ;;
  to_a <- lift UnicodeEncodeError (encode (introduction b_id b_addr)) ;;
  sendto to_a (endpoint_of a_addr) ;;
  to_b <- lift UnicodeEncodeError (encode (introduction a_id a_addr)) ;;
  sendto to_b (endpoint_of b_addr) ;;
  print (lit "introduced " ++ a_id ++ lit " " ++ b_id) ;;
  emit EvClose.

(** [main()]; the value is the list of events the server never read. *)
Definition main (rx : list rx_event) : W (list rx_event) :=
  emit (EvBind (lit "0.0.0.0", PORT)) ;;
  '(peers, rest) <- loop [] rx ;;
  introduce peers ;;
  ret rest.

End WithNetwork.

End Server.

(* ------------------------------------------------------------------ *)
(** ** [nat_punch/peer.py] *)

Module Peer.

Definition PORT : Z := 9999%Z.

(** [a, b, c = l] *)
Definition unpack3 (l : list str) : W (str * str * str) :=
  match l with
  | [a; b; c] => ret (a, b, c)
  | _ => raise ValueError
  end.

(** [for _ in range(n): body] *)
Fixpoint for_range (n : nat) (body : W unit) : W unit :=
  match n with
  | O => ret tt
  | S n' => body ;; for_range n' body
  end.

(** Lines 9-11: the command line. *)
Definition args (argv : list str) : W (str * endpoint) :=
  peer_id <- index argv 1 ;;
  server_ip <- index argv 2 ;;
  server_port <-
    (if (3 <? List.length argv)%nat
     then a3 <- index argv 3 ;; lift ValueError (py_int a3)
     else ret PORT) ;;
  ret (peer_id, (server_ip, server_port)).

Section WithNetwork.
Context {net : Network}.

(** Lines 13-16: bind an ephemeral port and register. *)
Definition register (peer_id : str) (server : endpoint) : W unit :=
  emit (EvBind ([], 0%Z)) ;;
  data <- lift UnicodeEncodeError (encode peer_id) ;;
  sendto data server.

(** Lines 18-19: the introduction carried by a received payload. *)
Definition decodeIntroduction (data : bytes) : W (str * str * Z) :=
  s <- lift UnicodeDecodeError (decode data) ;;
  '(other_id, other_ip, other_port) <- unpack3 (split s) ;;
  other_port <- lift ValueError (py_int other_port) ;;
  ret (other_id, other_ip, other_port).

(** A blocking [recvfrom]: silence is waited through. *)
Fixpoint recv_blocking (rx : list rx_event) : W (datagram * list rx_event) :=
  match rx with
  | [] => block
  | Silence :: rx' => recv_blocking rx'
  | Arrive d :: rx' => ret (d, rx')
  end.

(** Lines 17-20: wait for the introduction; returns the partner's address
    and the events left. *)
Definition await_introduction (peer_id : str) (rx : list rx_event)
  : W (endpoint * list rx_event) :=
  '(d, rest) <- recv_blocking rx ;;
  let '(data, _) := recvfrom 1024 d in
  '(other_id, other_ip, other_port) <- decodeIntroduction data ;;
  print (peer_id ++ lit " learned " ++ other_id ++ lit " at " ++ other_ip
         ++ lit ":" ++ str_of_int other_port) ;;
  ret ((other_ip, other_port), rest).

(** Lines 23-25: the burst that opens the mapping. *)
Definition punch (peer_id : str) (partner : endpoint) : W unit :=
  for_range 3
    (data <- lift UnicodeEncodeError (encode (lit "ping from " ++ peer_id)) ;;
     sendto data partner ;;
     emit (EvSleep 500)).

(** Lines 31-34: the body of the listening loop after [recvfrom] returned
    [(msg, addr)]. *)
Definition listen_body (peer_id : str) (msg : bytes) (addr : sockaddr)
  : W unit :=
  msg <- lift UnicodeDecodeError (decode msg) ;;
  print (peer_id ++ lit " got " ++ [34] ++ msg ++ [34] ++ lit " from "
         ++ repr_addr addr) ;;
  if startswith msg (lit "ping")
  then data <- lift UnicodeEncodeError (encode (lit "ack from " ++ peer_id)) ;;
       sendto data (endpoint_of addr)
  else ret tt.

(** Lines 29-34: [while True: ...] on a socket with a receive timeout. It
    ends only through an exception. *)
Fixpoint listen_loop (peer_id : str) (rx : list rx_event) : W unit :=
  match rx with
  | [] => block
  | Silence :: _ => raise SocketTimeout
  | Arrive d :: rx' =>
      let '(msg, addr) := recvfrom 1024 d in
      listen_body peer_id msg addr ;;
      listen_loop peer_id rx'
  end.

(** Lines 27-37. *)
Definition listen (peer_id : str) (rx : list rx_event) : W unit :=
  emit (EvSetTimeout 5000) ;;
  try_except (listen_loop peer_id rx) SocketTimeout (ret tt) ;;
  emit EvClose.

Definition main (argv : list str) (rx : list rx_event) : W unit :=
  '(peer_id, server) <- args argv ;;
  register peer_id server ;;
  '(partner, rest) <- await_introduction peer_id rx ;;
  punch peer_id partner ;;
  listen peer_id rest.

End WithNetwork.

End Peer.

(* ------------------------------------------------------------------ *)
(** ** Vocabulary of the statements *)

Definition str_eq_dec : forall a b : str, {a = b} + {a <> b} :=
  list_eq_dec N.eq_dec.

(** Strings every character of which UTF-8 can carry. *)
Definition encodable (s : str) : Prop := Forall (fun c => scalar c = true) s.

Definition utf8 (s : str) : bytes := flat_map encode_cp s.

(** The datagrams a trace sends. *)
Definition sends (t : list event) : list (bytes * endpoint) :=
  flat_map (fun e => match e with
                     | EvSendto data dst => [(data, dst)]
                     | _ => []
                     end) t.

(** The id a datagram registers at the server, when its payload decodes. *)
Definition registration (d : datagram) : option str :=
  option_map strip (decode (fst (recvfrom 1024 d))).

(** An event that is silence or a registration under [id]. *)
Definition registers_as (id : str) (e : rx_event) : Prop :=
  match e with
  | Arrive d => registration d = Some id
  | Silence => True
  end.

(** The server's log line for a registration. *)
Definition got_line (id : str) (a : sockaddr) : event :=
  EvPrint (lit "got " ++ id ++ lit " from " ++ repr_addr a).

Definition is_print (e : event) : Prop :=
  match e with EvPrint _ => True | _ => False end.

(** What the loop keeps true of the dict: distinct keys, each of them
    encodable, at most two entries. *)
Definition registry_ok (peers : dict) : Prop :=
  NoDup (keys peers) /\ Forall encodable (keys peers)
  /\ (List.length peers <= 2)%nat.

(** The four actions that follow the loop, for ids [a], [b] registered from
    [sa], [sb]. *)
Definition introduction_round (a : str) (sa : sockaddr) (b : str)
  (sb : sockaddr) : list event :=
  [EvSendto (utf8 (Server.introduction b sb)) (endpoint_of sa);
   EvSendto (utf8 (Server.introduction a sa)) (endpoint_of sb);
   EvPrint (lit "introduced " ++ a ++ lit " " ++ b);
   EvClose].

(** Concrete inputs used in examples. *)
Definition localhost : ipv4 := IPv4 x7f x00 x00 x01.

Definition dgram (text : string) (from_port : N) : datagram :=
  Datagram (list_byte_of_string text) (SockAddr localhost from_port).

Definition whitespace_only (s : str) : Prop :=
  Forall (fun c => isspace c = true) s.

(** The peer's record of a received message, and its reply to a ping. *)
Definition got_record (peer_id msg : str) (a : sockaddr) : event :=
  EvPrint (peer_id ++ lit " got " ++ [34] ++ msg ++ [34] ++ lit " from "
           ++ repr_addr a).

Definition ack (peer_id : str) : bytes := utf8 (lit "ack from " ++ peer_id).

Definition ping (peer_id : str) : bytes := utf8 (lit "ping from " ++ peer_id).

(** What the listening loop does with a decoded message. *)
Definition reaction (peer_id msg : str) (a : sockaddr) : list event :=
  got_record peer_id msg a
  :: (if startswith msg (lit "ping")
      then [EvSendto (ack peer_id) (endpoint_of a)]
      else []).

(** The peer's log line after the introduction. *)
Definition learned_line (peer_id other_id other_ip : str) (other_port : Z)
  : event :=
  EvPrint (peer_id ++ lit " learned " ++ other_id ++ lit " at " ++ other_ip
           ++ lit ":" ++ str_of_int other_port).

(** The burst of the punching phase. *)
Definition burst (peer_id : str) (partner : endpoint) : list event :=
  [EvSendto (ping peer_id) partner; EvSleep 500;
   EvSendto (ping peer_id) partner; EvSleep 500;
   EvSendto (ping peer_id) partner; EvSleep 500].

(** The punch message of a payload as the specification words it: three
    whitespace-separated fields [<kind> from <senderId>], the kind being the
    leading one. (Not part of the program: the program tests a prefix.) *)
Definition spec_decodePunch (data : bytes) : option (str * str) :=
  match decode data with
  | Some s =>
      match split s with
      | [kind; from; sender] =>
          if str_eqb from (lit "from") then Some (kind, sender) else None
      | _ => None
      end
  | None => None
  end.

(** The trace of the listening loop over datagrams that all decode. *)
Definition reactions (peer_id : str) (ds : list datagram) : list event :=
  flat_map (fun d =>
              match decode (fst (recvfrom 1024 d)) with
              | Some msg => reaction peer_id msg (source d)
              | None => []
              end) ds.

Definition decodable (d : datagram) : Prop :=
  decode (fst (recvfrom 1024 d)) <> None.

(** A non-empty string without whitespace: what [split] returns as one
    field. *)
Definition token (s : str) : Prop :=
  s <> [] /\ Forall (fun c => isspace c = false) s.

(** Whether a datagram is one the listening loop answers. *)
Definition pinged (d : datagram) : bool :=
  match decode (fst (recvfrom 1024 d)) with
  | Some msg => startswith msg (lit "ping")
  | None => false
  end.

(** Standard output of a trace: every printed line, each ended by a
    newline. *)
Definition stdout (t : list event) : str :=
  flat_map (fun e => match e with
                     | EvPrint line => line ++ [10]
                     | _ => []
                     end) t.

(** [sub in text] *)
Definition occurs_in (sub text : str) : Prop :=
  exists pre post, text = pre ++ sub ++ post.

(** The datagrams among a list of events. *)
Definition arrived (rx : list rx_event) : list datagram :=
  flat_map (fun e => match e with Arrive d => [d] | Silence => [] end) rx.

(** The server's log line for a datagram it read. *)
Definition log_of (d : datagram) : list event :=
  match registration d with
  | Some id => [got_line id (source d)]
  | None => []
  end.

(** The socket layer takes the datagram: every check of [sendto] passes. *)
Definition accepted {net : Network} (data : bytes) (dst : endpoint) : Prop :=
  host_arg_ok (fst dst) = true /\ resolves (fst dst) = true
  /\ (0 <= snd dst <= 65535)%Z /\ delivers data dst = true.

(** A datagram the listening loop gets through: its first 1024 bytes
    decode, and the ack it calls for, if any, is accepted. *)
Definition handled {net : Network} (peer_id : str) (d : datagram) : Prop :=
  decodable d
  /\ (pinged d = true -> accepted (ack peer_id) (endpoint_of (source d))).

(* ------------------------------------------------------------------ *)
(** ** An environment for the examples *)

(** The fields of [s] between the occurrences of [sep]; [cur] is the
    current field, most recent character first. *)
Fixpoint fields_from (sep : N) (cur : str) (s : str) : list str :=
  match s with
  | [] => [rev cur]
  | c :: s' =>
      if c =? sep then rev cur :: fields_from sep [] s'
      else fields_from sep (c :: cur) s'
  end.

(** An octet written in decimal without leading zeros. *)
Definition is_octet (f : str) : bool :=
  match f with
  | [] => false
  | [_] => forallb c_isdigit f
  | c :: _ =>
      forallb c_isdigit f && negb (c =? 48) && (List.length f <=? 3)%nat
      && match scan_digits 0 0 false f with
         | Some (n, _, _) => n <=? 255
         | None => false
         end
  end.

Definition dotted_quad (h : str) : bool :=
  match fields_from 46 [] h with
  | [a; b; c; d] => is_octet a && is_octet b && is_octet c && is_octet d
  | _ => false
  end.

(** An environment whose hosts are unicast addresses given as dotted
    quads, or the empty host (the wildcard address): nothing else resolves;
    the system call refuses destination port 0 ([EINVAL]) and payloads of
    more than 65507 bytes ([EMSGSIZE]), and takes every other datagram. *)
Definition loopback : Network :=
  {| idna_ok := fun _ => true;
     resolves := fun h => match h with [] => true | _ => dotted_quad h end;
     delivers := fun data dst =>
       negb (snd dst =? 0)%Z && (N.of_nat (List.length data) <=? 65507) |}.

(* ------------------------------------------------------------------ *)
(** ** Exhaustive checks *)

(** A check of every number of a given width in bits: [all_below b f acc]
    evaluates [f] on the numbers whose binary writing is that of [acc]
    followed by [b] more bits. *)
Fixpoint all_below (bits : nat) (f : N -> bool) (acc : N) : bool :=
  match bits with
  | O => f acc
  | S b => all_below b f (2 * acc) && all_below b f (2 * acc + 1)
  end.

(* ------------------------------------------------------------------ *)
(** * Properties *)

Section Properties.
Context {net : Network}.

Lemma bind_ok {A B} (t : list event) (a : A) (k : A -> W B) :
  bind (t, Ok a) k = (t ++ trace (k a), result (k a)).
Proof. unfold bind, trace, result. destruct (k a); reflexivity. Qed.

Lemma bind_raise {A B} (t : list event) (e : exn) (k : A -> W B) :
  bind (t, Raise e) k = (t, Raise e).
Proof. reflexivity. Qed.

Lemma bind_block {A B} (t : list event) (k : A -> W B) :
  bind (t, Block) k = (t, Block).
Proof. reflexivity. Qed.

Lemma bind_ret {A B} (a : A) (k : A -> W B) : bind (ret a) k = k a.
Proof. unfold ret, bind. destruct (k a); reflexivity. Qed.

Lemma bind_emit {B} (e : event) (k : unit -> W B) :
  bind (emit e) k = (e :: trace (k tt), result (k tt)).
Proof. unfold emit. rewrite bind_ok. reflexivity. Qed.

Lemma W_eta {A} (m : W A) : m = (trace m, result m).
Proof. destruct m; reflexivity. Qed.

Lemma sends_app (t u : list event) : sends (t ++ u) = sends t ++ sends u.
Proof. apply flat_map_app. Qed.

Lemma str_eqb_eq (a b : str) : str_eqb a b = true <-> a = b.
Proof.
  revert b. induction a as [|x a IH]; intros [|y b]; simpl;
    try (split; [discriminate | discriminate]); try tauto.
  rewrite andb_true_iff, N.eqb_eq, IH. split.
  - intros [-> ->]. reflexivity.
  - intros H. injection H. auto.
Qed.

Lemma str_eqb_refl (a : str) : str_eqb a a = true.
Proof. apply str_eqb_eq. reflexivity. Qed.

Lemma str_eqb_neq (a b : str) : str_eqb a b = false <-> a <> b.
Proof.
  rewrite <- str_eqb_eq. destruct (str_eqb a b); split; congruence.
Qed.

Lemma encode_encodable (s : str) : encodable s -> encode s = Some (utf8 s).
Proof.
  induction 1 as [|c s Hc _ IH]; simpl; [reflexivity|].
  rewrite Hc, IH. reflexivity.
Qed.

Lemma encode_Some_encodable (s : str) (b : bytes) :
  encode s = Some b -> encodable s /\ b = utf8 s.
Proof.
  revert b. induction s as [|c s IH]; simpl; intros b H.
  - injection H as <-. split; [constructor | reflexivity].
  - destruct (scalar c) eqn:Hc; [|discriminate].
    destruct (encode s) as [b'|]; [|discriminate].
    injection H as <-. destruct (IH b' eq_refl) as [Hs ->].
    split; [constructor; assumption | reflexivity].
Qed.

Lemma encodable_app (a b : str) :
  encodable a -> encodable b -> encodable (a ++ b).
Proof. intros Ha Hb. apply Forall_app. split; assumption. Qed.

Lemma utf8_app (a b : str) : utf8 (a ++ b) = utf8 a ++ utf8 b.
Proof. apply flat_map_app. Qed.

Lemma encodable_lit (s : string) : encodable (lit s).
Proof.
  unfold encodable, lit. apply Forall_forall. intros c Hc.
  apply in_map_iff in Hc. destruct Hc as [a [<- _]].
  pose proof (N_ascii_bounded a) as Hb. unfold scalar.
  apply orb_true_iff. left. apply N.ltb_lt. lia.
Qed.

Lemma encodable_str_of_int (z : Z) : encodable (str_of_int z).
Proof. apply encodable_lit. Qed.

Lemma encodable_lstrip (s : str) : encodable s -> encodable (lstrip s).
Proof.
  induction 1 as [|c s Hc Hs IH]; simpl; [constructor|].
  destruct (isspace c); [assumption | constructor; assumption].
Qed.

Lemma encodable_strip (s : str) : encodable s -> encodable (strip s).
Proof.
  intros H. unfold strip, encodable.
  apply Forall_rev, encodable_lstrip, Forall_rev, encodable_lstrip, H.
Qed.

Lemma cont_range lo hi b c :
  0x80 <= lo -> cont lo hi b = Some c -> lo - 0x80 <= c <= hi - 0x80.
Proof.
  unfold cont. intros Hlo. destruct (_ && _) eqn:H; [|discriminate].
  intros [= <-]. apply andb_true_iff in H. destruct H as [H1 H2].
  apply N.leb_le in H1. apply N.leb_le in H2. lia.
Qed.

Lemma option_map_cons_Some (c : codepoint) (o : option str) (s : str) :
  option_map (cons c) o = Some s -> exists s', o = Some s' /\ s = c :: s'.
Proof.
  destruct o as [s'|]; simpl; [|discriminate].
  intros [= <-]. exists s'. auto.
Qed.

Lemma scalar_intro (c : codepoint) :
  c < 0xD800 \/ 0xE000 <= c < 0x110000 -> scalar c = true.
Proof.
  intros H. unfold scalar. apply orb_true_iff.
  destruct H as [H|[H1 H2]]; [left | right].
  - apply N.ltb_lt, H.
  - apply andb_true_iff. split; [apply N.leb_le | apply N.ltb_lt]; assumption.
Qed.

(** Whatever [decode] returns can be encoded again. *)
Lemma decode_encodable_bounded (n : nat) :
  forall bs s, (List.length bs <= n)%nat -> decode bs = Some s -> encodable s.
Proof.
  induction n as [|n IH]; intros [|b0 r0] s Hlen H; simpl in Hlen;
    try (injection H as <-; constructor); try lia.
  simpl in H. remember (Byte.to_N b0) as n0 eqn:En0.
  destruct (n0 <? 0x80) eqn:H1.
  { apply option_map_cons_Some in H. destruct H as [s' [Hd ->]].
    apply N.ltb_lt in H1. constructor.
    - apply scalar_intro. lia.
    - apply (IH r0); [lia | assumption]. }
  destruct (n0 <? 0xC2) eqn:H2; [discriminate|].
  apply N.ltb_ge in H1. apply N.ltb_ge in H2.
  destruct (n0 <? 0xE0) eqn:H3.
  { destruct r0 as [|b1 r1]; [discriminate|].
    destruct (cont 0x80 0xBF b1) as [c1|] eqn:Hc1; [|discriminate].
    apply cont_range in Hc1; [|lia].
    apply option_map_cons_Some in H. destruct H as [s' [Hd ->]].
    apply N.ltb_lt in H3. simpl in Hlen. constructor.
    - apply scalar_intro. lia.
    - apply (IH r1); [lia | assumption]. }
  apply N.ltb_ge in H3.
  destruct (n0 <? 0xF0) eqn:H4.
  { destruct r0 as [|b1 [|b2 r2]]; try discriminate.
    destruct (cont _ _ b1) as [c1|] eqn:Hc1; [|discriminate].
    destruct (cont 0x80 0xBF b2) as [c2|] eqn:Hc2; [|discriminate].
    apply cont_range in Hc2; [|lia].
    apply option_map_cons_Some in H. destruct H as [s' [Hd ->]].
    apply N.ltb_lt in H4. simpl in Hlen. constructor.
    - apply scalar_intro.
      destruct (N.eqb_spec n0 0xE0); destruct (N.eqb_spec n0 0xED);
        (apply cont_range in Hc1; [|lia]); lia.
    - apply (IH r2); [lia | assumption]. }
  apply N.ltb_ge in H4.
  destruct (n0 <? 0xF5) eqn:H5; [|discriminate].
  destruct r0 as [|b1 [|b2 [|b3 r3]]]; try discriminate.
  destruct (cont _ _ b1) as [c1|] eqn:Hc1; [|discriminate].
  destruct (cont 0x80 0xBF b2) as [c2|] eqn:Hc2; [|discriminate].
  destruct (cont 0x80 0xBF b3) as [c3|] eqn:Hc3; [|discriminate].
  apply cont_range in Hc2; [|lia]. apply cont_range in Hc3; [|lia].
  apply option_map_cons_Some in H. destruct H as [s' [Hd ->]].
  apply N.ltb_lt in H5. simpl in Hlen. constructor.
  - apply scalar_intro.
    destruct (N.eqb_spec n0 0xF0); destruct (N.eqb_spec n0 0xF4);
      (apply cont_range in Hc1; [|lia]); lia.
  - apply (IH r3); [lia | assumption].
Qed.

Lemma decode_encodable (data : bytes) (s : str) :
  decode data = Some s -> encodable s.
Proof. apply (decode_encodable_bounded (List.length data)). lia. Qed.

Lemma encodable_host (a : sockaddr) : encodable (host a).
Proof.
  unfold host, str_of_byte.
  repeat (apply encodable_app;
          [first [apply encodable_lit | apply encodable_str_of_int]|]).
  apply encodable_str_of_int.
Qed.

Lemma dict_set_present (d : dict) (k : str) (v : sockaddr) :
  In k (keys d) ->
  keys (dict_set d k v) = keys d /\ dict_get (dict_set d k v) k = Some v.
Proof.
  induction d as [|[k' v'] d IH]; simpl; [tauto|].
  intros Hin. destruct (str_eqb k' k) eqn:E; simpl.
  - rewrite E. auto.
  - rewrite E. apply str_eqb_neq in E.
    destruct Hin as [->|Hin]; [congruence|].
    destruct (IH Hin) as [-> ->]. auto.
Qed.

Lemma dict_set_absent (d : dict) (k : str) (v : sockaddr) :
  ~ In k (keys d) -> dict_set d k v = d ++ [(k, v)].
Proof.
  induction d as [|[k' v'] d IH]; simpl; [reflexivity|].
  intros Hin. destruct (str_eqb k' k) eqn:E.
  - apply str_eqb_eq in E. tauto.
  - rewrite IH; tauto.
Qed.

Lemma dict_get_set_other (d : dict) (k k' : str) (v : sockaddr) :
  k <> k' -> dict_get (dict_set d k v) k' = dict_get d k'.
Proof.
  intros Hne. induction d as [|[k0 v0] d IH]; simpl.
  - apply str_eqb_neq in Hne. rewrite Hne. reflexivity.
  - destruct (str_eqb k0 k) eqn:E; simpl.
    + apply str_eqb_eq in E. subst k0.
      apply str_eqb_neq in Hne. rewrite Hne. reflexivity.
    + rewrite IH. reflexivity.
Qed.

Lemma dict_set_length (d : dict) (k : str) (v : sockaddr) :
  List.length (dict_set d k v) =
  if in_dec str_eq_dec k (keys d)
  then List.length d else S (List.length d).
Proof.
  destruct (in_dec str_eq_dec k (keys d)) as [Hin|Hin].
  - apply dict_set_present with (v := v) in Hin. destruct Hin as [Hk _].
    apply (f_equal (@List.length _)) in Hk. unfold keys in Hk.
    rewrite !length_map in Hk. exact Hk.
  - rewrite dict_set_absent by assumption. rewrite length_app. simpl. lia.
Qed.

Lemma dict_set_NoDup (d : dict) (k : str) (v : sockaddr) :
  NoDup (keys d) -> NoDup (keys (dict_set d k v)).
Proof.
  intros Hnd. destruct (in_dec str_eq_dec k (keys d)) as [Hin|Hin].
  - apply dict_set_present with (v := v) in Hin. destruct Hin as [-> _].
    exact Hnd.
  - rewrite dict_set_absent by assumption. unfold keys. rewrite map_app.
    simpl. apply NoDup_app; [exact Hnd | repeat constructor; simpl; tauto |].
    intros x Hx [<-|[]]. exact (Hin Hx).
Qed.

Lemma to_N_byte_of (n : N) : n < 256 -> Byte.to_N (byte_of n) = n.
Proof.
  intros H. unfold byte_of. destruct (Byte.of_N n) as [b|] eqn:E.
  - apply Byte.to_of_N, E.
  - apply Byte.of_N_None_iff in E. lia.
Qed.

Lemma decode_cons (b0 : byte) (r0 : bytes) :
  decode (b0 :: r0) =
  let n0 := Byte.to_N b0 in
  if n0 <? 0x80 then option_map (cons n0) (decode r0)
  else if n0 <? 0xC2 then None
  else if n0 <? 0xE0 then
    match r0 with
    | b1 :: r1 =>
        match cont 0x80 0xBF b1 with
        | Some c1 => option_map (cons ((n0 - 0xC0) * 64 + c1)) (decode r1)
        | None => None
        end
    | _ => None
    end
  else if n0 <? 0xF0 then
    let lo := if n0 =? 0xE0 then 0xA0 else 0x80 in
    let hi := if n0 =? 0xED then 0x9F else 0xBF in
    match r0 with
    | b1 :: b2 :: r2 =>
        match cont lo hi b1, cont 0x80 0xBF b2 with
        | Some c1, Some c2 =>
            option_map (cons ((n0 - 0xE0) * 4096 + c1 * 64 + c2)) (decode r2)
        | _, _ => None
        end
    | _ => None
    end
  else if n0 <? 0xF5 then
    let lo := if n0 =? 0xF0 then 0x90 else 0x80 in
    let hi := if n0 =? 0xF4 then 0x8F else 0xBF in
    match r0 with
    | b1 :: b2 :: b3 :: r3 =>
        match cont lo hi b1, cont 0x80 0xBF b2, cont 0x80 0xBF b3 with
        | Some c1, Some c2, Some c3 =>
            option_map
              (cons ((n0 - 0xF0) * 262144 + c1 * 4096 + c2 * 64 + c3))
              (decode r3)
        | _, _, _ => None
        end
    | _ => None
    end
  else None.
Proof. reflexivity. Qed.

Lemma cont_byte_of (lo hi n : N) :
  0x80 <= lo -> lo <= n <= hi -> hi < 256 ->
  cont lo hi (byte_of n) = Some (n - 0x80).
Proof.
  intros Hlo Hn Hhi. unfold cont. rewrite to_N_byte_of by lia.
  replace (lo <=? n) with true by (symmetry; apply N.leb_le; lia).
  replace (n <=? hi) with true by (symmetry; apply N.leb_le; lia).
  reflexivity.
Qed.

Ltac euclid := zify; Z.to_euclidean_division_equations; lia.

Ltac ltb_false := match goal with
  | |- context [?a <? ?b] =>
      replace (a <? b) with false by (symmetry; apply N.ltb_ge; euclid)
  end.

Ltac ltb_true := match goal with
  | |- context [?a <? ?b] =>
      replace (a <? b) with true by (symmetry; apply N.ltb_lt; euclid)
  end.

Lemma decode_encode_cp (c : codepoint) (r : bytes) :
  scalar c = true ->
  decode (encode_cp c ++ r) = option_map (cons c) (decode r).
Proof.
  intros Hs. unfold scalar in Hs.
  assert (Hc : c < 0xD800 \/ 0xE000 <= c < 0x110000).
  { apply orb_true_iff in Hs. destruct Hs as [H|H].
    - left. apply N.ltb_lt, H.
    - right. apply andb_true_iff in H. destruct H as [H1 H2].
      apply N.leb_le in H1. apply N.ltb_lt in H2. lia. }
  clear Hs. unfold encode_cp.
  destruct (N.ltb_spec c 0x80) as [H1|H1].
  { cbn [app]. rewrite decode_cons. cbv zeta.
    rewrite to_N_byte_of by lia. ltb_true. reflexivity. }
  destruct (N.ltb_spec c 0x800) as [H2|H2].
  { cbn [app]. rewrite decode_cons. cbv zeta.
    rewrite to_N_byte_of by euclid.
    ltb_false. ltb_false. ltb_true.
    rewrite cont_byte_of by euclid.
    f_equal. f_equal. euclid. }
  destruct (N.ltb_spec c 0x10000) as [H3|H3].
  { cbn [app]. rewrite decode_cons. cbv zeta.
    rewrite to_N_byte_of by euclid.
    ltb_false. ltb_false. ltb_false. ltb_true.
    rewrite (cont_byte_of 0x80 0xBF (0x80 + c mod 64)) by euclid.
    destruct (N.eqb_spec (0xE0 + c / 4096) 0xE0) as [E0|E0];
      destruct (N.eqb_spec (0xE0 + c / 4096) 0xED) as [ED|ED];
      (rewrite cont_byte_of by euclid); f_equal; f_equal; euclid. }
  cbn [app]. rewrite decode_cons. cbv zeta.
  rewrite to_N_byte_of by euclid.
  ltb_false. ltb_false. ltb_false. ltb_false. ltb_true.
  rewrite (cont_byte_of 0x80 0xBF (0x80 + c mod 64)) by euclid.
  rewrite (cont_byte_of 0x80 0xBF (0x80 + (c / 64) mod 64)) by euclid.
  destruct (N.eqb_spec (0xF0 + c / 262144) 0xF0) as [E0|E0];
    destruct (N.eqb_spec (0xF0 + c / 262144) 0xF4) as [E4|E4];
    (rewrite cont_byte_of by euclid); f_equal; f_equal; euclid.
Qed.

Lemma decode_utf8_app (s : str) (r : bytes) :
  encodable s -> decode (utf8 s ++ r) = option_map (app s) (decode r).
Proof.
  induction 1 as [|c s Hc _ IH]; simpl.
  - destruct (decode r); reflexivity.
  - rewrite <- app_assoc, (decode_encode_cp c _ Hc). fold (utf8 s).
    rewrite IH. destruct (decode r); reflexivity.
Qed.

Lemma decode_utf8 (s : str) : encodable s -> decode (utf8 s) = Some s.
Proof.
  intros H. rewrite <- (app_nil_r (utf8 s)), (decode_utf8_app s [] H).
  simpl. rewrite app_nil_r. reflexivity.
Qed.

Lemma lit_String (a : ascii) (s : string) :
  lit (String a s) = N_of_ascii a :: lit s.
Proof. reflexivity. Qed.

Lemma scan_digit (acc k c : N) (s : list N) :
  c_isdigit c = true ->
  scan_digits acc k false (c :: s)
  = scan_digits (10 * acc + (c - 48)) (k + 1) false s.
Proof. intros H. cbn [scan_digits]. rewrite H. reflexivity. Qed.

Lemma scan_digits_pos (d : Decimal.uint) :
  forall p k,
    scan_digits (N.pos p) k false (lit (NilEmpty.string_of_uint d))
    = Some (N.pos (Pos.of_uint_acc d p),
            k + N.of_nat (List.length (lit (NilEmpty.string_of_uint d))), []).
Proof.
  induction d as [|d IH|d IH|d IH|d IH|d IH|d IH|d IH|d IH|d IH|d IH];
    intros p k; cbn [NilEmpty.string_of_uint Pos.of_uint_acc];
    [cbn; rewrite N.add_0_r; reflexivity|..];
    rewrite lit_String, scan_digit by reflexivity;
    match goal with
    | |- scan_digits ?a _ _ _ = Some (N.pos (Pos.of_uint_acc _ ?q), _, _) =>
        replace a with (N.pos q) by (cbn [N_of_ascii N_of_digits]; lia)
    end; rewrite IH; cbn [List.length]; do 2 f_equal; f_equal; lia.
Qed.

Lemma scan_digits_zero (d : Decimal.uint) :
  forall k,
    scan_digits 0 k false (lit (NilEmpty.string_of_uint d))
    = Some (Pos.of_uint d,
            k + N.of_nat (List.length (lit (NilEmpty.string_of_uint d))), []).
Proof.
  induction d as [|d IH|d IH|d IH|d IH|d IH|d IH|d IH|d IH|d IH|d IH];
    intros k; cbn [NilEmpty.string_of_uint Pos.of_uint];
    [cbn; rewrite N.add_0_r; reflexivity|..];
    rewrite lit_String, scan_digit by reflexivity;
    [rewrite IH; cbn [List.length]; do 2 f_equal; f_equal; lia|..];
    match goal with
    | |- scan_digits ?a _ _ _ = Some (N.pos (Pos.of_uint_acc _ ?q), _, _) =>
        replace a with (N.pos q) by (cbn [N_of_ascii N_of_digits]; lia)
    end; rewrite scan_digits_pos; cbn [List.length]; do 2 f_equal; f_equal;
    lia.
Qed.

Lemma digits_all (d : Decimal.uint) :
  Forall (fun c => c_isdigit c = true) (lit (NilEmpty.string_of_uint d)).
Proof.
  induction d; cbn [NilEmpty.string_of_uint]; try rewrite lit_String;
    constructor; (reflexivity || assumption).
Qed.

Lemma digits_all_nilzero (d : Decimal.uint) :
  Forall (fun c => c_isdigit c = true) (lit (NilZero.string_of_uint d))
  /\ lit (NilZero.string_of_uint d) <> [].
Proof.
  destruct d; cbn [NilZero.string_of_uint]; split;
    try (repeat constructor; fail); try apply digits_all;
    cbn [NilEmpty.string_of_uint]; rewrite lit_String; discriminate.
Qed.

Lemma scan_digits_nilzero (d : Decimal.uint) :
  scan_digits 0 0 false (lit (NilZero.string_of_uint d))
  = Some (Pos.of_uint d,
          N.of_nat (List.length (lit (NilZero.string_of_uint d))), []).
Proof.
  destruct d; try apply scan_digits_zero. reflexivity.
Qed.

Lemma c_isdigit_range (c : N) : c_isdigit c = true -> 48 <= c <= 57.
Proof.
  unfold c_isdigit. intros H. apply andb_true_iff in H. destruct H as [H1 H2].
  apply N.leb_le in H1. apply N.leb_le in H2. lia.
Qed.

Lemma ascii_of_str_digits (s : str) :
  Forall (fun c => c_isdigit c = true) s -> ascii_of_str s = Some s.
Proof.
  induction 1 as [|c s Hc _ IH]; [reflexivity|].
  cbn [ascii_of_str]. rewrite IH. unfold ascii_of_char.
  apply c_isdigit_range in Hc.
  replace (c <? 128) with true by (symmetry; apply N.ltb_lt; lia).
  reflexivity.
Qed.

Lemma parse_int_digits (s : list N) (n : N) :
  Forall (fun c => c_isdigit c = true) s -> s <> [] ->
  (List.length s <= 4300)%nat ->
  scan_digits 0 0 false s = Some (n, N.of_nat (List.length s), []) ->
  parse_int s = Some (Z.of_N n)
  /\ parse_int (45 :: s) = Some (- Z.of_N n)%Z.
Proof.
  intros Hs Hne Hlen Hscan. destruct s as [|c s]; [congruence|].
  inversion Hs as [|? ? Hc _]; subst.
  pose proof (c_isdigit_range c Hc) as Hr.
  assert (Hsp : c_isspace c = false).
  { unfold c_isspace. apply orb_false_iff. split.
    - apply N.eqb_neq. lia.
    - apply andb_false_iff. right. apply N.leb_gt. lia. }
  assert (Hlim : (max_str_digits <? N.of_nat (List.length (c :: s))) = false).
  { apply N.ltb_ge. unfold max_str_digits. lia. }
  split.
  - unfold parse_int. cbn [skip_spaces]. rewrite Hsp.
    replace (c =? 43) with false by (symmetry; apply N.eqb_neq; lia).
    replace (c =? 45) with false by (symmetry; apply N.eqb_neq; lia).
    rewrite Hc, Hscan, Hlim. reflexivity.
  - unfold parse_int. cbn [skip_spaces].
    change (c_isspace 45) with false. cbv iota.
    change (45 =? 43) with false. change (45 =? 45) with true. cbv iota.
    rewrite Hc, Hscan, Hlim. reflexivity.
Qed.

(** [int(str(z)) == z] for an integer of at most 4300 digits. *)
Lemma py_int_str_of_int (z : Z) :
  (List.length (str_of_int (Z.abs z)) <= 4300)%nat ->
  py_int (str_of_int z) = Some z.
Proof.
  unfold py_int, str_of_int.
  assert (Hu : forall d,
             (List.length (lit (NilZero.string_of_uint d)) <= 4300)%nat ->
             parse_int (lit (NilZero.string_of_uint d))
             = Some (Z.of_N (Pos.of_uint d))
             /\ parse_int (45 :: lit (NilZero.string_of_uint d))
                = Some (- Z.of_N (Pos.of_uint d))%Z).
  { intros d Hlen. destruct (digits_all_nilzero d) as [Hd Hne].
    apply parse_int_digits; [exact Hd | exact Hne | exact Hlen |].
    apply scan_digits_nilzero. }
  destruct z as [|p|p]; cbn [Z.abs Z.to_int NilZero.string_of_int]; intros Hlen.
  - reflexivity.
  - rewrite ascii_of_str_digits by apply digits_all_nilzero.
    rewrite (proj1 (Hu _ Hlen)), DecimalPos.Unsigned.of_to. reflexivity.
  - rewrite lit_String. change (N_of_ascii "-") with 45.
    cbn [ascii_of_str]. change (ascii_of_char 45) with (Some 45).
    rewrite ascii_of_str_digits by apply digits_all_nilzero.
    rewrite (proj2 (Hu _ Hlen)), DecimalPos.Unsigned.of_to. reflexivity.
Qed.

Lemma split_from_sep (a : str) :
  forall tok b c,
    isspace c = true ->
    split_from tok (a ++ c :: b) = split_from tok a ++ split b.
Proof.
  induction a as [|x a IH]; intros tok b c Hc.
  - cbn [app split_from]. rewrite Hc. destruct tok; reflexivity.
  - cbn [app split_from]. destruct (isspace x).
    + destruct tok; [apply IH, Hc|]. rewrite (IH [] b c Hc). reflexivity.
    + apply IH, Hc.
Qed.

Lemma split_sep (a b : str) (c : codepoint) :
  isspace c = true -> split (a ++ c :: b) = split a ++ split b.
Proof. apply split_from_sep. Qed.

Lemma split_from_token (s : str) :
  forall tok,
    Forall (fun c => isspace c = false) s -> tok ++ s <> [] ->
    split_from tok s = [rev tok ++ s].
Proof.
  induction s as [|c s IH]; intros tok Hs Hne.
  - rewrite app_nil_r in *. destruct tok; [congruence | reflexivity].
  - inversion Hs as [|? ? Hc Hs']; subst. cbn [split_from]. rewrite Hc.
    rewrite IH; [| exact Hs' | discriminate].
    cbn [rev]. rewrite <- app_assoc. reflexivity.
Qed.

Lemma split_token (s : str) : token s -> split s = [s].
Proof.
  intros [Hne Hs]. unfold split. rewrite split_from_token; auto.
Qed.

Lemma token_app (a b : str) : token a -> token b -> token (a ++ b).
Proof.
  intros [Ha Fa] [Hb Fb]. split.
  - destruct a; [congruence | discriminate].
  - apply Forall_app. split; assumption.
Qed.

Lemma token_digits (s : str) :
  s <> [] -> Forall (fun c => c_isdigit c = true) s -> token s.
Proof.
  intros Hne Hs. split; [exact Hne|].
  apply Forall_forall. intros c Hc.
  rewrite Forall_forall in Hs. apply Hs, c_isdigit_range in Hc.
  unfold isspace. repeat (apply orb_false_iff; split);
    try (apply N.eqb_neq; lia);
    apply andb_false_iff;
    first [left; apply N.leb_gt; lia | right; apply N.leb_gt; lia].
Qed.

Lemma str_of_int_of_N (n : N) :
  str_of_int (Z.of_N n) = lit (NilZero.string_of_uint (N.to_uint n)).
Proof. destruct n; reflexivity. Qed.

Lemma token_str_of_N (n : N) : token (str_of_int (Z.of_N n)).
Proof.
  rewrite str_of_int_of_N.
  destruct (digits_all_nilzero (N.to_uint n)) as [Hd Hne].
  apply token_digits; assumption.
Qed.

Lemma token_host (a : sockaddr) : token (host a).
Proof.
  assert (Hdot : token (lit ".")).
  { split; [discriminate | repeat constructor]. }
  unfold host, str_of_byte.
  repeat (apply token_app; [first [exact Hdot | apply token_str_of_N]|]).
  apply token_str_of_N.
Qed.

Lemma split_introduction (id : str) (a : sockaddr) :
  split (Server.introduction id a)
  = split id ++ [host a; str_of_int (port a)].
Proof.
  unfold Server.introduction. change (lit " ") with [32].
  cbn [app]. rewrite split_sep by reflexivity.
  rewrite split_sep by reflexivity.
  rewrite (split_token _ (token_host a)).
  unfold port. rewrite (split_token _ (token_str_of_N _)). reflexivity.
Qed.

Lemma lstrip_token (s : str) : token s -> lstrip s = s.
Proof.
  intros [Hne Hs]. destruct s as [|c s]; [congruence|].
  inversion Hs as [|? ? Hc _]; subst. cbn [lstrip]. rewrite Hc. reflexivity.
Qed.

Lemma strip_token (s : str) : token s -> strip s = s.
Proof.
  intros Ht. unfold strip. rewrite (lstrip_token s Ht).
  assert (Hr : token (rev s)).
  { destruct Ht as [Hne Hs]. split.
    - intros E. apply Hne. rewrite <- (rev_involutive s), E. reflexivity.
    - apply Forall_rev, Hs. }
  rewrite (lstrip_token _ Hr). apply rev_involutive.
Qed.

Lemma lstrip_app (s t : str) :
  lstrip (s ++ t) = match lstrip s with [] => lstrip t | l => l ++ t end.
Proof.
  induction s as [|c s IH]; [reflexivity|].
  cbn [app lstrip]. destruct (isspace c); [exact IH | reflexivity].
Qed.

Lemma lstrip_whitespace (w : str) : whitespace_only w -> lstrip w = [].
Proof.
  induction 1 as [|c w Hc _ IH]; [reflexivity|].
  cbn [lstrip]. rewrite Hc. exact IH.
Qed.

(** Whitespace around a string does not survive [strip]. *)
Lemma strip_surrounded (w1 s w2 : str) :
  whitespace_only w1 -> whitespace_only w2 ->
  strip (w1 ++ s ++ w2) = strip s.
Proof.
  intros H1 H2. unfold strip.
  rewrite lstrip_app, (lstrip_whitespace w1 H1), lstrip_app.
  assert (Hr : whitespace_only (rev w2)) by apply Forall_rev, H2.
  destruct (lstrip s) as [|c l] eqn:E.
  - rewrite (lstrip_whitespace w2 H2). reflexivity.
  - rewrite rev_app_distr, lstrip_app, (lstrip_whitespace _ Hr).
    reflexivity.
Qed.

Lemma byte_of_to_N (b : byte) : byte_of (Byte.to_N b) = b.
Proof. unfold byte_of. rewrite Byte.of_to_N. reflexivity. Qed.

Lemma cont_inv (lo hi : N) (b : byte) (c : N) :
  0x80 <= lo -> cont lo hi b = Some c ->
  Byte.to_N b = c + 0x80 /\ lo <= Byte.to_N b <= hi.
Proof.
  unfold cont. intros Hlo. destruct (_ && _) eqn:H; [|discriminate].
  intros [= <-]. apply andb_true_iff in H. destruct H as [H1 H2].
  apply N.leb_le in H1. apply N.leb_le in H2. lia.
Qed.

Ltac byte_back b :=
  match goal with
  | |- context [byte_of ?e] =>
      lazymatch e with
      | Byte.to_N _ => fail
      | _ => replace e with (Byte.to_N b) by euclid
      end
  end.

Lemma decode_canonical_bounded (n : nat) :
  forall data s,
    (List.length data <= n)%nat -> decode data = Some s -> utf8 s = data.
Proof.
  induction n as [|n IH]; intros [|b0 r0] s Hlen H; simpl in Hlen;
    try (injection H as <-; reflexivity); try lia.
  rewrite decode_cons in H. cbv zeta in H.
  remember (Byte.to_N b0) as n0 eqn:En0.
  destruct (N.ltb_spec n0 0x80) as [H1|H1].
  { apply option_map_cons_Some in H. destruct H as [s' [Hd ->]].
    cbn [utf8 flat_map]. fold (utf8 s'). rewrite (IH r0 s') by (lia || auto).
    unfold encode_cp. ltb_true. rewrite En0, byte_of_to_N. reflexivity. }
  destruct (N.ltb_spec n0 0xC2) as [H2|H2]; [discriminate|].
  destruct (N.ltb_spec n0 0xE0) as [H3|H3].
  { destruct r0 as [|b1 r1]; [discriminate|].
    destruct (cont 0x80 0xBF b1) as [c1|] eqn:Hc1; [|discriminate].
    apply cont_inv in Hc1; [|lia]. destruct Hc1 as [E1 R1].
    apply option_map_cons_Some in H. destruct H as [s' [Hd ->]].
    simpl in Hlen.
    cbn [utf8 flat_map]. fold (utf8 s'). rewrite (IH r1 s') by (lia || auto).
    unfold encode_cp. ltb_false. ltb_true.
    byte_back b0. byte_back b1. rewrite !byte_of_to_N. reflexivity. }
  destruct (N.ltb_spec n0 0xF0) as [H4|H4].
  { destruct r0 as [|b1 [|b2 r2]]; try discriminate.
    destruct (cont _ _ b1) as [c1|] eqn:Hc1; [|discriminate].
    destruct (cont 0x80 0xBF b2) as [c2|] eqn:Hc2; [|discriminate].
    apply cont_inv in Hc2; [|lia]. destruct Hc2 as [E2 R2].
    apply option_map_cons_Some in H. destruct H as [s' [Hd ->]].
    simpl in Hlen.
    cbn [utf8 flat_map]. fold (utf8 s'). rewrite (IH r2 s') by (lia || auto).
    assert (Hb1 : Byte.to_N b1 = c1 + 0x80 /\ 0x80 <= Byte.to_N b1 <= 0xBF
                  /\ (n0 = 0xE0 -> 0xA0 <= Byte.to_N b1)).
    { destruct (N.eqb_spec n0 0xE0); destruct (N.eqb_spec n0 0xED);
        (apply cont_inv in Hc1; [|lia]); lia. }
    destruct Hb1 as (E1 & R1 & L1).
    unfold encode_cp. ltb_false. ltb_false. ltb_true.
    byte_back b0. byte_back b1. byte_back b2.
    rewrite !byte_of_to_N. reflexivity. }
  destruct (N.ltb_spec n0 0xF5) as [H5|H5]; [|discriminate].
  destruct r0 as [|b1 [|b2 [|b3 r3]]]; try discriminate.
  destruct (cont _ _ b1) as [c1|] eqn:Hc1; [|discriminate].
  destruct (cont 0x80 0xBF b2) as [c2|] eqn:Hc2; [|discriminate].
  destruct (cont 0x80 0xBF b3) as [c3|] eqn:Hc3; [|discriminate].
  apply cont_inv in Hc2; [|lia]. destruct Hc2 as [E2 R2].
  apply cont_inv in Hc3; [|lia]. destruct Hc3 as [E3 R3].
  apply option_map_cons_Some in H. destruct H as [s' [Hd ->]].
  simpl in Hlen.
  cbn [utf8 flat_map]. fold (utf8 s'). rewrite (IH r3 s') by (lia || auto).
  assert (Hb1 : Byte.to_N b1 = c1 + 0x80 /\ 0x80 <= Byte.to_N b1 <= 0xBF
                /\ (n0 = 0xF0 -> 0x90 <= Byte.to_N b1)).
  { destruct (N.eqb_spec n0 0xF0); destruct (N.eqb_spec n0 0xF4);
      (apply cont_inv in Hc1; [|lia]); lia. }
  destruct Hb1 as (E1 & R1 & L1).
  unfold encode_cp. ltb_false. ltb_false. ltb_false.
  byte_back b0. byte_back b1. byte_back b2. byte_back b3.
  rewrite !byte_of_to_N. reflexivity.
Qed.

Lemma decode_canonical (data : bytes) (s : str) :
  decode data = Some s -> utf8 s = data.
Proof. apply (decode_canonical_bounded (List.length data)). lia. Qed.

Lemma encode_None (s : str) : ~ encodable s -> encode s = None.
Proof.
  intros H. destruct (encode s) as [b|] eqn:E; [|reflexivity].
  exfalso. apply H. apply (encode_Some_encodable s b E).
Qed.

(** ** Ports and hosts of observed addresses *)

Lemma sa_port_bound (a : sockaddr) : sa_port a < 65536.
Proof.
  unfold sa_port.
  pose proof (Byte.to_N_bounded (sa_port_hi a)).
  pose proof (Byte.to_N_bounded (sa_port_lo a)). lia.
Qed.

Lemma port_range (a : sockaddr) : (0 <= port a <= 65535)%Z.
Proof. unfold port. pose proof (sa_port_bound a). lia. Qed.

Lemma all_below_spec (b : nat) :
  forall f acc,
    all_below b f acc = true ->
    forall n, acc * 2 ^ N.of_nat b <= n < (acc + 1) * 2 ^ N.of_nat b ->
              f n = true.
Proof.
  induction b as [|b IH]; intros f acc H n Hn.
  - cbn [all_below] in H. change (2 ^ N.of_nat 0) with 1 in Hn.
    replace n with acc by lia. exact H.
  - cbn [all_below] in H. apply andb_true_iff in H. destruct H as [H0 H1].
    rewrite Nat2N.inj_succ, N.pow_succ_r' in Hn.
    destruct (N.lt_ge_cases n ((2 * acc + 1) * 2 ^ N.of_nat b)).
    + apply (IH f (2 * acc)); [exact H0 | nia].
    + apply (IH f (2 * acc + 1)); [exact H1 | nia].
Qed.

Lemma short_digits (n : N) :
  n < 65536 -> (List.length (str_of_int (Z.of_N n)) <= 5)%nat.
Proof.
  intros H. apply Nat.leb_le.
  apply (all_below_spec 16
           (fun k => (List.length (str_of_int (Z.of_N k)) <=? 5)%nat) 0).
  - vm_compute. reflexivity.
  - change (2 ^ N.of_nat 16) with 65536. lia.
Qed.

Lemma py_int_port (a : sockaddr) :
  py_int (str_of_int (port a)) = Some (port a).
Proof.
  apply py_int_str_of_int. unfold port.
  rewrite Z.abs_eq by lia.
  pose proof (short_digits _ (sa_port_bound a)). lia.
Qed.

Lemma host_chars (a : sockaddr) :
  Forall (fun c => 0 < c < 128) (host a).
Proof.
  assert (Hd : forall n, Forall (fun c => 0 < c < 128)
                                (str_of_int (Z.of_N n))).
  { intros n. rewrite str_of_int_of_N.
    destruct (digits_all_nilzero (N.to_uint n)) as [H _].
    eapply Forall_impl; [|exact H]. intros c Hc.
    apply c_isdigit_range in Hc. lia. }
  assert (Hdot : Forall (fun c => 0 < c < 128) (lit ".")).
  { repeat constructor. }
  unfold host, str_of_byte.
  repeat (apply Forall_app; split; [first [exact Hdot | apply Hd]|]).
  apply Hd.
Qed.

Lemma host_arg_ok_host (a : sockaddr) : host_arg_ok (host a) = true.
Proof.
  unfold host_arg_ok. pose proof (host_chars a) as H.
  rewrite Forall_forall in H.
  apply andb_true_iff. split.
  - apply negb_true_iff. destruct (existsb (N.eqb 0) (host a)) eqn:E;
      [|reflexivity].
    apply existsb_exists in E. destruct E as [c [Hc Hz]].
    apply N.eqb_eq in Hz. specialize (H c Hc). lia.
  - apply orb_true_iff. left. apply forallb_forall. intros c Hc.
    apply N.ltb_lt. specialize (H c Hc). lia.
Qed.

(** ** [sendto] *)

Lemma sendto_accepted (data : bytes) (dst : endpoint) :
  accepted data dst -> sendto data dst = emit (EvSendto data dst).
Proof.
  destruct dst as [h p]. intros (Hh & Hr & Hp & Hd). cbn [fst snd] in *.
  unfold sendto. rewrite Hh, Hr, Hd. cbn [negb].
  replace ((p <? -2147483648) || (2147483647 <? p))%Z with false
    by (symmetry; apply orb_false_iff; split; apply Z.ltb_ge; lia).
  replace ((p <? 0) || (65535 <? p))%Z with false
    by (symmetry; apply orb_false_iff; split; apply Z.ltb_ge; lia).
  reflexivity.
Qed.

Lemma sendto_refused (data : bytes) (dst : endpoint) :
  ~ accepted data dst ->
  exists e,
    sendto data dst = raise e
    /\ (e = TypeError \/ e = OverflowError \/ e = OSError).
Proof.
  destruct dst as [h p]. unfold accepted, sendto. cbn [fst snd]. intros H.
  destruct (host_arg_ok h); cbn [negb]; [|eauto].
  destruct ((p <? -2147483648) || (2147483647 <? p))%Z; [eauto|].
  destruct (resolves h); cbn [negb]; [|eauto 6].
  destruct ((p <? 0) || (65535 <? p))%Z eqn:Hp; [eauto|].
  destruct (delivers data (h, p)); cbn [negb]; [|eauto 6].
  exfalso. apply H. apply orb_false_iff in Hp. destruct Hp as [H1 H2].
  apply Z.ltb_ge in H1. apply Z.ltb_ge in H2. repeat split; auto; lia.
Qed.

Lemma accepted_dec (data : bytes) (dst : endpoint) :
  accepted data dst \/ ~ accepted data dst.
Proof.
  unfold accepted.
  destruct (host_arg_ok (fst dst)); [|right; intros (H & _); discriminate].
  destruct (resolves (fst dst)); [|right; intros (_ & H & _); discriminate].
  destruct (delivers data dst);
    [|right; intros (_ & _ & _ & H); discriminate].
  destruct (Z_le_dec 0 (snd dst)); [|right; intros (_ & _ & H & _); lia].
  destruct (Z_le_dec (snd dst) 65535); [|right; intros (_ & _ & H & _); lia].
  left. repeat split; auto.
Qed.

Lemma sendto_out_of_range (data : bytes) (h : str) (p : Z) :
  host_arg_ok h = true -> resolves h = true -> (p < 0 \/ 65535 < p)%Z ->
  sendto data (h, p) = raise OverflowError.
Proof.
  intros Hh Hr Hp. unfold sendto. rewrite Hh, Hr. cbn [negb].
  destruct ((p <? -2147483648) || (2147483647 <? p))%Z; [reflexivity|].
  replace ((p <? 0) || (65535 <? p))%Z with true; [reflexivity|].
  symmetry. apply orb_true_iff.
  destruct Hp; [left; apply Z.ltb_lt | right; apply Z.ltb_lt]; lia.
Qed.

Lemma accepted_observed (data : bytes) (a : sockaddr) :
  accepted data (endpoint_of a)
  <-> resolves (host a) = true /\ delivers data (endpoint_of a) = true.
Proof.
  unfold accepted, endpoint_of. cbn [fst snd].
  pose proof (host_arg_ok_host a). pose proof (port_range a). tauto.
Qed.

(** To an observed address [sendto] can only fail with [OSError]. *)
Lemma sendto_observed (data : bytes) (a : sockaddr) :
  ~ accepted data (endpoint_of a) ->
  sendto data (endpoint_of a) = raise OSError.
Proof.
  intros H. unfold sendto, endpoint_of.
  rewrite host_arg_ok_host. cbn [negb]. pose proof (port_range a) as Hp.
  replace ((port a <? -2147483648) || (2147483647 <? port a))%Z with false
    by (symmetry; apply orb_false_iff; split; apply Z.ltb_ge; lia).
  destruct (resolves (host a)) eqn:Hr; cbn [negb]; [|reflexivity].
  replace ((port a <? 0) || (65535 <? port a))%Z with false
    by (symmetry; apply orb_false_iff; split; apply Z.ltb_ge; lia).
  destruct (delivers data (host a, port a)) eqn:Hd; cbn [negb];
    [|reflexivity].
  exfalso. apply H, accepted_observed. auto.
Qed.

Lemma loop_body_spec (peers : dict) (d : datagram) :
  Server.loop_body peers (fst (recvfrom 1024 d)) (source d) =
  match registration d with
  | Some id => ([got_line id (source d)], Ok (dict_set peers id (source d)))
  | None => ([], Raise UnicodeDecodeError)
  end.
Proof.
  unfold Server.loop_body, registration.
  destruct (decode _) as [s|]; reflexivity.
Qed.

Lemma loop_done (peers : dict) (rx : list rx_event) :
  (2 <= List.length peers)%nat -> Server.loop peers rx = ret (peers, rx).
Proof.
  intros H. apply Nat.ltb_ge in H. destruct rx as [|[d|] rx]; simpl;
    rewrite H; reflexivity.
Qed.

Lemma loop_silence (peers : dict) (rx : list rx_event) :
  (List.length peers < 2)%nat ->
  Server.loop peers (Silence :: rx) = Server.loop peers rx.
Proof. intros H. apply Nat.ltb_lt in H. simpl. rewrite H. reflexivity. Qed.

Lemma loop_arrive (peers : dict) (d : datagram) (rx : list rx_event) :
  (List.length peers < 2)%nat ->
  Server.loop peers (Arrive d :: rx) =
  match registration d with
  | Some id =>
      let m := Server.loop (dict_set peers id (source d)) rx in
      (got_line id (source d) :: trace m, result m)
  | None => ([], Raise UnicodeDecodeError)
  end.
Proof.
  intros H. apply Nat.ltb_lt in H.
  change (Server.loop peers (Arrive d :: rx)) with
    (if (List.length peers <? 2)%nat
     then bind (Server.loop_body peers (fst (recvfrom 1024 d)) (source d))
               (fun peers' => Server.loop peers' rx)
     else ret (peers, Arrive d :: rx)).
  rewrite H, loop_body_spec.
  destruct (registration d) as [id|]; [|reflexivity].
  rewrite bind_ok. reflexivity.
Qed.

Lemma loop_empty (peers : dict) :
  (List.length peers < 2)%nat -> Server.loop peers [] = block.
Proof. intros H. apply Nat.ltb_lt in H. simpl. rewrite H. reflexivity. Qed.

Lemma sends_prints (t : list event) : Forall is_print t -> sends t = [].
Proof.
  induction 1 as [|e t He _ IH]; [reflexivity|].
  destruct e; simpl in *; try contradiction. exact IH.
Qed.

Lemma sends_run (e : endpoint) (logs round : list event) :
  Forall is_print logs -> sends (EvBind e :: logs ++ round) = sends round.
Proof.
  intros H. change (EvBind e :: logs ++ round)
    with ([EvBind e] ++ logs ++ round).
  rewrite !sends_app, (sends_prints logs H). reflexivity.
Qed.

Lemma registration_encodable (d : datagram) (id : str) :
  registration d = Some id -> encodable id.
Proof.
  unfold registration. destruct (decode _) as [s|] eqn:E; [|discriminate].
  intros [= <-]. apply encodable_strip, (decode_encodable _ _ E).
Qed.

Lemma registry_ok_nil : registry_ok [].
Proof. repeat split; simpl; [constructor | constructor | lia]. Qed.

Lemma registry_ok_set (peers : dict) (d : datagram) (id : str) :
  registry_ok peers -> (List.length peers < 2)%nat ->
  registration d = Some id ->
  registry_ok (dict_set peers id (source d)).
Proof.
  intros (Hnd & Henc & Hlen) Hlt Hreg. repeat split.
  - apply dict_set_NoDup, Hnd.
  - destruct (in_dec str_eq_dec id (keys peers)) as [Hin|Hin].
    + apply dict_set_present with (v := source d) in Hin.
      destruct Hin as [-> _]. exact Henc.
    + rewrite dict_set_absent by assumption. unfold keys.
      rewrite map_app. apply Forall_app. split; [exact Henc|].
      repeat constructor. apply (registration_encodable _ _ Hreg).
  - rewrite dict_set_length. destruct (in_dec _ _ _); lia.
Qed.

(** The loop only prints. *)
Lemma loop_trace_prints (rx : list rx_event) :
  forall peers, Forall is_print (trace (Server.loop peers rx)).
Proof.
  induction rx as [|[d|] rx IH]; intros peers;
    destruct (Nat.lt_ge_cases (List.length peers) 2) as [Hlt|Hge];
    try (rewrite loop_done by assumption; constructor).
  - rewrite loop_empty by assumption. constructor.
  - rewrite loop_arrive by assumption.
    destruct (registration d) as [id|]; simpl; [|constructor].
    constructor; [exact I | apply IH].
  - rewrite loop_silence by assumption. apply IH.
Qed.

(** When the loop is left, the dict holds two distinct encodable ids, and
    the events after the last one read play no part. *)
Lemma loop_exit (rx : list rx_event) :
  forall peers t p rest,
    registry_ok peers ->
    Server.loop peers rx = (t, Ok (p, rest)) ->
    registry_ok p /\ List.length p = 2%nat /\
    exists consumed,
      rx = consumed ++ rest /\
      forall post, Server.loop peers (consumed ++ post) = (t, Ok (p, post)).
Proof.
  induction rx as [|[d|] rx IH]; intros peers t p rest Hok H;
    destruct (Nat.lt_ge_cases (List.length peers) 2) as [Hlt|Hge];
    try (rewrite loop_done in H by assumption; injection H as <- <- <-;
         split; [exact Hok|]; split; [destruct Hok as (_ & _ & ?); lia|];
         exists []; split; [reflexivity|]; intros post;
         apply loop_done; assumption).
  - rewrite loop_empty in H by assumption. discriminate.
  - rewrite loop_arrive in H by assumption.
    destruct (registration d) as [id|] eqn:Hreg; [|discriminate].
    cbv zeta in H. injection H as <- Hres.
    destruct (IH (dict_set peers id (source d))
                 (trace (Server.loop (dict_set peers id (source d)) rx))
                 p rest)
      as (Hp & Hlen & consumed & -> & Hpost).
    { apply registry_ok_set; assumption. }
    { rewrite <- Hres. apply W_eta. }
    split; [exact Hp|]. split; [exact Hlen|].
    exists (Arrive d :: consumed). split; [reflexivity|]. intros post.
    simpl app. rewrite loop_arrive by assumption. rewrite Hreg.
    cbv zeta. rewrite Hpost. unfold trace at 2. unfold result. simpl.
    rewrite (Hpost rest). reflexivity.
  - rewrite loop_silence in H by assumption.
    destruct (IH peers t p rest Hok H) as (Hp & Hlen & consumed & -> & Hpost).
    split; [exact Hp|]. split; [exact Hlen|].
    exists (Silence :: consumed). split; [reflexivity|]. intros post.
    simpl app. rewrite loop_silence by assumption. apply Hpost.
Qed.

(** The loop can only raise the decoding error of a payload it read. *)
Lemma loop_raise (rx : list rx_event) :
  forall peers e,
    result (Server.loop peers rx) = Raise e ->
    e = UnicodeDecodeError /\
    exists pre d post, rx = pre ++ Arrive d :: post /\ registration d = None.
Proof.
  induction rx as [|[d|] rx IH]; intros peers e H;
    destruct (Nat.lt_ge_cases (List.length peers) 2) as [Hlt|Hge];
    try (rewrite loop_done in H by assumption; discriminate).
  - rewrite loop_empty in H by assumption. discriminate.
  - rewrite loop_arrive in H by assumption.
    destruct (registration d) as [id|] eqn:Hreg.
    + cbv zeta in H. cbn [result snd] in H.
      destruct (IH _ e H) as (He & pre & d' & post & -> & Hd').
      split; [exact He|]. exists (Arrive d :: pre), d', post. auto.
    + injection H as <-. split; [reflexivity|]. exists [], d, rx. auto.
  - rewrite loop_silence in H by assumption.
    destruct (IH _ e H) as (He & pre & d' & post & -> & Hd').
    split; [exact He|]. exists (Silence :: pre), d', post. auto.
Qed.

Lemma encodable_introduction (id : str) (a : sockaddr) :
  encodable id -> encodable (Server.introduction id a).
Proof.
  intros H. unfold Server.introduction.
  repeat (apply encodable_app;
          [first [exact H | apply encodable_lit | apply encodable_host]|]).
  apply encodable_str_of_int.
Qed.

(** With two distinct encodable ids in the dict, the statements after the
    loop come down to the two sends, the log line and the close. *)
Lemma introduce_pair_eq (a b : str) (sa sb : sockaddr) :
  a <> b -> encodable a -> encodable b ->
  Server.introduce [(a, sa); (b, sb)] =
  (sendto (utf8 (Server.introduction b sb)) (endpoint_of sa) ;;
   sendto (utf8 (Server.introduction a sa)) (endpoint_of sb) ;;
   print (lit "introduced " ++ a ++ lit " " ++ b) ;;
   emit EvClose).
Proof.
  intros Hne Ha Hb. apply str_eqb_neq in Hne.
  unfold Server.introduce, getitem, index.
  cbn [keys map fst nth_error lift dict_get]. rewrite !bind_ret.
  rewrite str_eqb_refl. cbn [lift]. rewrite bind_ret.
  rewrite Hne, str_eqb_refl. cbn [lift]. rewrite bind_ret.
  rewrite (encode_encodable _ (encodable_introduction b sb Hb)).
  rewrite (encode_encodable _ (encodable_introduction a sa Ha)).
  cbn [lift]. rewrite !bind_ret. reflexivity.
Qed.

Lemma introduce_pair (a b : str) (sa sb : sockaddr) :
  a <> b -> encodable a -> encodable b ->
  accepted (utf8 (Server.introduction b sb)) (endpoint_of sa) ->
  accepted (utf8 (Server.introduction a sa)) (endpoint_of sb) ->
  Server.introduce [(a, sa); (b, sb)] = (introduction_round a sa b sb, Ok tt).
Proof.
  intros Hne Ha Hb H1 H2. rewrite (introduce_pair_eq a b sa sb Hne Ha Hb).
  rewrite (sendto_accepted _ _ H1), (sendto_accepted _ _ H2). reflexivity.
Qed.

Lemma introduce_first_refused (a b : str) (sa sb : sockaddr) :
  a <> b -> encodable a -> encodable b ->
  ~ accepted (utf8 (Server.introduction b sb)) (endpoint_of sa) ->
  Server.introduce [(a, sa); (b, sb)] = ([], Raise OSError).
Proof.
  intros Hne Ha Hb H1. rewrite (introduce_pair_eq a b sa sb Hne Ha Hb).
  rewrite (sendto_observed _ _ H1). reflexivity.
Qed.

Lemma introduce_second_refused (a b : str) (sa sb : sockaddr) :
  a <> b -> encodable a -> encodable b ->
  accepted (utf8 (Server.introduction b sb)) (endpoint_of sa) ->
  ~ accepted (utf8 (Server.introduction a sa)) (endpoint_of sb) ->
  Server.introduce [(a, sa); (b, sb)]
  = ([EvSendto (utf8 (Server.introduction b sb)) (endpoint_of sa)],
     Raise OSError).
Proof.
  intros Hne Ha Hb H1 H2. rewrite (introduce_pair_eq a b sa sb Hne Ha Hb).
  rewrite (sendto_accepted _ _ H1), (sendto_observed _ _ H2). reflexivity.
Qed.

Lemma introduce_ok (a b : str) (sa sb : sockaddr) :
  a <> b -> encodable a -> encodable b ->
  result (Server.introduce [(a, sa); (b, sb)]) = Ok tt ->
  accepted (utf8 (Server.introduction b sb)) (endpoint_of sa)
  /\ accepted (utf8 (Server.introduction a sa)) (endpoint_of sb).
Proof.
  intros Hne Ha Hb H.
  destruct (accepted_dec (utf8 (Server.introduction b sb)) (endpoint_of sa))
    as [H1|H1].
  - destruct (accepted_dec (utf8 (Server.introduction a sa))
                (endpoint_of sb)) as [H2|H2]; [auto|].
    rewrite (introduce_second_refused a b sa sb Hne Ha Hb H1 H2) in H.
    discriminate.
  - rewrite (introduce_first_refused a b sa sb Hne Ha Hb H1) in H.
    discriminate.
Qed.

Lemma registry_two (p : dict) :
  registry_ok p -> List.length p = 2%nat ->
  exists a sa b sb,
    p = [(a, sa); (b, sb)] /\ a <> b /\ encodable a /\ encodable b.
Proof.
  intros (Hnd & Henc & _) Hlen.
  destruct p as [|[a sa] [|[b sb] [|? ?]]]; try discriminate.
  exists a, sa, b, sb. simpl in *. split; [reflexivity|].
  inversion Hnd as [|? ? Hnin _]. inversion Henc as [|? ? Ha Hb'].
  inversion Hb' as [|? ? Hb _]. subst. repeat split; try assumption.
  intros ->. apply Hnin. left. reflexivity.
Qed.

Lemma main_unfold (rx : list rx_event) :
  Server.main rx =
  let m := Server.loop [] rx in
  match result m with
  | Ok (peers, rest) =>
      (EvBind (lit "0.0.0.0", Server.PORT)
         :: trace m ++ trace (Server.introduce peers),
       match result (Server.introduce peers) with
       | Ok _ => Ok rest
       | Raise e => Raise e
       | Block => Block
       end)
  | Raise e => (EvBind (lit "0.0.0.0", Server.PORT) :: trace m, Raise e)
  | Block => (EvBind (lit "0.0.0.0", Server.PORT) :: trace m, Block)
  end.
Proof.
  unfold Server.main. rewrite bind_emit. cbv zeta.
  destruct (Server.loop [] rx) as [t [[peers rest]|e|]]; simpl;
    try reflexivity.
  destruct (Server.introduce peers) as [t' [[]|e|]]; simpl;
    rewrite ?app_nil_r; reflexivity.
Qed.

(** A run of the server that exits: the log lines of the loop, then one
    introduction round for two distinct ids, both sends of which were
    accepted; the unread events are irrelevant. *)
Lemma main_exit (rx rest : list rx_event) (t : list event) :
  Server.main rx = (t, Ok rest) ->
  exists a sa b sb logs consumed,
    a <> b /\ Forall is_print logs /\
    t = EvBind (lit "0.0.0.0", Server.PORT) :: logs
        ++ introduction_round a sa b sb /\
    rx = consumed ++ rest /\
    (forall post, Server.main (consumed ++ post) = (t, Ok post)) /\
    accepted (utf8 (Server.introduction b sb)) (endpoint_of sa) /\
    accepted (utf8 (Server.introduction a sa)) (endpoint_of sb).
Proof.
  rewrite main_unfold. cbv zeta.
  destruct (Server.loop [] rx) as [logs [[p rest']|e|]] eqn:Hloop;
    cbn [trace result fst snd]; try discriminate.
  destruct (loop_exit rx [] logs p rest' registry_ok_nil Hloop)
    as (Hp & Hlen & consumed & Hrx & Hpost).
  destruct (registry_two p Hp Hlen) as (a & sa & b & sb & -> & Hne & Ha & Hb).
  destruct (result (Server.introduce [(a, sa); (b, sb)])) as [[]|e|] eqn:Hres;
    try discriminate.
  destruct (introduce_ok a b sa sb Hne Ha Hb Hres) as [H1 H2].
  rewrite (introduce_pair a b sa sb Hne Ha Hb H1 H2).
  cbn [trace result fst snd]. intros [= <- <-].
  exists a, sa, b, sb, logs, consumed. split; [exact Hne|].
  split.
  { pose proof (loop_trace_prints rx []) as Hl. rewrite Hloop in Hl.
    exact Hl. }
  split; [reflexivity|]. split; [exact Hrx|]. split; [|split; assumption].
  intros post. rewrite main_unfold. cbv zeta. rewrite Hpost.
  cbn [trace result fst snd].
  rewrite (introduce_pair a b sa sb Hne Ha Hb H1 H2). reflexivity.
Qed.

(** Every run of the server: it stays in the loop or is ended there by an
    undecodable payload, having only logged; or it leaves the loop with two
    distinct ids and goes as far through the introduction round as the
    socket layer lets it. *)
Lemma main_cases (rx : list rx_event) :
  (exists logs,
      Forall is_print logs /\
      trace (Server.main rx) = EvBind (lit "0.0.0.0", Server.PORT) :: logs /\
      ((Server.loop [] rx = (logs, Block)
        /\ result (Server.main rx) = Block)
       \/ (Server.loop [] rx = (logs, Raise UnicodeDecodeError)
           /\ result (Server.main rx) = Raise UnicodeDecodeError)))
  \/ (exists a sa b sb logs rest,
         a <> b /\ Forall is_print logs /\
         Server.loop [] rx = (logs, Ok ([(a, sa); (b, sb)], rest)) /\
         ((~ accepted (utf8 (Server.introduction b sb)) (endpoint_of sa) /\
           Server.main rx
           = (EvBind (lit "0.0.0.0", Server.PORT) :: logs, Raise OSError))
          \/ (accepted (utf8 (Server.introduction b sb)) (endpoint_of sa) /\
              ~ accepted (utf8 (Server.introduction a sa)) (endpoint_of sb) /\
              Server.main rx
              = (EvBind (lit "0.0.0.0", Server.PORT) :: logs
                   ++ [EvSendto (utf8 (Server.introduction b sb))
                                (endpoint_of sa)],
                 Raise OSError))
          \/ (accepted (utf8 (Server.introduction b sb)) (endpoint_of sa) /\
              accepted (utf8 (Server.introduction a sa)) (endpoint_of sb) /\
              Server.main rx
              = (EvBind (lit "0.0.0.0", Server.PORT) :: logs
                   ++ introduction_round a sa b sb,
                 Ok rest)))).
Proof.
  rewrite main_unfold. cbv zeta.
  pose proof (loop_trace_prints rx []) as Hlogs.
  destruct (Server.loop [] rx) as [logs [[p rest]|e|]] eqn:Hloop;
    cbn [trace result fst snd] in *.
  - right.
    destruct (loop_exit rx [] logs p rest registry_ok_nil Hloop)
      as (Hp & Hlen & _).
    destruct (registry_two p Hp Hlen)
      as (a & sa & b & sb & -> & Hne & Ha & Hb).
    exists a, sa, b, sb, logs, rest. split; [exact Hne|].
    split; [exact Hlogs|]. split; [reflexivity|].
    destruct (accepted_dec (utf8 (Server.introduction b sb))
                (endpoint_of sa)) as [H1|H1].
    + destruct (accepted_dec (utf8 (Server.introduction a sa))
                  (endpoint_of sb)) as [H2|H2].
      * right; right. split; [exact H1|]. split; [exact H2|].
        rewrite (introduce_pair a b sa sb Hne Ha Hb H1 H2). reflexivity.
      * right; left. split; [exact H1|]. split; [exact H2|].
        rewrite (introduce_second_refused a b sa sb Hne Ha Hb H1 H2).
        reflexivity.
    + left. split; [exact H1|].
      rewrite (introduce_first_refused a b sa sb Hne Ha Hb H1).
      cbn [trace result fst snd]. rewrite app_nil_r. reflexivity.
  - left. exists logs. split; [exact Hlogs|]. split; [reflexivity|].
    right.
    assert (He : result (Server.loop [] rx) = Raise e)
      by (rewrite Hloop; reflexivity).
    apply loop_raise in He. destruct He as [-> _]. split; reflexivity.
  - left. exists logs. split; [exact Hlogs|]. split; [reflexivity|].
    left. split; reflexivity.
Qed.

(** While every registration carries the same id, the dict has at most that
    one entry and the loop goes on. *)
Lemma loop_same_id (A : str) (pre : list rx_event) :
  forall peers,
    peers = [] \/ (exists x, peers = [(A, x)]) ->
    Forall (registers_as A) pre ->
    exists logs peers',
      (peers' = [] \/ exists x, peers' = [(A, x)]) /\
      Forall is_print logs /\
      forall rx,
        Server.loop peers (pre ++ rx) =
        (logs ++ trace (Server.loop peers' rx),
         result (Server.loop peers' rx)).
Proof.
  induction pre as [|[d|] pre IH]; intros peers Hp Hpre.
  - exists [], peers. split; [exact Hp|]. split; [constructor|].
    intros rx. apply W_eta.
  - inversion Hpre as [|? ? Hd Hpre']; subst. simpl in Hd.
    assert (Hlt : (List.length peers < 2)%nat).
    { destruct Hp as [->|[x ->]]; simpl; lia. }
    assert (Hset : dict_set peers A (source d) = [(A, source d)]).
    { destruct Hp as [->|[x ->]]; simpl; [|rewrite str_eqb_refl];
        reflexivity. }
    destruct (IH [(A, source d)]) as (logs & peers' & Hp' & Hlogs & Hrun).
    { right. eexists. reflexivity. }
    { exact Hpre'. }
    exists (got_line A (source d) :: logs), peers'.
    split; [exact Hp'|]. split; [constructor; [exact I | exact Hlogs]|].
    intros rx. simpl app. rewrite loop_arrive by assumption.
    rewrite Hd. cbv zeta. rewrite Hset, Hrun. reflexivity.
  - inversion Hpre as [|? ? _ Hpre']; subst.
    assert (Hlt : (List.length peers < 2)%nat).
    { destruct Hp as [->|[x ->]]; simpl; lia. }
    destruct (IH peers Hp Hpre') as (logs & peers' & Hp' & Hlogs & Hrun).
    exists logs, peers'. split; [exact Hp'|]. split; [exact Hlogs|].
    intros rx. simpl app. rewrite loop_silence by assumption. apply Hrun.
Qed.

Lemma loop_silences (peers : dict) (n : nat) (rx : list rx_event) :
  (List.length peers < 2)%nat ->
  Server.loop peers (repeat Silence n ++ rx) = Server.loop peers rx.
Proof.
  intros H. induction n as [|n IH]; [reflexivity|].
  simpl. apply Nat.ltb_lt in H. rewrite H. exact IH.
Qed.

(** The second distinct id ends the loop. *)
Lemma loop_second_id (A B : str) (sa : sockaddr) (d : datagram)
  (post : list rx_event) :
  A <> B -> registration d = Some B ->
  Server.loop [(A, sa)] (Arrive d :: post) =
  ([got_line B (source d)], Ok ([(A, sa); (B, source d)], post)).
Proof.
  intros Hne Hd. rewrite loop_arrive by (simpl; lia). rewrite Hd.
  cbv zeta. simpl dict_set. apply str_eqb_neq in Hne. rewrite Hne.
  rewrite loop_done by (simpl; lia). reflexivity.
Qed.

(** A first id, registered any number of times and last from [dA], then a
    second id: the loop is left with the two ids, the first with the
    address of [dA]. *)
Lemma loop_two_ids (A B : str) (pre : list rx_event) (dA dB : datagram)
  (n : nat) :
  A <> B -> Forall (registers_as A) pre ->
  registration dA = Some A -> registration dB = Some B ->
  exists logs,
    Forall is_print logs /\
    forall post,
      Server.loop [] (pre ++ Arrive dA :: repeat Silence n
                          ++ Arrive dB :: post)
      = (logs, Ok ([(A, source dA); (B, source dB)], post)).
Proof.
  intros Hne Hpre HA HB.
  destruct (loop_same_id A pre [] (or_introl eq_refl) Hpre)
    as (logs & peers' & Hp' & Hlogs & Hrun).
  assert (Hlt : (List.length peers' < 2)%nat).
  { destruct Hp' as [->|[x ->]]; simpl; lia. }
  assert (Hset : dict_set peers' A (source dA) = [(A, source dA)]).
  { destruct Hp' as [->|[x ->]]; simpl; [|rewrite str_eqb_refl];
      reflexivity. }
  exists (logs ++ [got_line A (source dA); got_line B (source dB)]).
  split.
  { apply Forall_app. split; [exact Hlogs | repeat constructor]. }
  intros post. rewrite Hrun.
  rewrite loop_arrive by assumption. rewrite HA. cbv zeta.
  rewrite Hset, loop_silences by (simpl; lia).
  rewrite (loop_second_id A B _ dB post Hne HB). reflexivity.
Qed.

(** That run of the server, when both introductions are accepted: one
    introduction round, whatever follows. *)
Lemma main_two_ids (A B : str) (pre : list rx_event) (dA dB : datagram)
  (n : nat) :
  A <> B -> Forall (registers_as A) pre ->
  registration dA = Some A -> registration dB = Some B ->
  accepted (utf8 (Server.introduction B (source dB)))
           (endpoint_of (source dA)) ->
  accepted (utf8 (Server.introduction A (source dA)))
           (endpoint_of (source dB)) ->
  exists logs,
    Forall is_print logs /\
    forall post,
      Server.main (pre ++ Arrive dA :: repeat Silence n ++ Arrive dB :: post)
      = (EvBind (lit "0.0.0.0", Server.PORT) :: logs
           ++ introduction_round A (source dA) B (source dB),
         Ok post).
Proof.
  intros Hne Hpre HA HB H1 H2.
  destruct (loop_two_ids A B pre dA dB n Hne Hpre HA HB)
    as (logs & Hlogs & Hrun).
  exists logs. split; [exact Hlogs|].
  intros post. rewrite main_unfold. cbv zeta. rewrite Hrun.
  cbn [trace result fst snd].
  rewrite introduce_pair;
    [reflexivity | exact Hne | apply (registration_encodable _ _ HA)
     | apply (registration_encodable _ _ HB) | exact H1 | exact H2].
Qed.

Lemma strip_whitespace_only (s : str) : whitespace_only s -> strip s = [].
Proof.
  intros H. unfold strip.
  assert (Hl : lstrip s = []).
  { induction H as [|c s Hc _ IH]; simpl; [reflexivity|].
    rewrite Hc. exact IH. }
  rewrite Hl. reflexivity.
Qed.

(** Two registrations under distinct ids, one after the other. *)
Lemma main_pair (A B : str) (dA dB : datagram) (post : list rx_event) :
  A <> B -> registration dA = Some A -> registration dB = Some B ->
  accepted (utf8 (Server.introduction B (source dB)))
           (endpoint_of (source dA)) ->
  accepted (utf8 (Server.introduction A (source dA)))
           (endpoint_of (source dB)) ->
  Server.main (Arrive dA :: Arrive dB :: post) =
  (EvBind (lit "0.0.0.0", Server.PORT)
     :: [got_line A (source dA); got_line B (source dB)]
     ++ introduction_round A (source dA) B (source dB),
   Ok post).
Proof.
  intros Hne HA HB H1 H2. rewrite main_unfold. cbv zeta.
  rewrite loop_arrive by (simpl; lia). rewrite HA. cbv zeta.
  simpl dict_set. rewrite (loop_second_id A B _ dB post Hne HB).
  cbn [trace result fst snd].
  rewrite introduce_pair;
    [reflexivity | exact Hne | apply (registration_encodable _ _ HA)
     | apply (registration_encodable _ _ HB) | exact H1 | exact H2].
Qed.

Lemma sends_introduction_round (a b : str) (sa sb : sockaddr) :
  sends (introduction_round a sa b sb) =
  [(utf8 (Server.introduction b sb), endpoint_of sa);
   (utf8 (Server.introduction a sa), endpoint_of sb)].
Proof. reflexivity. Qed.

Lemma repeat_snoc {A} (a : A) (n : nat) : a :: repeat a n = repeat a n ++ [a].
Proof. induction n as [|n IH]; simpl; [reflexivity|]. rewrite <- IH. reflexivity. Qed.

(** A list of events that starts with a registration under [A] and goes on
    with registrations under [A] ends with such a registration followed by
    silence only. *)
Lemma last_registration (A : str) (l : list rx_event) :
  forall d0,
    registration d0 = Some A -> Forall (registers_as A) l ->
    exists pre dA n,
      Arrive d0 :: l = pre ++ Arrive dA :: repeat Silence n /\
      Forall (registers_as A) pre /\ registration dA = Some A.
Proof.
  induction l as [|e l IH] using rev_ind; intros d0 H0 Hl.
  - exists [], d0, 0%nat. repeat split; [constructor | exact H0].
  - apply Forall_app in Hl. destruct Hl as [Hl He].
    inversion He as [|? ? He' _]; subst.
    destruct e as [d|].
    + exists (Arrive d0 :: l), d, 0%nat. split; [reflexivity|].
      split; [constructor; assumption | exact He'].
    + destruct (IH d0 H0 Hl) as (pre & dA & n & E & Hpre & HA).
      exists pre, dA, (S n). split; [|split; assumption].
      change (Arrive d0 :: l ++ [Silence]) with ((Arrive d0 :: l) ++ [Silence]).
      rewrite E, <- app_assoc. simpl. rewrite repeat_snoc. reflexivity.
Qed.

Lemma loop_exit_from_one (rx : list rx_event) :
  forall A x t p rest,
    Server.loop [(A, x)] rx = (t, Ok (p, rest)) ->
    exists pre dB B,
      rx = pre ++ Arrive dB :: rest /\ Forall (registers_as A) pre /\
      registration dB = Some B /\ A <> B.
Proof.
  induction rx as [|[d|] rx IH]; intros A x t p rest H.
  - discriminate.
  - rewrite loop_arrive in H by (simpl; lia).
    destruct (registration d) as [id|] eqn:Hreg; [|discriminate].
    cbv zeta in H. simpl dict_set in H.
    destruct (str_eqb A id) eqn:E.
    + apply str_eqb_eq in E. subst id. injection H as _ Hres.
      destruct (IH A (source d) (trace (Server.loop [(A, source d)] rx))
                   p rest) as (pre & dB & B & -> & Hpre & HB & Hne).
      { rewrite <- Hres. apply W_eta. }
      exists (Arrive d :: pre), dB, B. split; [reflexivity|].
      split; [constructor; assumption|]. split; assumption.
    + apply str_eqb_neq in E. rewrite loop_done in H by (simpl; lia).
      injection H as _ _ <-. exists [], d, id. repeat split;
        [constructor | exact Hreg | exact E].
  - rewrite loop_silence in H by (simpl; lia).
    destruct (IH A x t p rest H) as (pre & dB & B & -> & Hpre & HB & Hne).
    exists (Silence :: pre), dB, B. split; [reflexivity|].
    split; [constructor; [exact I | assumption]|]. split; assumption.
Qed.

(** Every run of the loop that is left is a run in which a first id
    registered, last with some datagram [dA], and then a second one. *)
Lemma loop_exit_shape (rx : list rx_event) :
  forall t p rest,
    Server.loop [] rx = (t, Ok (p, rest)) ->
    exists A B pre dA n dB,
      A <> B /\ Forall (registers_as A) pre /\
      registration dA = Some A /\ registration dB = Some B /\
      rx = pre ++ Arrive dA :: repeat Silence n ++ Arrive dB :: rest /\
      p = [(A, source dA); (B, source dB)].
Proof.
  intros t p rest Hloop.
  assert (Hshape : exists A B pre dA n dB,
             A <> B /\ Forall (registers_as A) pre /\
             registration dA = Some A /\ registration dB = Some B /\
             rx = pre ++ Arrive dA :: repeat Silence n ++ Arrive dB :: rest).
  { revert t Hloop.
    induction rx as [|[d|] rx IH]; intros logs Hloop.
    - discriminate.
    - rewrite loop_arrive in Hloop by (simpl; lia).
      destruct (registration d) as [A|] eqn:Hreg; [|discriminate].
      cbv zeta in Hloop. simpl dict_set in Hloop. injection Hloop as _ Hres.
      destruct (loop_exit_from_one rx A (source d)
                  (trace (Server.loop [(A, source d)] rx)) p rest)
        as (pre1 & dB & B & -> & Hpre1 & HB & Hne).
      { rewrite <- Hres. apply W_eta. }
      destruct (last_registration A pre1 d Hreg Hpre1)
        as (pre & dA & n & E & Hpre & HA).
      exists A, B, pre, dA, n, dB. repeat split; try assumption.
      change (Arrive d :: pre1 ++ Arrive dB :: rest)
        with ((Arrive d :: pre1) ++ Arrive dB :: rest).
      rewrite E, <- app_assoc. reflexivity.
    - rewrite loop_silence in Hloop by (simpl; lia).
      destruct (IH logs Hloop)
        as (A & B & pre & dA & n & dB & Hne & Hpre & HA & HB & ->).
      exists A, B, (Silence :: pre), dA, n, dB.
      repeat split; try assumption.
      constructor; [exact I | assumption]. }
  destruct Hshape as (A & B & pre & dA & n & dB & Hne & Hpre & HA & HB & E).
  exists A, B, pre, dA, n, dB. repeat split; try assumption.
  destruct (loop_two_ids A B pre dA dB n Hne Hpre HA HB) as (logs & _ & Hrun).
  rewrite E, Hrun in Hloop. congruence.
Qed.

(** Every run of the server that exits is such a run. *)
Lemma main_exit_shape (rx rest : list rx_event) (t : list event) :
  Server.main rx = (t, Ok rest) ->
  exists A B pre dA n dB,
    A <> B /\ Forall (registers_as A) pre /\
    registration dA = Some A /\ registration dB = Some B /\
    rx = pre ++ Arrive dA :: repeat Silence n ++ Arrive dB :: rest.
Proof.
  rewrite main_unfold. cbv zeta.
  destruct (Server.loop [] rx) as [logs [[p rest']|e|]] eqn:Hloop;
    cbn [result snd]; try discriminate.
  destruct (Server.introduce p) as [t' [[]|e|]]; try discriminate.
  intros [= _ <-].
  destruct (loop_exit_shape rx logs p rest' Hloop)
    as (A & B & pre & dA & n & dB & Hne & Hpre & HA & HB & E & _).
  exists A, B, pre, dA, n, dB. auto.
Qed.

(** Registrations under one id alone leave the loop waiting. *)
Lemma loop_blocked_same_id (A : str) (rx : list rx_event) :
  Forall (registers_as A) rx ->
  exists logs, Forall is_print logs /\ Server.loop [] rx = (logs, Block).
Proof.
  intros Hrx.
  destruct (loop_same_id A rx [] (or_introl eq_refl) Hrx)
    as (logs & peers' & Hp' & Hlogs & Hrun).
  specialize (Hrun []). rewrite app_nil_r in Hrun.
  rewrite loop_empty in Hrun by (destruct Hp' as [->|[x ->]]; simpl; lia).
  exists logs. split; [exact Hlogs|]. rewrite Hrun.
  cbn [trace result fst snd block]. rewrite app_nil_r. reflexivity.
Qed.

(** Registrations under one id alone leave the server in its loop. *)
Lemma main_same_id (A : str) (rx : list rx_event) :
  Forall (registers_as A) rx ->
  result (Server.main rx) = Block /\ sends (trace (Server.main rx)) = [].
Proof.
  intros Hrx.
  destruct (loop_blocked_same_id A rx Hrx) as (logs & Hlogs & Hrun).
  rewrite main_unfold. cbv zeta. rewrite Hrun.
  cbn [trace result fst snd]. split; [reflexivity|].
  rewrite <- (app_nil_r logs). apply sends_run, Hlogs.
Qed.

Lemma recvfrom_short (data : bytes) (src : sockaddr) :
  (List.length data <= 1024)%nat ->
  recvfrom 1024 (Datagram data src) = (data, src).
Proof.
  intros H. unfold recvfrom. cbn [payload source].
  rewrite firstn_all2 by exact H. reflexivity.
Qed.

Lemma recvfrom_excess (data extra : bytes) (src : sockaddr) :
  List.length data = 1024%nat ->
  recvfrom 1024 (Datagram (data ++ extra) src)
  = recvfrom 1024 (Datagram data src).
Proof.
  intros H. unfold recvfrom. cbn [payload source].
  rewrite firstn_app, H, Nat.sub_diag, firstn_O, app_nil_r. reflexivity.
Qed.

Lemma whitespace_scalar (c : codepoint) : isspace c = true -> scalar c = true.
Proof.
  intros H. apply scalar_intro.
  destruct (N.lt_ge_cases c 0xD800) as [Hlt|Hge]; [left; exact Hlt|].
  exfalso. unfold isspace in H.
  repeat (apply orb_true_iff in H; destruct H as [H|H]);
    repeat (apply andb_true_iff in H; destruct H as [H ?]);
    try (apply N.eqb_eq in H); try (apply N.leb_le in H);
    repeat match goal with
           | X : (_ <=? _) = true |- _ => apply N.leb_le in X
           end; lia.
Qed.

Lemma whitespace_encodable (w : str) : whitespace_only w -> encodable w.
Proof.
  unfold whitespace_only, encodable. intros H.
  apply Forall_forall. intros c Hc.
  rewrite Forall_forall in H. apply whitespace_scalar, H, Hc.
Qed.

Lemma registration_utf8 (s : str) (src : sockaddr) :
  encodable s -> (List.length (utf8 s) <= 1024)%nat ->
  registration (Datagram (utf8 s) src) = Some (strip s).
Proof.
  intros Hs Hlen. unfold registration.
  rewrite (recvfrom_short _ src Hlen). cbn [fst].
  rewrite (decode_utf8 s Hs). reflexivity.
Qed.

Lemma dict_get_set_same (d : dict) (k : str) (v : sockaddr) :
  dict_get (dict_set d k v) k = Some v.
Proof.
  induction d as [|[k' v'] d IH]; cbn [dict_set dict_get].
  - rewrite str_eqb_refl. reflexivity.
  - destruct (str_eqb k' k) eqn:E; cbn [dict_get]; rewrite E;
      [reflexivity | exact IH].
Qed.

Lemma dict_get_None (d : dict) (k : str) :
  dict_get d k = None <-> ~ In k (keys d).
Proof.
  induction d as [|[k' v'] d IH]; cbn [dict_get keys map fst In].
  - tauto.
  - destruct (str_eqb k' k) eqn:E.
    + apply str_eqb_eq in E. split; [discriminate | tauto].
    + apply str_eqb_neq in E. fold (keys d). tauto.
Qed.

Lemma length_utf8_introduction (id : str) (a : sockaddr) :
  (List.length (utf8 id) <= List.length (utf8 (Server.introduction id a)))%nat.
Proof.
  unfold Server.introduction. rewrite utf8_app, length_app. lia.
Qed.

(** The trace of the loop is one log line per datagram read, in order. *)
Lemma loop_logs (rx : list rx_event) :
  forall peers t p rest,
    Server.loop peers rx = (t, Ok (p, rest)) ->
    exists consumed,
      rx = consumed ++ rest /\ t = flat_map log_of (arrived consumed)
      /\ Forall (fun d => registration d <> None) (arrived consumed)
      /\ List.length (flat_map log_of (arrived consumed))
         = List.length (arrived consumed).
Proof.
  induction rx as [|[d|] rx IH]; intros peers t p rest H;
    destruct (Nat.lt_ge_cases (List.length peers) 2) as [Hlt|Hge];
    try (rewrite loop_done in H by assumption; injection H as <- _ <-;
         exists []; repeat split; constructor).
  - rewrite loop_empty in H by assumption. discriminate.
  - rewrite loop_arrive in H by assumption.
    destruct (registration d) as [id|] eqn:Hreg; [|discriminate].
    cbv zeta in H. injection H as <- Hres.
    destruct (IH (dict_set peers id (source d))
                 (trace (Server.loop (dict_set peers id (source d)) rx))
                 p rest) as (consumed & -> & Ht & Hf & Hl).
    { rewrite <- Hres. apply W_eta. }
    exists (Arrive d :: consumed). split; [reflexivity|].
    cbn [arrived flat_map app]. fold (arrived consumed).
    unfold log_of at 1 3. rewrite Hreg, <- Ht.
    split; [reflexivity|]. split.
    + constructor; [congruence | exact Hf].
    + cbn [app List.length]. rewrite <- Hl, Ht. reflexivity.
  - rewrite loop_silence in H by assumption.
    destruct (IH peers t p rest H) as (consumed & -> & Ht & Hf & Hl).
    exists (Silence :: consumed). split; [reflexivity|].
    split; [exact Ht|]. split; [exact Hf | exact Hl].
Qed.


Lemma encode_ack (peer_id : str) :
  encodable peer_id -> encode (lit "ack from " ++ peer_id) = Some (ack peer_id).
Proof.
  intros H. apply encode_encodable, encodable_app;
    [apply encodable_lit | exact H].
Qed.

Lemma encode_ping (peer_id : str) :
  encodable peer_id ->
  encode (lit "ping from " ++ peer_id) = Some (ping peer_id).
Proof.
  intros H. apply encode_encodable, encodable_app;
    [apply encodable_lit | exact H].
Qed.


Lemma length_ack_ping (peer_id : str) :
  S (List.length (ack peer_id)) = List.length (ping peer_id).
Proof.
  unfold ack, ping. rewrite !utf8_app, !length_app. reflexivity.
Qed.

Lemma decode_ping (peer_id : str) :
  encodable peer_id ->
  decode (ping peer_id) = Some (lit "ping from " ++ peer_id).
Proof.
  intros H. apply decode_utf8, encodable_app; [apply encodable_lit | exact H].
Qed.

Lemma decode_ack (peer_id : str) :
  encodable peer_id ->
  decode (ack peer_id) = Some (lit "ack from " ++ peer_id).
Proof.
  intros H. apply decode_utf8, encodable_app; [apply encodable_lit | exact H].
Qed.

Lemma register_accepted (peer_id : str) (server : endpoint) :
  encodable peer_id -> accepted (utf8 peer_id) server ->
  Peer.register peer_id server
  = ([EvBind ([], 0%Z); EvSendto (utf8 peer_id) server], Ok tt).
Proof.
  intros Hp Hs. unfold Peer.register.
  rewrite (encode_encodable _ Hp). cbn [lift]. rewrite bind_ret.
  rewrite (sendto_accepted _ _ Hs). reflexivity.
Qed.

Lemma register_refused (peer_id : str) (server : endpoint) :
  encodable peer_id -> ~ accepted (utf8 peer_id) server ->
  exists e,
    Peer.register peer_id server = ([EvBind ([], 0%Z)], Raise e)
    /\ (e = TypeError \/ e = OverflowError \/ e = OSError).
Proof.
  intros Hp Hs. unfold Peer.register.
  rewrite (encode_encodable _ Hp). cbn [lift]. rewrite bind_ret.
  destruct (sendto_refused _ _ Hs) as (e & -> & He).
  exists e. split; [reflexivity | exact He].
Qed.

Lemma punch_eq (peer_id : str) (partner : endpoint) :
  encodable peer_id ->
  Peer.punch peer_id partner
  = Peer.for_range 3 (sendto (ping peer_id) partner ;; emit (EvSleep 500)).
Proof.
  intros H. unfold Peer.punch. rewrite (encode_ping _ H).
  cbn [lift]. rewrite bind_ret. reflexivity.
Qed.

Lemma punch_burst (peer_id : str) (partner : endpoint) :
  encodable peer_id -> accepted (ping peer_id) partner ->
  Peer.punch peer_id partner = (burst peer_id partner, Ok tt).
Proof.
  intros H Ha. rewrite (punch_eq _ _ H), (sendto_accepted _ _ Ha).
  reflexivity.
Qed.



Lemma listen_body_undecodable (peer_id : str) (data : bytes) (a : sockaddr) :
  decode data = None ->
  Peer.listen_body peer_id data a = ([], Raise UnicodeDecodeError).
Proof. intros H. unfold Peer.listen_body. rewrite H. reflexivity. Qed.

Lemma listen_body_eq (peer_id : str) (data : bytes) (a : sockaddr)
  (msg : str) :
  encodable peer_id -> decode data = Some msg ->
  Peer.listen_body peer_id data a
  = (let m := if startswith msg (lit "ping")
              then sendto (ack peer_id) (endpoint_of a)
              else ret tt in
     (got_record peer_id msg a :: trace m, result m)).
Proof.
  intros Hp H. unfold Peer.listen_body. rewrite H.
  cbn [lift]. rewrite bind_ret. unfold print. rewrite bind_emit.
  destruct (startswith msg (lit "ping")); [|reflexivity].
  rewrite (encode_ack _ Hp). cbn [lift]. rewrite bind_ret. reflexivity.
Qed.

Lemma listen_body_decoded (peer_id : str) (data : bytes) (a : sockaddr)
  (msg : str) :
  encodable peer_id -> decode data = Some msg ->
  (startswith msg (lit "ping") = true ->
   accepted (ack peer_id) (endpoint_of a)) ->
  Peer.listen_body peer_id data a = (reaction peer_id msg a, Ok tt).
Proof.
  intros Hp H Ha. rewrite (listen_body_eq _ _ _ msg Hp H). unfold reaction.
  destruct (startswith msg (lit "ping")); [|reflexivity].
  rewrite (sendto_accepted _ _ (Ha eq_refl)). reflexivity.
Qed.

Lemma listen_body_refused (peer_id : str) (data : bytes) (a : sockaddr)
  (msg : str) :
  encodable peer_id -> decode data = Some msg ->
  startswith msg (lit "ping") = true ->
  ~ accepted (ack peer_id) (endpoint_of a) ->
  Peer.listen_body peer_id data a
  = ([got_record peer_id msg a], Raise OSError).
Proof.
  intros Hp H Hs Ha. rewrite (listen_body_eq _ _ _ msg Hp H), Hs.
  rewrite (sendto_observed _ _ Ha). reflexivity.
Qed.


Lemma handled_body (peer_id : str) (d : datagram) :
  encodable peer_id -> handled peer_id d ->
  exists msg,
    decode (fst (recvfrom 1024 d)) = Some msg /\
    Peer.listen_body peer_id (fst (recvfrom 1024 d)) (source d)
    = (reaction peer_id msg (source d), Ok tt).
Proof.
  intros Hp [Hd Ha]. unfold decodable in Hd. unfold pinged in Ha.
  destruct (decode (fst (recvfrom 1024 d))) as [msg|] eqn:E; [|congruence].
  exists msg. split; [reflexivity|].
  apply listen_body_decoded; assumption.
Qed.


Lemma listen_loop_arrive (peer_id : str) (d : datagram) (rx : list rx_event) :
  Peer.listen_loop peer_id (Arrive d :: rx) =
  bind (Peer.listen_body peer_id (fst (recvfrom 1024 d)) (source d))
       (fun _ => Peer.listen_loop peer_id rx).
Proof. reflexivity. Qed.





Lemma reactions_cons (peer_id : str) (d : datagram) (ds : list datagram)
  (msg : str) :
  decode (fst (recvfrom 1024 d)) = Some msg ->
  reactions peer_id (d :: ds)
  = reaction peer_id msg (source d) ++ reactions peer_id ds.
Proof. intros E. unfold reactions. cbn [flat_map]. rewrite E. reflexivity. Qed.

(** Datagrams the loop gets through are recorded and answered in turn. *)
Lemma listen_loop_handled (peer_id : str) (ds : list datagram)
  (rx : list rx_event) :
  encodable peer_id -> Forall (handled peer_id) ds ->
  Peer.listen_loop peer_id (map Arrive ds ++ rx)
  = (reactions peer_id ds ++ trace (Peer.listen_loop peer_id rx),
     result (Peer.listen_loop peer_id rx)).
Proof.
  intros Hp. induction 1 as [|d ds Hd _ IH]; [apply W_eta|].
  change (map Arrive (d :: ds) ++ rx) with (Arrive d :: map Arrive ds ++ rx).
  rewrite listen_loop_arrive.
  destruct (handled_body peer_id d Hp Hd) as (msg & E & ->).
  rewrite bind_ok, IH. cbn [trace result fst snd].
  rewrite (reactions_cons _ _ _ msg E), <- app_assoc. reflexivity.
Qed.

Lemma listen_loop_timeout (peer_id : str) (ds : list datagram)
  (post : list rx_event) :
  encodable peer_id -> Forall (handled peer_id) ds ->
  Peer.listen_loop peer_id (map Arrive ds ++ Silence :: post)
  = (reactions peer_id ds, Raise SocketTimeout).
Proof.
  intros Hp Hds. rewrite (listen_loop_handled _ _ _ Hp Hds).
  cbn [Peer.listen_loop raise trace result fst snd].
  rewrite app_nil_r. reflexivity.
Qed.


Lemma listen_unfold (peer_id : str) (rx : list rx_event) :
  Peer.listen peer_id rx =
  let m := Peer.listen_loop peer_id rx in
  match result m with
  | Raise SocketTimeout => (EvSetTimeout 5000 :: trace m ++ [EvClose], Ok tt)
  | Ok _ => (EvSetTimeout 5000 :: trace m ++ [EvClose], Ok tt)
  | r => (EvSetTimeout 5000 :: trace m, r)
  end.
Proof.
  unfold Peer.listen. rewrite bind_emit. cbv zeta.
  destruct (Peer.listen_loop peer_id rx) as [t [[]|[]|]]; cbn;
    rewrite ?app_nil_r; reflexivity.
Qed.

Lemma listen_on_timeout (peer_id : str) (ds : list datagram)
  (post : list rx_event) :
  encodable peer_id -> Forall (handled peer_id) ds ->
  Peer.listen peer_id (map Arrive ds ++ Silence :: post)
  = (EvSetTimeout 5000 :: reactions peer_id ds ++ [EvClose], Ok tt).
Proof.
  intros Hp Hds. rewrite listen_unfold. cbv zeta.
  rewrite (listen_loop_timeout peer_id ds post Hp Hds). reflexivity.
Qed.





(** Decoding an introduction yields a value or raises, without any action. *)
Lemma decodeIntroduction_eq (data : bytes) :
  Peer.decodeIntroduction data =
  match decode data with
  | None => raise UnicodeDecodeError
  | Some s =>
      match split s with
      | [id; ip; p] =>
          match py_int p with
          | Some n => ret (id, ip, n)
          | None => raise ValueError
          end
      | _ => raise ValueError
      end
  end.
Proof.
  unfold Peer.decodeIntroduction.
  destruct (decode data) as [s|]; [|reflexivity].
  cbn [lift]. rewrite bind_ret. cbv beta.
  destruct (split s) as [|id [|ip [|p [|x l]]]]; try reflexivity.
  cbn [Peer.unpack3]. rewrite bind_ret. cbv beta iota.
  destruct (py_int p); reflexivity.
Qed.

Lemma decodeIntroduction_cases (data : bytes) :
  (exists s id ip p n,
      decode data = Some s /\ split s = [id; ip; p] /\ py_int p = Some n /\
      Peer.decodeIntroduction data = ret (id, ip, n))
  \/ (decode data = None /\
      Peer.decodeIntroduction data = raise UnicodeDecodeError)
  \/ ((exists s, decode data = Some s /\
                 (List.length (split s) <> 3%nat \/
                  exists id ip p, split s = [id; ip; p] /\ py_int p = None))
      /\ Peer.decodeIntroduction data = raise ValueError).
Proof.
  rewrite decodeIntroduction_eq.
  destruct (decode data) as [s|] eqn:Hd; [|right; left; split; reflexivity].
  destruct (split s) as [|id [|ip [|p [|x l]]]] eqn:Hs;
    try (right; right; split;
         [exists s; split; [reflexivity|]; left; rewrite Hs; simpl; lia
         | reflexivity]).
  destruct (py_int p) as [n|] eqn:Hp.
  - left. exists s, id, ip, p, n. repeat split; reflexivity || assumption.
  - right; right. split; [|reflexivity].
    exists s. split; [reflexivity|]. right. exists id, ip, p. auto.
Qed.

Lemma decodeIntroduction_introduction (id : str) (a : sockaddr) :
  encodable id ->
  Peer.decodeIntroduction (utf8 (Server.introduction id a)) =
  match split id with
  | [t] => ret (t, host a, port a)
  | _ => raise ValueError
  end.
Proof.
  intros Hid. rewrite decodeIntroduction_eq.
  rewrite (decode_utf8 _ (encodable_introduction id a Hid)).
  rewrite split_introduction.
  destruct (split id) as [|t [|u l]]; try reflexivity.
  - cbn [app]. rewrite py_int_port. reflexivity.
  - destruct l as [|v l]; cbn [app]; [reflexivity|].
    destruct l; reflexivity.
Qed.

Lemma await_silences (peer_id : str) (n : nat) (rx : list rx_event) :
  Peer.await_introduction peer_id (repeat Silence n ++ rx)
  = Peer.await_introduction peer_id rx.
Proof.
  unfold Peer.await_introduction. induction n as [|n IH]; [reflexivity|].
  exact IH.
Qed.

Lemma await_arrive (peer_id : str) (d : datagram) (rx : list rx_event) :
  Peer.await_introduction peer_id (Arrive d :: rx) =
  match decode (fst (recvfrom 1024 d)) with
  | None => raise UnicodeDecodeError
  | Some s =>
      match split s with
      | [id; ip; p] =>
          match py_int p with
          | Some n => ([learned_line peer_id id ip n], Ok ((ip, n), rx))
          | None => raise ValueError
          end
      | _ => raise ValueError
      end
  end.
Proof.
  unfold Peer.await_introduction. cbn [Peer.recv_blocking].
  rewrite bind_ret. cbn [recvfrom fst]. rewrite decodeIntroduction_eq.
  destruct (decode _) as [s|]; [|reflexivity].
  destruct (split s) as [|id [|ip [|p [|x l]]]]; try reflexivity.
  destruct (py_int p); reflexivity.
Qed.

Lemma await_decoded (peer_id : str) (d : datagram) (rx : list rx_event)
  (other_id other_ip : str) (other_port : Z) :
  Peer.decodeIntroduction (fst (recvfrom 1024 d))
  = ret (other_id, other_ip, other_port) ->
  Peer.await_introduction peer_id (Arrive d :: rx)
  = ([learned_line peer_id other_id other_ip other_port],
     Ok ((other_ip, other_port), rx)).
Proof.
  intros Hd. unfold Peer.await_introduction. cbn [Peer.recv_blocking].
  rewrite bind_ret. cbn [recvfrom fst] in Hd |- *. rewrite Hd. reflexivity.
Qed.

Lemma await_raised (peer_id : str) (d : datagram) (rx : list rx_event)
  (e : exn) :
  Peer.decodeIntroduction (fst (recvfrom 1024 d)) = raise e ->
  Peer.await_introduction peer_id (Arrive d :: rx) = ([], Raise e).
Proof.
  intros Hd. unfold Peer.await_introduction. cbn [Peer.recv_blocking].
  rewrite bind_ret. cbn [recvfrom fst] in Hd |- *. rewrite Hd. reflexivity.
Qed.

(** The peer up to its first receive, when the registration is accepted. *)
Lemma main_registered (argv : list str) (peer_id : str) (server : endpoint)
  (rx : list rx_event) :
  Peer.args argv = ret (peer_id, server) -> encodable peer_id ->
  accepted (utf8 peer_id) server ->
  Peer.main argv rx
  = (let m := '(partner, rest) <- Peer.await_introduction peer_id rx ;;
              Peer.punch peer_id partner ;;
              Peer.listen peer_id rest in
     (EvBind ([], 0%Z) :: EvSendto (utf8 peer_id) server :: trace m,
      result m)).
Proof.
  intros Hargs Hp Hs. unfold Peer.main. rewrite Hargs, bind_ret.
  rewrite (register_accepted _ _ Hp Hs), bind_ok. reflexivity.
Qed.

(** The peer whose registration is refused ends there. *)
Lemma main_unregistered (argv : list str) (peer_id : str) (server : endpoint)
  (rx : list rx_event) :
  Peer.args argv = ret (peer_id, server) -> encodable peer_id ->
  ~ accepted (utf8 peer_id) server ->
  exists e,
    Peer.main argv rx = ([EvBind ([], 0%Z)], Raise e)
    /\ (e = TypeError \/ e = OverflowError \/ e = OSError).
Proof.
  intros Hargs Hp Hs. unfold Peer.main. rewrite Hargs, bind_ret.
  destruct (register_refused _ _ Hp Hs) as (e & -> & He).
  exists e. split; [reflexivity | exact He].
Qed.

(** A registered peer that receives a well-formed introduction and whose
    pings are accepted goes through the burst and into the listening loop. *)
Lemma main_reaches_listen (argv : list str) (peer_id : str)
  (server : endpoint) (d : datagram) (rx : list rx_event)
  (other_id other_ip : str) (other_port : Z) :
  Peer.args argv = ret (peer_id, server) -> encodable peer_id ->
  accepted (utf8 peer_id) server ->
  Peer.decodeIntroduction (fst (recvfrom 1024 d))
  = ret (other_id, other_ip, other_port) ->
  accepted (ping peer_id) (other_ip, other_port) ->
  Peer.main argv (Arrive d :: rx) =
  ([EvBind ([], 0%Z); EvSendto (utf8 peer_id) server;
    learned_line peer_id other_id other_ip other_port]
     ++ burst peer_id (other_ip, other_port)
     ++ trace (Peer.listen peer_id rx),
   result (Peer.listen peer_id rx)).
Proof.
  intros Hargs Hp Hs Hd Ha.
  rewrite (main_registered argv peer_id server _ Hargs Hp Hs). cbv zeta.
  rewrite (await_decoded _ _ _ _ _ _ Hd), bind_ok. cbv beta iota.
  rewrite (punch_burst _ _ Hp Ha), bind_ok.
  cbn [trace result fst snd app]. reflexivity.
Qed.


Lemma main_on_introduction (argv : list str) (peer_id : str)
  (server : endpoint) (d : datagram) (rx : list rx_event) (e : exn) :
  Peer.args argv = ret (peer_id, server) -> encodable peer_id ->
  accepted (utf8 peer_id) server ->
  Peer.decodeIntroduction (fst (recvfrom 1024 d)) = raise e ->
  Peer.main argv (Arrive d :: rx) =
  ([EvBind ([], 0%Z); EvSendto (utf8 peer_id) server], Raise e).
Proof.
  intros Hargs Hp Hs Hd.
  rewrite (main_registered argv peer_id server _ Hargs Hp Hs). cbv zeta.
  rewrite (await_raised _ _ _ _ Hd). reflexivity.
Qed.

Lemma stdout_app (t u : list event) : stdout (t ++ u) = stdout t ++ stdout u.
Proof. apply flat_map_app. Qed.

Lemma occurs_in_stdout (sub line : str) (t : list event) :
  In (EvPrint line) t -> occurs_in sub line -> occurs_in sub (stdout t).
Proof.
  intros Hin (pre & post & ->). apply in_split in Hin.
  destruct Hin as (t1 & t2 & ->).
  exists (stdout t1 ++ pre), (post ++ [10] ++ stdout t2).
  rewrite stdout_app. cbn [stdout flat_map]. fold (stdout t2).
  rewrite <- !app_assoc. reflexivity.
Qed.

Lemma reactions_in (peer_id : str) (ds : list datagram) (d : datagram)
  (msg : str) :
  In d ds -> decode (fst (recvfrom 1024 d)) = Some msg ->
  In (got_record peer_id msg (source d)) (reactions peer_id ds).
Proof.
  intros Hin Hd. unfold reactions. apply in_flat_map. exists d.
  split; [exact Hin|]. rewrite Hd. left. reflexivity.
Qed.


(** ** The claims about the server *)

(** C1, amended. When a first id [A] has registered (any number of times,
    last with datagram [dA]) and a second id [B] registers with datagram
    [dB], the server leaves its loop and sends, in this order, to the
    observed source of [dA] the introduction of [B] with the observed source
    of [dB], and to the observed source of [dB] the introduction of [A] with
    the observed source of [dA]; the first id seen is introduced first. If
    the socket layer accepts both sends, these are exactly the datagrams
    sent and the server exits. If it refuses the first, the server ends
    with [OSError] having sent nothing; if it refuses the second, the
    server ends with [OSError] having sent the first introduction only. *)
Theorem server_introduces_first_two_ids
  (A B : str) (pre : list rx_event) (dA dB : datagram) (n : nat)
  (post : list rx_event) :
  A <> B -> Forall (registers_as A) pre ->
  registration dA = Some A -> registration dB = Some B ->
  let run :=
    Server.main (pre ++ Arrive dA :: repeat Silence n ++ Arrive dB :: post) in
  exists to_a to_b,
    encode (B ++ lit " " ++ host (source dB) ++ lit " "
              ++ str_of_int (port (source dB))) = Some to_a /\
    encode (A ++ lit " " ++ host (source dA) ++ lit " "
              ++ str_of_int (port (source dA))) = Some to_b /\
    (accepted to_a (host (source dA), port (source dA)) ->
     accepted to_b (host (source dB), port (source dB)) ->
     result run = Ok post /\
     sends (trace run) =
       [(to_a, (host (source dA), port (source dA)));
        (to_b, (host (source dB), port (source dB)))]) /\
    (~ accepted to_a (host (source dA), port (source dA)) ->
     result run = Raise OSError /\ sends (trace run) = []) /\
    (accepted to_a (host (source dA), port (source dA)) ->
     ~ accepted to_b (host (source dB), port (source dB)) ->
     result run = Raise OSError /\
     sends (trace run) = [(to_a, (host (source dA), port (source dA)))]).
Proof.
  intros Hne Hpre HA HB run.
  pose proof (registration_encodable _ _ HA) as HeA.
  pose proof (registration_encodable _ _ HB) as HeB.
  destruct (loop_two_ids A B pre dA dB n Hne Hpre HA HB)
    as (logs & Hl & Hrun).
  exists (utf8 (Server.introduction B (source dB))),
         (utf8 (Server.introduction A (source dA))).
  split; [apply encode_encodable, encodable_introduction, HeB|].
  split; [apply encode_encodable, encodable_introduction, HeA|].
  assert (Hmain : run
            = (EvBind (lit "0.0.0.0", Server.PORT)
                 :: logs ++ trace (Server.introduce
                                     [(A, source dA); (B, source dB)]),
               match result (Server.introduce
                               [(A, source dA); (B, source dB)]) with
               | Ok _ => Ok post
               | Raise e => Raise e
               | Block => Block
               end)).
  { subst run. rewrite main_unfold. cbv zeta. rewrite Hrun. reflexivity. }
  fold (endpoint_of (source dA)). fold (endpoint_of (source dB)).
  split; [|split].
  - intros H1 H2. rewrite Hmain.
    rewrite (introduce_pair A B _ _ Hne HeA HeB H1 H2).
    cbn [trace result fst snd]. split; [reflexivity|].
    rewrite (sends_run _ _ _ Hl). reflexivity.
  - intros H1. rewrite Hmain.
    rewrite (introduce_first_refused A B _ _ Hne HeA HeB H1).
    cbn [trace result fst snd]. split; [reflexivity|].
    rewrite (sends_run _ _ _ Hl). reflexivity.
  - intros H1 H2. rewrite Hmain.
    rewrite (introduce_second_refused A B _ _ Hne HeA HeB H1 H2).
    cbn [trace result fst snd]. split; [reflexivity|].
    rewrite (sends_run _ _ _ Hl). reflexivity.
Qed.

(** C4. The loop is its body repeated: while the dict holds fewer than two
    entries each datagram read goes through the body, which assigns the
    observed source to the stripped id; silence is waited through. The dict
    stays within two entries with distinct keys; the loop is left at once
    when the dict holds two entries and is only ever left with two distinct
    keys, and exactly on runs in which a first id registers, any number of
    times, and then a second one, the dict then holding for the first id
    the address of its last registration. Assigning to a key already
    present replaces its address and leaves the keys, hence the count, as
    they were; and while all registrations carry one single id the server
    stays in the loop. *)
Theorem server_registry_invariant :
  (forall peers d id,
      registry_ok peers -> (List.length peers < 2)%nat ->
      registration d = Some id ->
      Server.loop_body peers (fst (recvfrom 1024 d)) (source d)
        = ([got_line id (source d)], Ok (dict_set peers id (source d)))
      /\ registry_ok (dict_set peers id (source d)))
  /\ (forall peers d rx,
         (List.length peers < 2)%nat ->
         Server.loop peers (Arrive d :: rx)
         = (peers' <- Server.loop_body peers (fst (recvfrom 1024 d))
                        (source d) ;;
            Server.loop peers' rx)
         /\ Server.loop peers (Silence :: rx) = Server.loop peers rx
         /\ Server.loop peers [] = block
         /\ forall id,
             registration d = Some id ->
             Server.loop peers (Arrive d :: rx)
             = (got_line id (source d)
                  :: trace (Server.loop (dict_set peers id (source d)) rx),
                result (Server.loop (dict_set peers id (source d)) rx)))
  /\ (forall peers rx,
         List.length peers = 2%nat -> Server.loop peers rx = ret (peers, rx))
  /\ (forall peers rx t p rest,
         registry_ok peers -> Server.loop peers rx = (t, Ok (p, rest)) ->
         List.length p = 2%nat /\ NoDup (keys p))
  /\ (forall A B pre dA n dB post,
         A <> B -> Forall (registers_as A) pre ->
         registration dA = Some A -> registration dB = Some B ->
         result (Server.loop [] (pre ++ Arrive dA :: repeat Silence n
                                     ++ Arrive dB :: post))
         = Ok ([(A, source dA); (B, source dB)], post))
  /\ (forall rx t p rest,
         Server.loop [] rx = (t, Ok (p, rest)) ->
         exists A B pre dA n dB,
           A <> B /\ Forall (registers_as A) pre /\
           registration dA = Some A /\ registration dB = Some B /\
           rx = pre ++ Arrive dA :: repeat Silence n ++ Arrive dB :: rest /\
           p = [(A, source dA); (B, source dB)])
  /\ (forall peers id a,
         In id (keys peers) ->
         keys (dict_set peers id a) = keys peers
         /\ List.length (dict_set peers id a) = List.length peers
         /\ dict_get (dict_set peers id a) id = Some a)
  /\ (forall A rx,
         Forall (registers_as A) rx ->
         result (Server.loop [] rx) = Block
         /\ result (Server.main rx) = Block
         /\ sends (trace (Server.main rx)) = []).
Proof.
  split; [|split; [|split; [|split; [|split; [|split; [|split]]]]]].
  - intros peers d id Hok Hlt Hreg. split.
    + rewrite loop_body_spec, Hreg. reflexivity.
    + apply registry_ok_set; assumption.
  - intros peers d rx Hlt. split; [|split; [|split]].
    + pose proof Hlt as Hb. apply Nat.ltb_lt in Hb.
      cbn [Server.loop]. rewrite Hb. reflexivity.
    + apply loop_silence, Hlt.
    + apply loop_empty, Hlt.
    + intros id Hreg. rewrite loop_arrive by assumption. rewrite Hreg.
      reflexivity.
  - intros peers rx Hlen. apply loop_done. lia.
  - intros peers rx t p rest Hok Hrun.
    destruct (loop_exit rx peers t p rest Hok Hrun) as ((Hnd & _) & Hlen & _).
    split; assumption.
  - intros A B pre dA n dB post Hne Hpre HA HB.
    destruct (loop_two_ids A B pre dA dB n Hne Hpre HA HB)
      as (logs & _ & Hrun).
    rewrite Hrun. reflexivity.
  - intros rx t p rest. apply loop_exit_shape.
  - intros peers id a Hin.
    destruct (dict_set_present peers id a Hin) as [Hk Hg].
    split; [exact Hk|]. split; [|exact Hg].
    apply (f_equal (@List.length _)) in Hk. unfold keys in Hk.
    rewrite !length_map in Hk. exact Hk.
  - intros A rx Hrx.
    destruct (loop_blocked_same_id A rx Hrx) as (logs & _ & Hrun).
    split; [rewrite Hrun; reflexivity|]. apply (main_same_id A rx Hrx).
Qed.

(** C5. A run of the server that exits has sent exactly two datagrams, both
    in the single introduction round that ends its trace, followed only by
    the log line and the closing of the socket; the events it has not read
    are never read: whatever arrives after the second distinct id (a third
    registration included) changes neither the trace nor the outcome and is
    handed back unread. *)
Theorem server_single_introduction
  (rx rest : list rx_event) (t : list event) :
  Server.main rx = (t, Ok rest) ->
  exists a sa b sb logs consumed,
    a <> b /\ Forall is_print logs /\
    t = EvBind (lit "0.0.0.0", Server.PORT) :: logs
        ++ [EvSendto (utf8 (Server.introduction b sb)) (endpoint_of sa);
            EvSendto (utf8 (Server.introduction a sa)) (endpoint_of sb);
            EvPrint (lit "introduced " ++ a ++ lit " " ++ b);
            EvClose] /\
    List.length (sends t) = 2%nat /\
    rx = consumed ++ rest /\
    (forall post, Server.main (consumed ++ post) = (t, Ok post)) /\
    (forall d3 post,
        Server.main (consumed ++ Arrive d3 :: post)
        = (t, Ok (Arrive d3 :: post))).
Proof.
  intros H.
  destruct (main_exit rx rest t H)
    as (a & sa & b & sb & logs & consumed & Hne & Hl & -> & Hrx & Hpost & _).
  exists a, sa, b, sb, logs, consumed.
  split; [exact Hne|]. split; [exact Hl|]. split; [reflexivity|].
  split. { rewrite (sends_run _ _ _ Hl). reflexivity. }
  split; [exact Hrx|]. split; [exact Hpost|].
  intros d3 post. apply Hpost.
Qed.

(** C10. The loop never sends, so a run that never leaves the loop has sent
    nothing and no registration is acknowledged. In every run the trace is
    the log lines of the loop followed by what the statements after the
    loop did, and the datagrams sent are none, the first, or both of the
    two introductions of the two distinct ids the loop ended with, in that
    order (fewer than both only when [sendto] raised). A run that exits has
    sent exactly the two introductions, after every log line of the loop. *)
Theorem server_sends_only_introductions (rx : list rx_event) :
  (forall peers, sends (trace (Server.loop peers rx)) = []) /\
  ((forall p rest, result (Server.loop [] rx) <> Ok (p, rest)) ->
   sends (trace (Server.main rx)) = []) /\
  (exists round,
      Forall is_print (trace (Server.loop [] rx)) /\
      trace (Server.main rx)
      = EvBind (lit "0.0.0.0", Server.PORT)
          :: trace (Server.loop [] rx) ++ round /\
      sends (trace (Server.main rx)) = sends round /\
      (round = []
       \/ exists a sa b sb rest,
           a <> b /\
           result (Server.loop [] rx) = Ok ([(a, sa); (b, sb)], rest) /\
           (round = [EvSendto (utf8 (Server.introduction b sb))
                              (endpoint_of sa)]
            \/ round
               = [EvSendto (utf8 (Server.introduction b sb)) (endpoint_of sa);
                  EvSendto (utf8 (Server.introduction a sa)) (endpoint_of sb);
                  EvPrint (lit "introduced " ++ a ++ lit " " ++ b);
                  EvClose]))) /\
  (forall rest,
      result (Server.main rx) = Ok rest ->
      exists a sa b sb logs,
        a <> b /\ Forall is_print logs /\
        trace (Server.main rx)
        = EvBind (lit "0.0.0.0", Server.PORT) :: logs
            ++ [EvSendto (utf8 (Server.introduction b sb)) (endpoint_of sa);
                EvSendto (utf8 (Server.introduction a sa)) (endpoint_of sb);
                EvPrint (lit "introduced " ++ a ++ lit " " ++ b);
                EvClose] /\
        sends (trace (Server.main rx))
        = [(utf8 (Server.introduction b sb), endpoint_of sa);
           (utf8 (Server.introduction a sa), endpoint_of sb)]).
Proof.
  split; [|split; [|split]].
  - intros peers. apply sends_prints, loop_trace_prints.
  - intros Hno.
    destruct (main_cases rx)
      as [(logs & Hl & Ht & _)
         |(a & sa & b & sb & logs & rest & _ & _ & Hloop & _)].
    + rewrite Ht, <- (app_nil_r logs). rewrite (sends_run _ _ _ Hl); reflexivity.
    + exfalso. apply (Hno [(a, sa); (b, sb)] rest). rewrite Hloop.
      reflexivity.
  - destruct (main_cases rx)
      as [(logs & Hl & Ht & Hloop)
         |(a & sa & b & sb & logs & rest & Hne & Hl & Hloop & Hcases)].
    + exists []. assert (E : trace (Server.loop [] rx) = logs)
        by (destruct Hloop as [[-> _]|[-> _]]; reflexivity).
      rewrite E, app_nil_r. split; [exact Hl|]. split; [exact Ht|].
      split; [|left; reflexivity].
      rewrite Ht, <- (app_nil_r logs). rewrite (sends_run _ _ _ Hl); reflexivity.
    + rewrite Hloop. cbn [trace result fst snd].
      destruct Hcases as [[_ Hm]|[(_ & _ & Hm)|(_ & _ & Hm)]]; rewrite Hm;
        cbn [trace fst].
      * exists []. rewrite app_nil_r. split; [exact Hl|].
        split; [reflexivity|]. split; [|left; reflexivity].
        rewrite <- (app_nil_r logs). rewrite (sends_run _ _ _ Hl); reflexivity.
      * eexists. split; [exact Hl|]. split; [reflexivity|].
        split; [rewrite (sends_run _ _ _ Hl); reflexivity|].
        right. exists a, sa, b, sb, rest. split; [exact Hne|].
        split; [reflexivity|]. left. reflexivity.
      * eexists. split; [exact Hl|]. split; [reflexivity|].
        split; [rewrite (sends_run _ _ _ Hl); reflexivity|].
        right. exists a, sa, b, sb, rest. split; [exact Hne|].
        split; [reflexivity|]. right. reflexivity.
  - intros rest Hres.
    destruct (main_exit rx rest (trace (Server.main rx)))
      as (a & sa & b & sb & logs & consumed & Hne & Hl & Ht & _).
    { rewrite <- Hres. apply W_eta. }
    exists a, sa, b, sb, logs. split; [exact Hne|]. split; [exact Hl|].
    split; [exact Ht|]. rewrite Ht, (sends_run _ _ _ Hl). reflexivity.
Qed.

(** C9, amended. The loop body registers whatever id the text decoded from
    the bytes [recvfrom(1024)] returned strips to, with no check; these
    bytes are the first 1024 of the payload, all of it when it is no longer
    than that. A text of whitespace alone registers the empty id; the empty
    id and any other id make two distinct ids, so the loop ends in either
    order of arrival, and when the socket layer accepts both sends the
    empty id is introduced to the other peer as its partner. *)
Theorem server_accepts_any_decodable_id :
  (forall peers d s,
      decode (fst (recvfrom 1024 d)) = Some s ->
      Server.loop_body peers (fst (recvfrom 1024 d)) (source d)
      = ([got_line (strip s) (source d)],
         Ok (dict_set peers (strip s) (source d))))
  /\ (forall d,
         fst (recvfrom 1024 d) = firstn 1024 (payload d)
         /\ ((List.length (payload d) <= 1024)%nat ->
             fst (recvfrom 1024 d) = payload d))
  /\ (forall d s,
         decode (fst (recvfrom 1024 d)) = Some s -> whitespace_only s ->
         registration d = Some [])
  /\ (forall dW dB B post,
         registration dW = Some [] -> registration dB = Some B -> B <> [] ->
         result (Server.loop [] (Arrive dW :: Arrive dB :: post))
         = Ok ([([], source dW); (B, source dB)], post)
         /\ result (Server.loop [] (Arrive dB :: Arrive dW :: post))
            = Ok ([(B, source dB); ([], source dW)], post))
  /\ (forall dW dB B post,
         registration dW = Some [] -> registration dB = Some B -> B <> [] ->
         accepted (utf8 (Server.introduction B (source dB)))
                  (endpoint_of (source dW)) ->
         accepted (utf8 (lit " " ++ host (source dW) ++ lit " "
                           ++ str_of_int (port (source dW))))
                  (endpoint_of (source dB)) ->
         Server.main (Arrive dW :: Arrive dB :: post)
         = ([EvBind (lit "0.0.0.0", Server.PORT);
             got_line [] (source dW); got_line B (source dB);
             EvSendto (utf8 (Server.introduction B (source dB)))
                      (endpoint_of (source dW));
             EvSendto (utf8 (lit " " ++ host (source dW) ++ lit " "
                               ++ str_of_int (port (source dW))))
                      (endpoint_of (source dB));
             EvPrint (lit "introduced " ++ lit " " ++ B);
             EvClose],
            Ok post)
         /\ Server.main (Arrive dB :: Arrive dW :: post)
            = ([EvBind (lit "0.0.0.0", Server.PORT);
                got_line B (source dB); got_line [] (source dW);
                EvSendto (utf8 (lit " " ++ host (source dW) ++ lit " "
                                  ++ str_of_int (port (source dW))))
                         (endpoint_of (source dB));
                EvSendto (utf8 (Server.introduction B (source dB)))
                         (endpoint_of (source dW));
                EvPrint (lit "introduced " ++ B ++ lit " ");
                EvClose],
               Ok post)).
Proof.
  split; [|split; [|split; [|split]]].
  - intros peers d s Hd. unfold Server.loop_body. rewrite Hd. reflexivity.
  - intros d. split; [reflexivity|]. intros Hlen.
    destruct d as [data src]. rewrite (recvfrom_short data src Hlen).
    reflexivity.
  - intros d s Hd Hs. unfold registration. rewrite Hd. simpl.
    rewrite (strip_whitespace_only s Hs). reflexivity.
  - intros dW dB B post HW HB Hne.
    assert (Hne' : [] <> B) by (intros E; apply Hne; symmetry; exact E).
    split.
    + rewrite loop_arrive by (simpl; lia). rewrite HW. cbv zeta.
      simpl dict_set. rewrite (loop_second_id [] B _ dB post Hne' HB).
      reflexivity.
    + rewrite loop_arrive by (simpl; lia). rewrite HB. cbv zeta.
      simpl dict_set. rewrite (loop_second_id B [] _ dW post Hne HW).
      reflexivity.
  - intros dW dB B post HW HB Hne H1 H2. split.
    + rewrite (main_pair [] B dW dB post);
        [reflexivity | | exact HW | exact HB | exact H1 | exact H2].
      intros E. apply Hne. symmetry. exact E.
    + rewrite (main_pair B [] dB dW post Hne HB HW H2 H1).
      unfold introduction_round. rewrite app_nil_r. reflexivity.
Qed.

(** ** The claims about the peer *)



(** C6, amended. In the listening loop every datagram whose first 1024
    bytes (what [recvfrom(1024)] returns) are valid UTF-8 is recorded, and
    [sendto] is called with the ack [ack from <peer_id>] for its observed
    source exactly when the decoded text starts with [ping]: a text that
    does not start with [ping] is recorded only and the loop goes on; a
    text that does is recorded and acknowledged and the loop goes on,
    unless the socket layer refuses the ack, which ends the loop with
    [OSError]. A text [ack from ...] does not start with [ping], a text
    [ping from ...] does. *)
Theorem peer_listening_reaction
  (peer_id : str) (d : datagram) (rx : list rx_event) (msg : str) :
  encodable peer_id -> decode (fst (recvfrom 1024 d)) = Some msg ->
  exists reply,
    encode (lit "ack from " ++ peer_id) = Some reply /\
    (startswith msg (lit "ping") = false ->
     Peer.listen_loop peer_id (Arrive d :: rx)
     = (EvPrint (peer_id ++ lit " got " ++ [34] ++ msg ++ [34]
                   ++ lit " from " ++ repr_addr (source d))
          :: trace (Peer.listen_loop peer_id rx),
        result (Peer.listen_loop peer_id rx))) /\
    (startswith msg (lit "ping") = true ->
     accepted reply (host (source d), port (source d)) ->
     Peer.listen_loop peer_id (Arrive d :: rx)
     = (EvPrint (peer_id ++ lit " got " ++ [34] ++ msg ++ [34]
                   ++ lit " from " ++ repr_addr (source d))
          :: EvSendto reply (host (source d), port (source d))
          :: trace (Peer.listen_loop peer_id rx),
        result (Peer.listen_loop peer_id rx))) /\
    (startswith msg (lit "ping") = true ->
     ~ accepted reply (host (source d), port (source d)) ->
     Peer.listen_loop peer_id (Arrive d :: rx)
     = ([EvPrint (peer_id ++ lit " got " ++ [34] ++ msg ++ [34]
                    ++ lit " from " ++ repr_addr (source d))],
        Raise OSError)) /\
    (forall sender,
        msg = lit "ack from " ++ sender ->
        startswith msg (lit "ping") = false) /\
    (forall sender,
        msg = lit "ping from " ++ sender ->
        startswith msg (lit "ping") = true).
Proof.
  intros Hp Hd. exists (ack peer_id). split; [apply encode_ack, Hp|].
  fold (endpoint_of (source d)).
  split; [|split; [|split; [|split]]].
  - intros Hs. rewrite listen_loop_arrive.
    rewrite (listen_body_decoded _ _ _ msg Hp Hd)
      by (rewrite Hs; intros H; discriminate H).
    rewrite bind_ok. unfold reaction. rewrite Hs. reflexivity.
  - intros Hs Ha. rewrite listen_loop_arrive.
    rewrite (listen_body_decoded _ _ _ msg Hp Hd (fun _ => Ha)).
    rewrite bind_ok. unfold reaction. rewrite Hs. reflexivity.
  - intros Hs Ha. rewrite listen_loop_arrive.
    rewrite (listen_body_refused _ _ _ msg Hp Hd Hs Ha). reflexivity.
  - intros sender ->. reflexivity.
  - intros sender ->. reflexivity.
Qed.

(** C3, amended. While awaiting the introduction the peer waits through
    silence and reads exactly one datagram. If the first 1024 bytes of its
    payload (what [recvfrom(1024)] returns) are valid UTF-8 that splits on
    whitespace into exactly three fields the third of which [int] accepts,
    the peer logs what it learned and goes on to punch the address made of
    the second field and that integer, with the remaining events untouched;
    this is the only way it goes on. Otherwise it ends at once with
    [UnicodeDecodeError] (bytes not UTF-8) or [ValueError] (field count
    other than three, or a port that is no integer), having done nothing
    but bind and register. The peer gets to this receive only if its
    registration was accepted by the socket layer; if not it ends before,
    having received nothing. *)
Theorem peer_awaits_one_datagram
  (peer_id : str) (d : datagram) (rx : list rx_event) :
  (forall n,
      Peer.await_introduction peer_id (repeat Silence n ++ Arrive d :: rx)
      = Peer.await_introduction peer_id (Arrive d :: rx))
  /\ (forall s other_id other_ip p other_port,
         decode (fst (recvfrom 1024 d)) = Some s ->
         split s = [other_id; other_ip; p] -> py_int p = Some other_port ->
         Peer.await_introduction peer_id (Arrive d :: rx)
         = ([EvPrint (peer_id ++ lit " learned " ++ other_id ++ lit " at "
                        ++ other_ip ++ lit ":" ++ str_of_int other_port)],
            Ok ((other_ip, other_port), rx)))
  /\ (forall t partner rest,
         Peer.await_introduction peer_id (Arrive d :: rx)
         = (t, Ok (partner, rest)) ->
         rest = rx /\
         exists s other_id p,
           decode (fst (recvfrom 1024 d)) = Some s /\
           split s = [other_id; fst partner; p] /\
           py_int p = Some (snd partner))
  /\ (decode (fst (recvfrom 1024 d)) = None ->
      Peer.await_introduction peer_id (Arrive d :: rx)
      = ([], Raise UnicodeDecodeError))
  /\ (forall s,
         decode (fst (recvfrom 1024 d)) = Some s ->
         List.length (split s) <> 3%nat
         \/ (exists p, nth_error (split s) 2 = Some p /\ py_int p = None) ->
         Peer.await_introduction peer_id (Arrive d :: rx)
         = ([], Raise ValueError))
  /\ (fst (recvfrom 1024 d) = firstn 1024 (payload d))
  /\ (forall argv server e,
         Peer.args argv = ret (peer_id, server) -> encodable peer_id ->
         accepted (utf8 peer_id) server ->
         Peer.await_introduction peer_id (Arrive d :: rx) = ([], Raise e) ->
         Peer.main argv (Arrive d :: rx)
         = ([EvBind ([], 0%Z); EvSendto (utf8 peer_id) server], Raise e))
  /\ (forall argv server,
         Peer.args argv = ret (peer_id, server) -> encodable peer_id ->
         ~ accepted (utf8 peer_id) server ->
         exists e,
           (e = TypeError \/ e = OverflowError \/ e = OSError) /\
           forall rx', Peer.main argv rx' = ([EvBind ([], 0%Z)], Raise e)).
Proof.
  split; [|split; [|split; [|split; [|split; [|split; [|split]]]]]].
  - intros n. apply await_silences.
  - intros s other_id other_ip p other_port Hd Hs Hp.
    rewrite await_arrive, Hd, Hs, Hp. reflexivity.
  - intros t partner rest. rewrite await_arrive.
    destruct (decode _) as [s|] eqn:Hd; [|discriminate].
    destruct (split s) as [|id [|ip [|p [|x l]]]] eqn:Hs; try discriminate.
    destruct (py_int p) as [n|] eqn:Hp; [|discriminate].
    intros [= <- <- <-]. split; [reflexivity|].
    exists s, id, p. repeat split; assumption.
  - intros Hd. rewrite await_arrive, Hd. reflexivity.
  - intros s Hd Hbad. rewrite await_arrive, Hd.
    destruct (split s) as [|id [|ip [|p [|x l]]]]; try reflexivity.
    destruct Hbad as [Hlen|[p' [Hn Hp]]]; [simpl in Hlen; lia|].
    injection Hn as <-. rewrite Hp. reflexivity.
  - reflexivity.
  - intros argv server e Hargs Hp Hs Hawait.
    rewrite (main_registered argv peer_id server _ Hargs Hp Hs). cbv zeta.
    rewrite Hawait. reflexivity.
  - intros argv server Hargs Hp Hs.
    destruct (register_refused _ _ Hp Hs) as (e & Hreg & He).
    exists e. split; [exact He|]. intros rx'.
    unfold Peer.main. rewrite Hargs, bind_ret, Hreg. reflexivity.
Qed.

(** C2, amended. A datagram the first 1024 bytes of whose payload (what
    [recvfrom(1024)] returns: all of a payload no longer than that) are not
    valid UTF-8 ends the role that receives it with an uncaught
    [UnicodeDecodeError]: the server in its loop, the peer while awaiting
    the introduction and while listening (where only the timeout is
    caught). When these bytes are valid UTF-8 the datagram never ends the
    server's loop: the server registers it and goes on with the next event.
    In the peer's listening loop it is recorded, and the loop goes on with
    the next event unless the text starts with [ping] and the socket layer
    refuses the ack, which ends the loop with [OSError]. *)
Theorem undecodable_datagram_ends_role (d : datagram) (rx : list rx_event) :
  (decode (fst (recvfrom 1024 d)) = None ->
   (forall peers,
       (List.length peers < 2)%nat ->
       Server.loop peers (Arrive d :: rx) = ([], Raise UnicodeDecodeError))
   /\ Server.main (Arrive d :: rx)
      = ([EvBind (lit "0.0.0.0", Server.PORT)], Raise UnicodeDecodeError)
   /\ (forall peer_id,
          Peer.await_introduction peer_id (Arrive d :: rx)
          = ([], Raise UnicodeDecodeError))
   /\ (forall peer_id,
          Peer.listen_loop peer_id (Arrive d :: rx)
          = ([], Raise UnicodeDecodeError))
   /\ (forall peer_id,
          Peer.listen peer_id (Arrive d :: rx)
          = ([EvSetTimeout 5000], Raise UnicodeDecodeError)))
  /\ (fst (recvfrom 1024 d) = firstn 1024 (payload d)
      /\ ((List.length (payload d) <= 1024)%nat ->
          fst (recvfrom 1024 d) = payload d))
  /\ (forall s,
         decode (fst (recvfrom 1024 d)) = Some s ->
         (forall peers,
             (List.length peers < 2)%nat ->
             Server.loop peers (Arrive d :: rx)
             = (got_line (strip s) (source d)
                  :: trace (Server.loop (dict_set peers (strip s) (source d))
                                        rx),
                result (Server.loop (dict_set peers (strip s) (source d))
                                    rx)))
         /\ (forall peer_id,
                encodable peer_id ->
                (startswith s (lit "ping") = true ->
                 accepted (ack peer_id) (endpoint_of (source d))) ->
                Peer.listen_loop peer_id (Arrive d :: rx)
                = (reaction peer_id s (source d)
                     ++ trace (Peer.listen_loop peer_id rx),
                   result (Peer.listen_loop peer_id rx)))
         /\ (forall peer_id,
                encodable peer_id ->
                startswith s (lit "ping") = true ->
                ~ accepted (ack peer_id) (endpoint_of (source d)) ->
                Peer.listen_loop peer_id (Arrive d :: rx)
                = ([got_record peer_id s (source d)], Raise OSError))).
Proof.
  split; [|split].
  - intros Hd.
    assert (Hreg : registration d = None).
    { unfold registration. rewrite Hd. reflexivity. }
    assert (Hloop : forall peer_id,
               Peer.listen_loop peer_id (Arrive d :: rx)
               = ([], Raise UnicodeDecodeError)).
    { intros peer_id.
      rewrite listen_loop_arrive, (listen_body_undecodable _ _ _ Hd).
      reflexivity. }
    split; [|split; [|split; [|split]]].
    + intros peers Hlt. rewrite loop_arrive by assumption.
      rewrite Hreg. reflexivity.
    + rewrite main_unfold. cbv zeta.
      rewrite loop_arrive by (simpl; lia). rewrite Hreg. reflexivity.
    + intros peer_id. rewrite await_arrive, Hd. reflexivity.
    + exact Hloop.
    + intros peer_id. rewrite listen_unfold. cbv zeta. rewrite Hloop.
      reflexivity.
  - split; [reflexivity|]. intros Hlen.
    destruct d as [data src]. rewrite (recvfrom_short data src Hlen).
    reflexivity.
  - intros s Hd. split; [|split].
    + intros peers Hlt. rewrite loop_arrive by assumption.
      unfold registration. rewrite Hd. reflexivity.
    + intros peer_id Hp Ha.
      rewrite listen_loop_arrive, (listen_body_decoded _ _ _ s Hp Hd Ha).
      rewrite bind_ok. reflexivity.
    + intros peer_id Hp Hs Ha.
      rewrite listen_loop_arrive, (listen_body_refused _ _ _ s Hp Hd Hs Ha).
      reflexivity.
Qed.

(** ** Further properties *)

Lemma scan_digits_all (s : list N) :
  Forall (fun c => c_isdigit c = true) s ->
  forall acc k,
    exists n,
      scan_digits acc k false s = Some (n, k + N.of_nat (List.length s), []).
Proof.
  induction 1 as [|c s Hc _ IH]; intros acc k.
  - exists acc. cbn. rewrite N.add_0_r. reflexivity.
  - rewrite scan_digit by exact Hc.
    destruct (IH (10 * acc + (c - 48)) (k + 1)) as [n Hn].
    exists n. rewrite Hn. cbn [List.length]. do 2 f_equal. f_equal. lia.
Qed.

(** [int] rejects a string of more than 4300 digits. *)
Lemma py_int_too_long (s : str) :
  Forall (fun c => c_isdigit c = true) s -> (4300 < List.length s)%nat ->
  py_int s = None.
Proof.
  intros Hs Hlen. unfold py_int. rewrite (ascii_of_str_digits s Hs).
  destruct s as [|c s]; [reflexivity|].
  inversion Hs as [|? ? Hc _]; subst.
  pose proof (c_isdigit_range c Hc) as Hr.
  assert (Hsp : c_isspace c = false).
  { unfold c_isspace. apply orb_false_iff. split.
    - apply N.eqb_neq. lia.
    - apply andb_false_iff. right. apply N.leb_gt. lia. }
  unfold parse_int. cbn [skip_spaces]. rewrite Hsp.
  replace (c =? 43) with false by (symmetry; apply N.eqb_neq; lia).
  replace (c =? 45) with false by (symmetry; apply N.eqb_neq; lia).
  rewrite Hc. destruct (scan_digits_all (c :: s) Hs 0 0) as [n ->].
  destruct (max_str_digits <? _) eqn:E; [reflexivity|].
  apply N.ltb_ge in E. unfold max_str_digits in E.
  unfold str, codepoint in *. lia.
Qed.

(** X1. The strict UTF-8 codec of both programs: what [str.encode()]
    produces is exactly what [bytes.decode()] accepts, [s] encodes to
    [data] if and only if [data] decodes to [s]; so decoding inverts
    encoding and no two byte strings decode to the same text. *)
Theorem utf8_round_trip (s : str) (data : bytes) :
  encode s = Some data <-> decode data = Some s.
Proof.
  split.
  - intros H. apply encode_Some_encodable in H. destruct H as [Hs ->].
    apply decode_utf8, Hs.
  - intros H. rewrite <- (decode_canonical data s H).
    apply encode_encodable, (decode_encodable data s H).
Qed.

(** X2. [int(str(z)) == z] for every integer [z] of at most 4300 decimal
    digits, the interpreter's limit for both conversions; the port of an
    observed address, a 16-bit number, is such an integer, so the port the
    server writes with an f-string is the port the peer reads with [int];
    a string of more than 4300 digits is rejected by [int]. *)
Theorem int_of_str_round_trip :
  (forall z,
      (List.length (str_of_int (Z.abs z)) <= 4300)%nat ->
      py_int (str_of_int z) = Some z)
  /\ (forall a, py_int (str_of_int (port a)) = Some (port a))
  /\ (forall s,
         Forall (fun c => c_isdigit c = true) s ->
         (4300 < List.length s)%nat -> py_int s = None).
Proof.
  split; [exact py_int_str_of_int|]. split; [exact py_int_port|].
  exact py_int_too_long.
Qed.

(** X3. The peer's decoding inverts the server's formatting of an
    introduction exactly when the id is a single whitespace-free field: it
    then returns the id, the dotted-quad host and the port; for an id that
    does not split into exactly one field (the empty id, or one with
    whitespace inside) it raises [ValueError]. *)
Theorem introduction_round_trip (id : str) (a : sockaddr) :
  encodable id ->
  (token id ->
   exists data,
     encode (id ++ lit " " ++ host a ++ lit " " ++ str_of_int (port a))
     = Some data /\
     Peer.decodeIntroduction data = ret (id, host a, port a))
  /\ (List.length (split id) <> 1%nat ->
      exists data,
        encode (id ++ lit " " ++ host a ++ lit " " ++ str_of_int (port a))
        = Some data /\
        Peer.decodeIntroduction data = raise ValueError).
Proof.
  intros Hid.
  assert (He : encode (Server.introduction id a)
               = Some (utf8 (Server.introduction id a))).
  { apply encode_encodable, encodable_introduction, Hid. }
  split.
  - intros Ht. exists (utf8 (Server.introduction id a)).
    split; [exact He|].
    rewrite (decodeIntroduction_introduction id a Hid), (split_token id Ht).
    reflexivity.
  - intros Hlen. exists (utf8 (Server.introduction id a)).
    split; [exact He|].
    rewrite (decodeIntroduction_introduction id a Hid).
    destruct (split id) as [|t [|u l]]; try reflexivity.
    simpl in Hlen. congruence.
Qed.

(** X4. A peer whose registration was accepted and whose first datagram is
    the server's introduction of a whitespace-free id registered from
    address [a] logs that id and, when the socket layer accepts its ping
    for that address, sends its three pings to exactly [(host a, port a)],
    the address the server observed; then it listens. (The introduction
    must fit the 1024 bytes of [recvfrom].) *)
Theorem peer_punches_observed_address
  (argv : list str) (peer_id : str) (server : endpoint) (id : str)
  (a src : sockaddr) (rx : list rx_event) :
  Peer.args argv = ret (peer_id, server) -> encodable peer_id ->
  encodable id -> token id ->
  (List.length (utf8 (Server.introduction id a)) <= 1024)%nat ->
  accepted (utf8 peer_id) server ->
  accepted (ping peer_id) (host a, port a) ->
  Peer.main argv (Arrive (Datagram (utf8 (Server.introduction id a)) src) :: rx)
  = ([EvBind ([], 0%Z); EvSendto (utf8 peer_id) server;
      EvPrint (peer_id ++ lit " learned " ++ id ++ lit " at " ++ host a
                 ++ lit ":" ++ str_of_int (port a));
      EvSendto (ping peer_id) (host a, port a); EvSleep 500;
      EvSendto (ping peer_id) (host a, port a); EvSleep 500;
      EvSendto (ping peer_id) (host a, port a); EvSleep 500]
       ++ trace (Peer.listen peer_id rx),
     result (Peer.listen peer_id rx)).
Proof.
  intros Hargs Hp Hid Ht Hlen Hs Ha.
  rewrite (main_reaches_listen argv peer_id server _ rx id (host a) (port a)
             Hargs Hp Hs).
  - reflexivity.
  - rewrite (recvfrom_short _ src Hlen). cbn [fst].
    rewrite (decodeIntroduction_introduction id a Hid), (split_token id Ht).
    reflexivity.
  - exact Ha.
Qed.

(** X5. The server introduces ids it never validated, but the partner cannot
    read every one of them: when the introduced id does not split into
    exactly one field (it is empty, as after a whitespace-only
    registration, or has whitespace inside), the peer that receives the
    introduction, its registration having been accepted, ends with
    [ValueError] right after registering and sends no ping. *)
Theorem peer_fails_on_unsplittable_id
  (argv : list str) (peer_id : str) (server : endpoint) (id : str)
  (a src : sockaddr) (rx : list rx_event) :
  Peer.args argv = ret (peer_id, server) -> encodable peer_id ->
  encodable id -> List.length (split id) <> 1%nat ->
  (List.length (utf8 (Server.introduction id a)) <= 1024)%nat ->
  accepted (utf8 peer_id) server ->
  Peer.main argv (Arrive (Datagram (utf8 (Server.introduction id a)) src) :: rx)
  = ([EvBind ([], 0%Z); EvSendto (utf8 peer_id) server], Raise ValueError).
Proof.
  intros Hargs Hp Hid Hsplit Hlen Hs.
  apply (main_on_introduction argv peer_id server _ rx ValueError Hargs Hp Hs).
  rewrite (recvfrom_short _ src Hlen). cbn [fst].
  rewrite (decodeIntroduction_introduction id a Hid).
  destruct (split id) as [|t [|u l]]; try reflexivity.
  simpl in Hsplit. congruence.
Qed.

(** X6. The registration a peer hands to [sendto] is the UTF-8 encoding of
    its id: when the socket layer accepts it the peer has bound and sent
    it, otherwise the peer ends there with the exception of [sendto]. The
    server registers that datagram under the id stripped of surrounding
    whitespace: under the id itself when it is a whitespace-free token.
    (The encoded id must fit the 1024 bytes of [recvfrom].) *)
Theorem registration_round_trip
  (peer_id : str) (server : endpoint) (src : sockaddr) :
  encodable peer_id ->
  exists data,
    encode peer_id = Some data /\
    (accepted data server ->
     Peer.register peer_id server
     = ([EvBind ([], 0%Z); EvSendto data server], Ok tt)) /\
    (~ accepted data server ->
     exists e,
       Peer.register peer_id server = ([EvBind ([], 0%Z)], Raise e)
       /\ (e = TypeError \/ e = OverflowError \/ e = OSError)) /\
    ((List.length data <= 1024)%nat ->
     registration (Datagram data src) = Some (strip peer_id) /\
     (token peer_id -> registration (Datagram data src) = Some peer_id)).
Proof.
  intros Hp. exists (utf8 peer_id).
  split; [apply encode_encodable, Hp|].
  split; [apply register_accepted, Hp|].
  split; [apply register_refused, Hp|].
  intros Hlen. rewrite (registration_utf8 peer_id src Hp Hlen).
  split; [reflexivity|]. intros Ht. rewrite (strip_token _ Ht).
  reflexivity.
Qed.

(** X7. Ids that differ only in surrounding whitespace are one id to the
    server: a peer registering [s] and a peer registering [s] with
    whitespace around it are never introduced to each other; the server
    stays in its loop and sends nothing. *)
Theorem whitespace_variants_share_one_id
  (s w1 w2 : str) (a b : sockaddr) :
  encodable s -> whitespace_only w1 -> whitespace_only w2 ->
  (List.length (utf8 (w1 ++ s ++ w2)) <= 1024)%nat ->
  (List.length (utf8 s) <= 1024)%nat ->
  registration (Datagram (utf8 (w1 ++ s ++ w2)) b)
  = registration (Datagram (utf8 s) a)
  /\ result (Server.main [Arrive (Datagram (utf8 s) a);
                          Arrive (Datagram (utf8 (w1 ++ s ++ w2)) b)])
     = Block
  /\ sends (trace (Server.main [Arrive (Datagram (utf8 s) a);
                                Arrive (Datagram (utf8 (w1 ++ s ++ w2)) b)]))
     = [].
Proof.
  intros Hs H1 H2 Hlen' Hlen.
  assert (Henc : encodable (w1 ++ s ++ w2)).
  { repeat apply encodable_app; auto using whitespace_encodable. }
  assert (Ra : registration (Datagram (utf8 s) a) = Some (strip s))
    by (apply registration_utf8; assumption).
  assert (Rb : registration (Datagram (utf8 (w1 ++ s ++ w2)) b)
               = Some (strip s)).
  { rewrite (registration_utf8 _ b Henc Hlen'), strip_surrounded by assumption.
    reflexivity. }
  split; [congruence|].
  apply (main_same_id (strip s)). repeat constructor; assumption.
Qed.

(** X8. A peer id that UTF-8 cannot carry (a lone surrogate from the
    command line) stops the peer with [UnicodeEncodeError] after the bind:
    nothing is sent and nothing is received. *)
Theorem peer_rejects_unencodable_id
  (argv : list str) (peer_id : str) (server : endpoint)
  (rx : list rx_event) :
  Peer.args argv = ret (peer_id, server) -> ~ encodable peer_id ->
  Peer.main argv rx = ([EvBind ([], 0%Z)], Raise UnicodeEncodeError).
Proof.
  intros Hargs Hp. unfold Peer.main. rewrite Hargs, bind_ret.
  unfold Peer.register. rewrite (encode_None _ Hp). reflexivity.
Qed.

(** X9. The command line of the peer: with fewer than two arguments the
    peer ends with [IndexError] before any socket action; with two, the
    server port is 9999; a third argument is the port as [int] reads it,
    and when [int] rejects it (a string of more than 4300 digits included)
    the peer ends with [ValueError] before any socket action; further
    arguments are ignored. A port that [int] accepts but that lies outside
    0..65535 is found out only by the registration: the peer binds and ends
    with [OverflowError], nothing sent. *)
Theorem peer_command_line :
  (forall argv rx,
      (List.length argv < 3)%nat -> Peer.main argv rx = ([], Raise IndexError))
  /\ (forall script id ip,
         Peer.args [script; id; ip] = ret (id, (ip, 9999%Z)))
  /\ (forall script id ip p more n,
         py_int p = Some n ->
         Peer.args (script :: id :: ip :: p :: more) = ret (id, (ip, n)))
  /\ (forall script id ip p more rx,
         py_int p = None ->
         Peer.main (script :: id :: ip :: p :: more) rx
         = ([], Raise ValueError))
  /\ (forall script id ip p more rx,
         Forall (fun c => c_isdigit c = true) p ->
         (4300 < List.length p)%nat ->
         Peer.main (script :: id :: ip :: p :: more) rx
         = ([], Raise ValueError))
  /\ (forall script id ip p more n rx,
         py_int p = Some n -> (n < 0 \/ 65535 < n)%Z ->
         encodable id -> host_arg_ok ip = true -> resolves ip = true ->
         Peer.main (script :: id :: ip :: p :: more) rx
         = ([EvBind ([], 0%Z)], Raise OverflowError)).
Proof.
  assert (Hargs : forall script id ip p more n,
             py_int p = Some n ->
             Peer.args (script :: id :: ip :: p :: more) = ret (id, (ip, n))).
  { intros script id ip p more n Hp. unfold Peer.args, index.
    cbn [nth_error lift List.length Nat.ltb Nat.leb]. rewrite !bind_ret.
    rewrite Hp. reflexivity. }
  assert (Hbad : forall script id ip p more rx,
             py_int p = None ->
             Peer.main (script :: id :: ip :: p :: more) rx
             = ([], Raise ValueError)).
  { intros script id ip p more rx Hp. unfold Peer.main, Peer.args, index.
    cbn [nth_error lift List.length Nat.ltb Nat.leb]. rewrite !bind_ret.
    rewrite Hp. reflexivity. }
  split; [|split; [|split; [|split; [|split]]]].
  - intros [|s0 [|id [|ip l]]] rx H; try reflexivity. simpl in H. lia.
  - reflexivity.
  - exact Hargs.
  - exact Hbad.
  - intros script id ip p more rx Hd Hlen. apply Hbad.
    apply py_int_too_long; assumption.
  - intros script id ip p more n rx Hp Hrange Hid Hh Hr.
    unfold Peer.main. rewrite (Hargs script id ip p more n Hp), bind_ret.
    unfold Peer.register. rewrite (encode_encodable _ Hid).
    cbn [lift]. rewrite bind_ret.
    rewrite (sendto_out_of_range _ _ _ Hh Hr Hrange). reflexivity.
Qed.

(** X10. Before the introduction no timeout is set: a peer whose
    registration was accepted and that hears nothing stays blocked in
    [recvfrom], however long the silence, having only bound its socket and
    sent its registration. *)
Theorem peer_waits_without_timeout
  (argv : list str) (peer_id : str) (server : endpoint) (n : nat) :
  Peer.args argv = ret (peer_id, server) -> encodable peer_id ->
  accepted (utf8 peer_id) server ->
  Peer.main argv (repeat Silence n)
  = ([EvBind ([], 0%Z); EvSendto (utf8 peer_id) server], Block).
Proof.
  intros Hargs Hp Hs.
  rewrite (main_registered argv peer_id server _ Hargs Hp Hs). cbv zeta.
  replace (repeat Silence n) with (repeat Silence n ++ [])
    by apply app_nil_r.
  rewrite await_silences. reflexivity.
Qed.

(** X11. The exceptions the server can end with. One is the
    [UnicodeDecodeError] of bytes it received, raised in the loop: nothing
    was sent. The other is the [OSError] of a [sendto] after the loop: the
    first introduction was refused and nothing was sent, or the second was
    refused and only the first was sent. [ids[0]], [ids[1]], the two dict
    lookups and the two [encode()] calls after the loop never raise. *)
Theorem server_exceptions (rx : list rx_event) (e : exn) :
  result (Server.main rx) = Raise e ->
  (e = UnicodeDecodeError
   /\ (exists pre d post,
          rx = pre ++ Arrive d :: post
          /\ decode (fst (recvfrom 1024 d)) = None)
   /\ result (Server.loop [] rx) = Raise UnicodeDecodeError
   /\ sends (trace (Server.main rx)) = [])
  \/ (e = OSError
      /\ exists a sa b sb rest,
          a <> b /\
          result (Server.loop [] rx) = Ok ([(a, sa); (b, sb)], rest) /\
          ((~ accepted (utf8 (Server.introduction b sb)) (endpoint_of sa)
            /\ sends (trace (Server.main rx)) = [])
           \/ (accepted (utf8 (Server.introduction b sb)) (endpoint_of sa)
               /\ ~ accepted (utf8 (Server.introduction a sa))
                             (endpoint_of sb)
               /\ sends (trace (Server.main rx))
                  = [(utf8 (Server.introduction b sb), endpoint_of sa)]))).
Proof.
  intros H.
  destruct (main_cases rx)
    as [(logs & Hl & Ht & Hloop)
       |(a & sa & b & sb & logs & rest & Hne & Hl & Hloop & Hcases)].
  - left. destruct Hloop as [[_ Hr]|[Hloop Hr]];
      rewrite Hr in H; [discriminate|]. injection H as <-.
    split; [reflexivity|].
    destruct (loop_raise rx [] UnicodeDecodeError)
      as (_ & pre & d & post & Hrx & Hd).
    { rewrite Hloop. reflexivity. }
    split.
    { exists pre, d, post. split; [exact Hrx|].
      unfold registration in Hd. destruct (decode _); [discriminate|].
      reflexivity. }
    split; [rewrite Hloop; reflexivity|].
    rewrite Ht, <- (app_nil_r logs), (sends_run _ _ _ Hl). reflexivity.
  - right. destruct Hcases as [(H1 & Hm)|[(H1 & H2 & Hm)|(_ & _ & Hm)]];
      rewrite Hm in H |- *; cbn [trace result fst snd] in H |- *;
      try discriminate; injection H as <-; (split; [reflexivity|]);
      exists a, sa, b, sb, rest; (split; [exact Hne|]);
      (split; [rewrite Hloop; reflexivity|]).
    + left. split; [exact H1|].
      rewrite <- (app_nil_r logs), (sends_run _ _ _ Hl). reflexivity.
    + right. split; [exact H1|]. split; [exact H2|].
      rewrite (sends_run _ _ _ Hl). reflexivity.
Qed.


(** X13. Between two peers: the ping one peer sends is answered by the
    other with an ack to the ping's observed source, when the socket layer
    accepts that ack, and the ack one peer sends is only recorded by the
    other, never answered; so the exchange started by a ping ends after one
    ack. (The ping must fit the 1024 bytes of [recvfrom].) *)
Theorem ping_is_answered_ack_is_not
  (p q : str) (src : sockaddr) (rx : list rx_event) :
  encodable p -> encodable q -> (List.length (ping p) <= 1024)%nat ->
  (accepted (ack q) (host src, port src) ->
   Peer.listen_loop q (Arrive (Datagram (ping p) src) :: rx)
   = (EvPrint (q ++ lit " got " ++ [34] ++ (lit "ping from " ++ p) ++ [34]
                 ++ lit " from " ++ repr_addr src)
        :: EvSendto (ack q) (host src, port src)
        :: trace (Peer.listen_loop q rx),
      result (Peer.listen_loop q rx)))
  /\ Peer.listen_loop q (Arrive (Datagram (ack p) src) :: rx)
     = (EvPrint (q ++ lit " got " ++ [34] ++ (lit "ack from " ++ p) ++ [34]
                   ++ lit " from " ++ repr_addr src)
          :: trace (Peer.listen_loop q rx),
        result (Peer.listen_loop q rx)).
Proof.
  intros Hp Hq Hlen.
  assert (Hlen' : (List.length (ack p) <= 1024)%nat).
  { pose proof (length_ack_ping p). lia. }
  split.
  - intros Ha. rewrite listen_loop_arrive, (recvfrom_short _ src Hlen).
    cbn [fst source].
    rewrite (listen_body_decoded q _ src _ Hq (decode_ping p Hp)
               (fun _ => Ha)), bind_ok.
    reflexivity.
  - rewrite listen_loop_arrive, (recvfrom_short _ src Hlen').
    cbn [fst source].
    rewrite (listen_body_decoded q _ src _ Hq (decode_ack p Hp)), bind_ok;
      [reflexivity|].
    intros H. discriminate H.
Qed.

(** X14. What the test harness asserts of a peer's output. A peer whose
    registration and pings are accepted, that receives the server's
    introduction of a whitespace-free id [B], then datagrams it gets
    through (each decoded, each due ack accepted), among them an ack sent
    by [B], and then meets the timeout, exits normally, and its standard
    output contains [learned <B>] and [ack from <B>]. *)
Theorem peer_output_has_learned_and_ack
  (argv : list str) (A : str) (server : endpoint) (B : str)
  (b src from : sockaddr) (ds : list datagram) (post : list rx_event) :
  Peer.args argv = ret (A, server) -> encodable A ->
  encodable B -> token B ->
  (List.length (utf8 (Server.introduction B b)) <= 1024)%nat ->
  accepted (utf8 A) server -> accepted (ping A) (host b, port b) ->
  Forall (handled A) ds -> In (Datagram (ack B) from) ds ->
  (List.length (ack B) <= 1024)%nat ->
  let run :=
    Peer.main argv
      (Arrive (Datagram (utf8 (Server.introduction B b)) src)
         :: map Arrive ds ++ Silence :: post) in
  result run = Ok tt
  /\ occurs_in (lit "learned " ++ B) (stdout (trace run))
  /\ occurs_in (lit "ack from " ++ B) (stdout (trace run)).
Proof.
  intros Hargs HA HB Ht Hlen Hs Hping Hds Hin Hlen' run. subst run.
  rewrite (main_reaches_listen argv A server _ _ B (host b) (port b)
             Hargs HA Hs).
  2:{ rewrite (recvfrom_short _ src Hlen). cbn [fst].
      rewrite (decodeIntroduction_introduction B b HB), (split_token B Ht).
      reflexivity. }
  2:{ exact Hping. }
  rewrite (listen_on_timeout A ds post HA Hds). cbn [trace result fst snd].
  split; [reflexivity|]. split.
  - apply occurs_in_stdout
      with (line := A ++ lit " learned " ++ B ++ lit " at " ++ host b
                      ++ lit ":" ++ str_of_int (port b)).
    + right. right. left. reflexivity.
    + exists (A ++ lit " "),
             (lit " at " ++ host b ++ lit ":" ++ str_of_int (port b)).
      rewrite <- !app_assoc. reflexivity.
  - apply occurs_in_stdout
      with (line := A ++ lit " got " ++ [34] ++ (lit "ack from " ++ B)
                      ++ [34] ++ lit " from " ++ repr_addr from).
    + apply in_or_app. right. apply in_or_app. right. right.
      apply in_or_app. left.
      apply (reactions_in A ds (Datagram (ack B) from)
               (lit "ack from " ++ B) Hin).
      rewrite (recvfrom_short _ from Hlen'). apply decode_ack, HB.
    + exists (A ++ lit " got " ++ [34]),
             ([34] ++ lit " from " ++ repr_addr from).
      rewrite <- !app_assoc. reflexivity.
Qed.

(** X15. The handshake as a whole, when the socket layer accepts every
    datagram of it. Two peers with distinct whitespace-free ids register
    from addresses [a] and [b]; the server answers with one introduction to
    each address; each peer, on receiving the datagram addressed to it,
    sends its three pings to the other peer's observed address. (Both
    introductions must fit the 1024 bytes of [recvfrom].) *)
Theorem handshake_crosses_addresses
  (A B : str) (a b srv : sockaddr) (argvA argvB : list str)
  (serverA serverB : endpoint) (rxA rxB : list rx_event) :
  A <> B -> token A -> token B -> encodable A -> encodable B ->
  Peer.args argvA = ret (A, serverA) -> Peer.args argvB = ret (B, serverB) ->
  (List.length (utf8 (Server.introduction A a)) <= 1024)%nat ->
  (List.length (utf8 (Server.introduction B b)) <= 1024)%nat ->
  accepted (utf8 A) serverA -> accepted (utf8 B) serverB ->
  accepted (utf8 (Server.introduction B b)) (host a, port a) ->
  accepted (utf8 (Server.introduction A a)) (host b, port b) ->
  accepted (ping A) (host b, port b) -> accepted (ping B) (host a, port a) ->
  exists regA regB to_a to_b,
    Peer.register A serverA
    = ([EvBind ([], 0%Z); EvSendto regA serverA], Ok tt)
    /\ Peer.register B serverB
       = ([EvBind ([], 0%Z); EvSendto regB serverB], Ok tt)
    /\ sends (trace (Server.main [Arrive (Datagram regA a);
                                  Arrive (Datagram regB b)]))
       = [(to_a, (host a, port a)); (to_b, (host b, port b))]
    /\ firstn 4 (sends (trace (Peer.main argvA
                                 (Arrive (Datagram to_a srv) :: rxA))))
       = [(regA, serverA); (ping A, (host b, port b));
          (ping A, (host b, port b)); (ping A, (host b, port b))]
    /\ firstn 4 (sends (trace (Peer.main argvB
                                 (Arrive (Datagram to_b srv) :: rxB))))
       = [(regB, serverB); (ping B, (host a, port a));
          (ping B, (host a, port a)); (ping B, (host a, port a))].
Proof.
  intros Hne HtA HtB HA HB HargsA HargsB HlenA HlenB HsA HsB HiB HiA HpA HpB.
  pose proof (length_utf8_introduction A a) as HlA.
  pose proof (length_utf8_introduction B b) as HlB.
  assert (RA : registration (Datagram (utf8 A) a) = Some A).
  { rewrite registration_utf8 by (assumption || lia).
    rewrite (strip_token A HtA). reflexivity. }
  assert (RB : registration (Datagram (utf8 B) b) = Some B).
  { rewrite registration_utf8 by (assumption || lia).
    rewrite (strip_token B HtB). reflexivity. }
  exists (utf8 A), (utf8 B), (utf8 (Server.introduction B b)),
         (utf8 (Server.introduction A a)).
  split; [|split; [|split; [|split]]].
  - apply register_accepted; assumption.
  - apply register_accepted; assumption.
  - rewrite (main_pair A B _ _ [] Hne RA RB HiB HiA). reflexivity.
  - rewrite (main_reaches_listen argvA A serverA _ rxA B (host b) (port b)
               HargsA HA HsA).
    + reflexivity.
    + rewrite (recvfrom_short _ srv HlenB). cbn [fst].
      rewrite (decodeIntroduction_introduction B b HB), (split_token B HtB).
      reflexivity.
    + exact HpA.
  - rewrite (main_reaches_listen argvB B serverB _ rxB A (host a) (port a)
               HargsB HB HsB).
    + reflexivity.
    + rewrite (recvfrom_short _ srv HlenA). cbn [fst].
      rewrite (decodeIntroduction_introduction A a HA), (split_token A HtA).
      reflexivity.
    + exact HpB.
Qed.

(** X16. The [peers] dict: after [d[k] = v] the key reads [v] and every
    other key reads what it read before; a key already present keeps its
    place among the keys, a new key goes to the end; a lookup fails exactly
    for the keys that are absent. *)
Theorem dict_insert_lookup (d : dict) (k : str) (v : sockaddr) :
  dict_get (dict_set d k v) k = Some v
  /\ (forall k', k <> k' -> dict_get (dict_set d k v) k' = dict_get d k')
  /\ (In k (keys d) -> keys (dict_set d k v) = keys d)
  /\ (~ In k (keys d) -> keys (dict_set d k v) = keys d ++ [k])
  /\ (dict_get d k = None <-> ~ In k (keys d)).
Proof.
  split; [apply dict_get_set_same|].
  split; [intros k' Hne; apply dict_get_set_other, Hne|].
  split; [intros Hin; apply (dict_set_present d k v Hin)|].
  split; [|apply dict_get_None].
  intros Hin. rewrite (dict_set_absent d k v Hin). unfold keys.
  rewrite map_app. reflexivity.
Qed.

(** X17. [recvfrom(1024)] reads at most 1024 bytes of a datagram: whatever
    follows the first 1024 bytes of a payload changes nothing in the run of
    the server, nor in a peer awaiting its introduction or listening. *)
Theorem recvfrom_ignores_excess
  (data extra : bytes) (src : sockaddr) (rx : list rx_event) :
  List.length data = 1024%nat ->
  Server.main (Arrive (Datagram (data ++ extra) src) :: rx)
  = Server.main (Arrive (Datagram data src) :: rx)
  /\ (forall peer_id,
         Peer.await_introduction peer_id
           (Arrive (Datagram (data ++ extra) src) :: rx)
         = Peer.await_introduction peer_id (Arrive (Datagram data src) :: rx))
  /\ (forall peer_id,
         Peer.listen_loop peer_id (Arrive (Datagram (data ++ extra) src) :: rx)
         = Peer.listen_loop peer_id (Arrive (Datagram data src) :: rx)).
Proof.
  intros Hlen. pose proof (recvfrom_excess data extra src Hlen) as E.
  split; [|split].
  - rewrite !main_unfold. cbv zeta.
    rewrite !loop_arrive by (simpl; lia).
    unfold registration. rewrite E. reflexivity.
  - intros peer_id. rewrite !await_arrive, E. reflexivity.
  - intros peer_id. rewrite !listen_loop_arrive, E. reflexivity.
Qed.

(** X18. The standard output of a server that exits is one line
    [got <id> from <address>] for each datagram it read, in the order read,
    followed by the line [introduced <a> <b>]; events it did not read leave
    no line. *)
Theorem server_logs_each_datagram
  (rx rest : list rx_event) (t : list event) :
  Server.main rx = (t, Ok rest) ->
  exists consumed a b,
    rx = consumed ++ rest
    /\ Forall (fun d => registration d <> None) (arrived consumed)
    /\ stdout t
       = stdout (flat_map log_of (arrived consumed))
         ++ lit "introduced " ++ a ++ lit " " ++ b ++ [10]
    /\ List.length (flat_map log_of (arrived consumed))
       = List.length (arrived consumed).
Proof.
  intros H. rewrite main_unfold in H. cbv zeta in H.
  destruct (Server.loop [] rx) as [logs [[p rest']|e|]] eqn:Hloop;
    cbn [result snd trace fst] in H; try discriminate.
  destruct (loop_exit rx [] logs p rest' registry_ok_nil Hloop)
    as (Hp & Hlen & _).
  destruct (registry_two p Hp Hlen) as (a & sa & b & sb & -> & Hne & Ha & Hb).
  destruct (result (Server.introduce [(a, sa); (b, sb)])) as [[]|e|] eqn:Hres;
    try discriminate.
  destruct (introduce_ok a b sa sb Hne Ha Hb Hres) as [H1 H2].
  rewrite (introduce_pair a b sa sb Hne Ha Hb H1 H2) in H.
  cbn [result snd trace fst] in H. injection H as <- <-.
  destruct (loop_logs rx [] logs _ rest' Hloop)
    as (consumed & Hrx & Hlogs & Hf & Hl).
  exists consumed, a, b. split; [exact Hrx|]. split; [exact Hf|].
  split; [|exact Hl].
  change (EvBind ?e :: ?l) with ([EvBind e] ++ l).
  rewrite !stdout_app, Hlogs. cbn [stdout flat_map introduction_round app].
  rewrite app_nil_r, <- !app_assoc. reflexivity.
Qed.

End Properties.

(* ------------------------------------------------------------------ *)
(** * Concrete runs *)

(** The runs below take place in the environment [loopback]. *)
#[local] Existing Instance loopback.

(** Acceptance by [loopback], and datagrams the listening loop gets
    through there, by evaluation. *)
Ltac accept :=
  repeat split;
  first [ vm_compute; reflexivity | vm_compute; discriminate ].

Ltac gone_through :=
  repeat (apply Forall_cons;
          [split;
           [vm_compute; discriminate
           |first [ intros _; accept
                  | let H := fresh in
                    intros H; vm_compute in H; discriminate H ]]|]);
  apply Forall_nil.

(** ** The claims *)

(** C1 as stated fails: two distinct ids register, the second from source
    port 0, a port no datagram can be sent to. The first peer gets its
    introduction, the [sendto] of the second raises [OSError]: the second
    peer gets none and the server ends with the exception. When it is the
    first id that registered from port 0, nothing at all is sent. *)
Lemma introduction_is_lost_when_send_fails :
  registration (dgram "peer1" 40001) = Some (lit "peer1")
  /\ registration (dgram "peer2" 0) = Some (lit "peer2")
  /\ Server.main [Arrive (dgram "peer1" 40001); Arrive (dgram "peer2" 0)]
     = ([EvBind (lit "0.0.0.0", 9999%Z);
         got_line (lit "peer1") (SockAddr localhost 40001);
         got_line (lit "peer2") (SockAddr localhost 0);
         EvSendto (list_byte_of_string "peer2 127.0.0.1 0")
                  (lit "127.0.0.1", 40001%Z)],
        Raise OSError)
  /\ Server.main [Arrive (dgram "peer2" 0); Arrive (dgram "peer1" 40001)]
     = ([EvBind (lit "0.0.0.0", 9999%Z);
         got_line (lit "peer2") (SockAddr localhost 0);
         got_line (lit "peer1") (SockAddr localhost 40001)],
        Raise OSError).
Proof. repeat split; vm_compute; reflexivity. Qed.

Lemma server_introduces_first_two_ids_witness :
  let run :=
    Server.main ([Arrive (dgram "peer1" 40001)]
                 ++ Arrive (dgram " peer1 " 40003) :: repeat Silence 1
                 ++ Arrive (dgram "peer2" 40002)
                 :: [Arrive (dgram "peer3" 40004)]) in
  result run = Ok [Arrive (dgram "peer3" 40004)] /\
  sends (trace run) =
    [(list_byte_of_string "peer2 127.0.0.1 40002",
      (lit "127.0.0.1", 40003%Z));
     (list_byte_of_string "peer1 127.0.0.1 40003",
      (lit "127.0.0.1", 40002%Z))].
Proof.
  destruct (server_introduces_first_two_ids (lit "peer1") (lit "peer2")
              [Arrive (dgram "peer1" 40001)] (dgram " peer1 " 40003)
              (dgram "peer2" 40002) 1 [Arrive (dgram "peer3" 40004)])
    as (to_a & to_b & Ea & Eb & Hok & _).
  - discriminate.
  - repeat constructor.
  - reflexivity.
  - reflexivity.
  - vm_compute in Ea, Eb. injection Ea as <-. injection Eb as <-.
    apply Hok; accept.
Defined.

(** C2 as stated fails: a payload that is not UTF-8 is not discarded. The
    server below ends with [UnicodeDecodeError] although two registrations
    follow, and so does a listening peer although silence follows. *)
Lemma undecodable_datagram_stops_the_role :
  decode [xff] = None
  /\ Server.main [Arrive (Datagram [xff] (SockAddr localhost 40000));
                  Arrive (dgram "peer1" 40001); Arrive (dgram "peer2" 40002)]
     = ([EvBind (lit "0.0.0.0", 9999%Z)], Raise UnicodeDecodeError)
  /\ Peer.listen (lit "peer1")
       [Arrive (Datagram [xff] (SockAddr localhost 40000)); Silence]
     = ([EvSetTimeout 5000], Raise UnicodeDecodeError).
Proof. repeat split; vm_compute; reflexivity. Qed.

Lemma undecodable_datagram_ends_role_witness :
  Server.main (Arrive (Datagram [xc3; x28] (SockAddr localhost 40000))
                 :: [Arrive (dgram "peer1" 40001)])
  = ([EvBind (lit "0.0.0.0", Server.PORT)], Raise UnicodeDecodeError)
  /\ Peer.listen_loop (lit "peer1") (Arrive (dgram "noise" 40002) :: [Silence])
     = (reaction (lit "peer1") (lit "noise") (source (dgram "noise" 40002))
          ++ trace (Peer.listen_loop (lit "peer1") [Silence]),
        result (Peer.listen_loop (lit "peer1") [Silence]))
  /\ Peer.listen_loop (lit "peer1")
       (Arrive (dgram "ping from peer2" 0) :: [Silence])
     = ([got_record (lit "peer1") (lit "ping from peer2")
                    (source (dgram "ping from peer2" 0))],
        Raise OSError).
Proof.
  split; [|split].
  - apply (undecodable_datagram_ends_role
             (Datagram [xc3; x28] (SockAddr localhost 40000))
             [Arrive (dgram "peer1" 40001)]).
    reflexivity.
  - apply (undecodable_datagram_ends_role (dgram "noise" 40002) [Silence])
      with (s := lit "noise").
    + reflexivity.
    + repeat constructor.
    + intros H. discriminate H.
  - apply (undecodable_datagram_ends_role (dgram "ping from peer2" 0)
             [Silence]) with (s := lit "ping from peer2").
    + reflexivity.
    + repeat constructor.
    + reflexivity.
    + intros (_ & _ & _ & H). vm_compute in H. discriminate H.
Defined.

(** C3 as stated fails: a datagram that is not an introduction is not
    ignored. The peer below receives [hello] and then a well-formed
    introduction; it ends with [ValueError] on the first and never reads the
    second. *)
Lemma peer_stops_on_unexpected_datagram :
  Peer.main (map lit ["peer.py"; "peer1"; "127.0.0.1"])
    [Arrive (dgram "hello" 9999);
     Arrive (dgram "peer2 127.0.0.1 40002" 9999); Silence]
  = ([EvBind ([], 0%Z);
      EvSendto (list_byte_of_string "peer1") (lit "127.0.0.1", 9999%Z)],
     Raise ValueError).
Proof. vm_compute. reflexivity. Qed.

Lemma peer_awaits_one_datagram_witness :
  Peer.await_introduction (lit "peer1")
    (Arrive (dgram "peer2 127.0.0.1 40002" 9999) :: [Silence])
  = ([EvPrint (lit "peer1" ++ lit " learned " ++ lit "peer2" ++ lit " at "
                 ++ lit "127.0.0.1" ++ lit ":" ++ str_of_int 40002)],
     Ok ((lit "127.0.0.1", 40002%Z), [Silence]))
  /\ Peer.await_introduction (lit "peer1")
       (Arrive (dgram "peer2 127.0.0.1 port" 9999) :: [Silence])
     = ([], Raise ValueError)
  /\ Peer.main (map lit ["peer.py"; "peer1"; "127.0.0.1"])
       (Arrive (dgram "peer2 127.0.0.1 port" 9999) :: [Silence])
     = ([EvBind ([], 0%Z);
         EvSendto (utf8 (lit "peer1")) (lit "127.0.0.1", Peer.PORT)],
        Raise ValueError)
  /\ exists e,
      (e = TypeError \/ e = OverflowError \/ e = OSError) /\
      forall rx',
        Peer.main (map lit ["peer.py"; "peer1"; "127.0.0.1"; "-1"]) rx'
        = ([EvBind ([], 0%Z)], Raise e).
Proof.
  split; [|split; [|split]].
  - apply (peer_awaits_one_datagram (lit "peer1")
             (dgram "peer2 127.0.0.1 40002" 9999) [Silence])
      with (s := lit "peer2 127.0.0.1 40002") (other_id := lit "peer2")
           (p := lit "40002"); reflexivity.
  - apply (peer_awaits_one_datagram (lit "peer1")
             (dgram "peer2 127.0.0.1 port" 9999) [Silence])
      with (s := lit "peer2 127.0.0.1 port"); [reflexivity|].
    right. exists (lit "port"). split; reflexivity.
  - apply (peer_awaits_one_datagram (lit "peer1")
             (dgram "peer2 127.0.0.1 port" 9999) [Silence]).
    + reflexivity.
    + repeat constructor.
    + accept.
    + reflexivity.
  - apply (peer_awaits_one_datagram (lit "peer1")
             (dgram "peer2 127.0.0.1 40002" 9999) [Silence])
      with (server := (lit "127.0.0.1", (-1)%Z)).
    + reflexivity.
    + repeat constructor.
    + intros (_ & _ & H & _). cbn [snd] in H. lia.
Defined.

Lemma server_registry_invariant_witness :
  (Server.loop_body [(lit "peer1", SockAddr localhost 40001)]
     (fst (recvfrom 1024 (dgram "peer1" 40003)))
     (source (dgram "peer1" 40003))
   = ([got_line (lit "peer1") (SockAddr localhost 40003)],
      Ok (dict_set [(lit "peer1", SockAddr localhost 40001)] (lit "peer1")
                   (SockAddr localhost 40003)))
   /\ registry_ok (dict_set [(lit "peer1", SockAddr localhost 40001)]
                            (lit "peer1") (SockAddr localhost 40003)))
  /\ result (Server.loop [] ([Arrive (dgram "peer1" 40001)]
                             ++ Arrive (dgram "peer1" 40003)
                             :: repeat Silence 2
                             ++ Arrive (dgram "peer2" 40002) :: [Silence]))
     = Ok ([(lit "peer1", SockAddr localhost 40003);
            (lit "peer2", SockAddr localhost 40002)], [Silence])
  /\ (keys (dict_set [(lit "peer1", SockAddr localhost 40001)] (lit "peer1")
                     (SockAddr localhost 40003))
      = [lit "peer1"]
      /\ List.length (dict_set [(lit "peer1", SockAddr localhost 40001)]
                               (lit "peer1") (SockAddr localhost 40003))
         = 1%nat
      /\ dict_get (dict_set [(lit "peer1", SockAddr localhost 40001)]
                            (lit "peer1") (SockAddr localhost 40003))
                  (lit "peer1")
         = Some (SockAddr localhost 40003))
  /\ (result (Server.loop [] [Arrive (dgram "peer1" 40001); Silence;
                              Arrive (dgram "peer1" 40003)]) = Block
      /\ result (Server.main [Arrive (dgram "peer1" 40001); Silence;
                              Arrive (dgram "peer1" 40003)]) = Block
      /\ sends (trace (Server.main [Arrive (dgram "peer1" 40001); Silence;
                                    Arrive (dgram "peer1" 40003)])) = []).
Proof.
  destruct server_registry_invariant
    as (Hbody & _ & _ & _ & Hrun & _ & Hset & Hsame).
  split; [|split; [|split]].
  - apply (Hbody [(lit "peer1", SockAddr localhost 40001)]
                 (dgram "peer1" 40003) (lit "peer1")).
    + repeat split; simpl; [repeat constructor; simpl; tauto | | lia].
      repeat constructor.
    + simpl; lia.
    + reflexivity.
  - apply (Hrun (lit "peer1") (lit "peer2") [Arrive (dgram "peer1" 40001)]
                (dgram "peer1" 40003) 2%nat (dgram "peer2" 40002) [Silence]).
    + discriminate.
    + repeat constructor.
    + reflexivity.
    + reflexivity.
  - apply (Hset [(lit "peer1", SockAddr localhost 40001)] (lit "peer1")
                (SockAddr localhost 40003)).
    simpl. left. reflexivity.
  - apply (Hsame (lit "peer1")). repeat constructor.
Defined.

Lemma server_single_introduction_witness :
  exists a sa b sb logs consumed,
    a <> b /\ Forall is_print logs /\
    EvBind (lit "0.0.0.0", Server.PORT)
      :: [got_line (lit "peer1") (source (dgram "peer1" 40001));
          got_line (lit "peer2") (source (dgram "peer2" 40002))]
      ++ introduction_round (lit "peer1") (source (dgram "peer1" 40001))
                            (lit "peer2") (source (dgram "peer2" 40002))
    = EvBind (lit "0.0.0.0", Server.PORT) :: logs
        ++ [EvSendto (utf8 (Server.introduction b sb)) (endpoint_of sa);
            EvSendto (utf8 (Server.introduction a sa)) (endpoint_of sb);
            EvPrint (lit "introduced " ++ a ++ lit " " ++ b);
            EvClose] /\
    List.length
      (sends
         (EvBind (lit "0.0.0.0", Server.PORT)
            :: [got_line (lit "peer1") (source (dgram "peer1" 40001));
                got_line (lit "peer2") (source (dgram "peer2" 40002))]
            ++ introduction_round (lit "peer1") (source (dgram "peer1" 40001))
                                  (lit "peer2") (source (dgram "peer2" 40002))))
    = 2%nat /\
    [Arrive (dgram "peer1" 40001); Arrive (dgram "peer2" 40002);
     Arrive (dgram "peer3" 40003)]
    = consumed ++ [Arrive (dgram "peer3" 40003)] /\
    (forall post,
        Server.main (consumed ++ post)
        = (EvBind (lit "0.0.0.0", Server.PORT)
             :: [got_line (lit "peer1") (source (dgram "peer1" 40001));
                 got_line (lit "peer2") (source (dgram "peer2" 40002))]
             ++ introduction_round
                  (lit "peer1") (source (dgram "peer1" 40001))
                  (lit "peer2") (source (dgram "peer2" 40002)),
           Ok post)) /\
    (forall d3 post,
        Server.main (consumed ++ Arrive d3 :: post)
        = (EvBind (lit "0.0.0.0", Server.PORT)
             :: [got_line (lit "peer1") (source (dgram "peer1" 40001));
                 got_line (lit "peer2") (source (dgram "peer2" 40002))]
             ++ introduction_round
                  (lit "peer1") (source (dgram "peer1" 40001))
                  (lit "peer2") (source (dgram "peer2" 40002)),
           Ok (Arrive d3 :: post))).
Proof.
  apply (server_single_introduction
           [Arrive (dgram "peer1" 40001); Arrive (dgram "peer2" 40002);
            Arrive (dgram "peer3" 40003)]
           [Arrive (dgram "peer3" 40003)]).
  apply (main_pair (lit "peer1") (lit "peer2")).
  - discriminate.
  - reflexivity.
  - reflexivity.
  - accept.
  - accept.
Defined.

(** C6 as stated fails: the reply follows a prefix test, not the kind of a
    decoded punch message. A message whose leading token is [pingpong] is
    acknowledged; a punch message of kind [ping] that starts with a space is
    not; a payload that is not UTF-8 leaves no record at all. *)
Lemma listening_ack_follows_prefix_not_kind :
  spec_decodePunch (list_byte_of_string "pingpong from peer2")
  = Some (lit "pingpong", lit "peer2")
  /\ Peer.listen_body (lit "peer1")
       (fst (recvfrom 1024 (dgram "pingpong from peer2" 40002)))
       (source (dgram "pingpong from peer2" 40002))
     = ([got_record (lit "peer1") (lit "pingpong from peer2")
                    (SockAddr localhost 40002);
         EvSendto (list_byte_of_string "ack from peer1")
                  (lit "127.0.0.1", 40002%Z)], Ok tt)
  /\ spec_decodePunch (list_byte_of_string " ping from peer2")
     = Some (lit "ping", lit "peer2")
  /\ Peer.listen_body (lit "peer1")
       (fst (recvfrom 1024 (dgram " ping from peer2" 40002)))
       (source (dgram " ping from peer2" 40002))
     = ([got_record (lit "peer1") (lit " ping from peer2")
                    (SockAddr localhost 40002)], Ok tt)
  /\ Peer.listen_body (lit "peer1")
       (fst (recvfrom 1024 (Datagram [xff] (SockAddr localhost 40002))))
       (SockAddr localhost 40002)
     = ([], Raise UnicodeDecodeError).
Proof. repeat split; vm_compute; reflexivity. Qed.

Lemma peer_listening_reaction_witness :
  Peer.listen_loop (lit "peer1")
    (Arrive (dgram "pingpong" 40002) :: [Silence])
  = (EvPrint (lit "peer1" ++ lit " got " ++ [34] ++ lit "pingpong" ++ [34]
                ++ lit " from " ++ repr_addr (source (dgram "pingpong" 40002)))
       :: EvSendto (list_byte_of_string "ack from peer1")
                   (host (source (dgram "pingpong" 40002)),
                    port (source (dgram "pingpong" 40002)))
       :: trace (Peer.listen_loop (lit "peer1") [Silence]),
     result (Peer.listen_loop (lit "peer1") [Silence]))
  /\ Peer.listen_loop (lit "peer1")
       (Arrive (dgram "ping from peer2" 0) :: [Silence])
     = ([EvPrint (lit "peer1" ++ lit " got " ++ [34] ++ lit "ping from peer2"
                    ++ [34] ++ lit " from "
                    ++ repr_addr (source (dgram "ping from peer2" 0)))],
        Raise OSError).
Proof.
  split.
  - destruct (peer_listening_reaction (lit "peer1") (dgram "pingpong" 40002)
                [Silence] (lit "pingpong"))
      as (reply & Er & _ & Hping & _).
    + repeat constructor.
    + reflexivity.
    + vm_compute in Er. injection Er as <-.
      apply Hping; [reflexivity | accept].
  - destruct (peer_listening_reaction (lit "peer1")
                (dgram "ping from peer2" 0) [Silence]
                (lit "ping from peer2"))
      as (reply & Er & _ & _ & Hrefused & _).
    + repeat constructor.
    + reflexivity.
    + vm_compute in Er. injection Er as <-.
      apply Hrefused; [reflexivity|].
      intros (_ & _ & _ & H). vm_compute in H. discriminate H.
Defined.





(** C9 as stated fails: a datagram that is UTF-8-decodable is not always
    accepted as a registration. The payload below, 1023 letters followed by
    the two bytes of one character, decodes; [recvfrom(1024)] cuts it
    inside that character and the server ends with [UnicodeDecodeError],
    registering nothing. *)
Lemma decodable_datagram_can_be_refused :
  decode (repeat x61 1023 ++ [xc3; xa9]) = Some (repeat 97 1023 ++ [233])
  /\ registration (Datagram (repeat x61 1023 ++ [xc3; xa9])
                            (SockAddr localhost 40001)) = None
  /\ Server.main [Arrive (Datagram (repeat x61 1023 ++ [xc3; xa9])
                                   (SockAddr localhost 40001));
                  Arrive (dgram "peer2" 40002)]
     = ([EvBind (lit "0.0.0.0", 9999%Z)], Raise UnicodeDecodeError).
Proof. repeat split; vm_compute; reflexivity. Qed.

Lemma server_accepts_any_decodable_id_witness :
  registration (dgram "  " 40001) = Some []
  /\ Server.main (Arrive (dgram "  " 40001) :: Arrive (dgram "peer2" 40002)
                    :: [])
     = ([EvBind (lit "0.0.0.0", Server.PORT);
         got_line [] (source (dgram "  " 40001));
         got_line (lit "peer2") (source (dgram "peer2" 40002));
         EvSendto (list_byte_of_string "peer2 127.0.0.1 40002")
                  (lit "127.0.0.1", 40001%Z);
         EvSendto (list_byte_of_string " 127.0.0.1 40001")
                  (lit "127.0.0.1", 40002%Z);
         EvPrint (lit "introduced  peer2");
         EvClose],
        Ok []).
Proof.
  destruct server_accepts_any_decodable_id as (_ & _ & Hws & _ & Hrun).
  split.
  - apply (Hws (dgram "  " 40001) (lit "  ")); [reflexivity|].
    repeat constructor.
  - apply (Hrun (dgram "  " 40001) (dgram "peer2" 40002) (lit "peer2") []).
    + reflexivity.
    + reflexivity.
    + discriminate.
    + accept.
    + accept.
Defined.

Lemma server_sends_only_introductions_witness :
  sends (trace (Server.main [Arrive (dgram "peer1" 40001);
                             Arrive (dgram "peer1" 40002)])) = [].
Proof.
  apply (server_sends_only_introductions
           [Arrive (dgram "peer1" 40001); Arrive (dgram "peer1" 40002)]).
  intros p rest. vm_compute. discriminate.
Defined.

(** ** Further properties *)

Lemma utf8_round_trip_witness :
  decode (list_byte_of_string "peer2 127.0.0.1 40002")
  = Some (lit "peer2 127.0.0.1 40002").
Proof.
  apply (utf8_round_trip (lit "peer2 127.0.0.1 40002")
           (list_byte_of_string "peer2 127.0.0.1 40002")).
  reflexivity.
Defined.

Lemma int_of_str_round_trip_witness :
  py_int (str_of_int (-40002)%Z) = Some (-40002)%Z
  /\ py_int (repeat 49 4301) = None.
Proof.
  destruct int_of_str_round_trip as (Hround & _ & Hlong).
  split.
  - apply Hround. vm_compute. lia.
  - apply Hlong.
    + apply Forall_forall. intros c Hc. apply repeat_spec in Hc. subst c.
      reflexivity.
    + rewrite repeat_length. lia.
Defined.

Lemma introduction_round_trip_witness :
  (exists data,
      encode (lit "peer2" ++ lit " " ++ host (SockAddr localhost 40002)
                ++ lit " " ++ str_of_int (port (SockAddr localhost 40002)))
      = Some data /\
      Peer.decodeIntroduction data
      = ret (lit "peer2", host (SockAddr localhost 40002),
             port (SockAddr localhost 40002)))
  /\ (exists data,
         encode (lit "a b" ++ lit " " ++ host (SockAddr localhost 40002)
                   ++ lit " " ++ str_of_int (port (SockAddr localhost 40002)))
         = Some data /\
         Peer.decodeIntroduction data = raise ValueError).
Proof.
  split.
  - apply (introduction_round_trip (lit "peer2") (SockAddr localhost 40002)).
    + repeat constructor.
    + split; [discriminate | repeat constructor].
  - apply (introduction_round_trip (lit "a b") (SockAddr localhost 40002)).
    + repeat constructor.
    + vm_compute. discriminate.
Defined.

Lemma peer_punches_observed_address_witness :
  Peer.main (map lit ["peer.py"; "peer1"; "127.0.0.1"])
    (Arrive (Datagram (utf8 (Server.introduction (lit "peer2")
                               (SockAddr localhost 40002)))
                      (SockAddr localhost 9999)) :: [Silence])
  = ([EvBind ([], 0%Z);
      EvSendto (utf8 (lit "peer1")) (lit "127.0.0.1", Peer.PORT);
      EvPrint (lit "peer1" ++ lit " learned " ++ lit "peer2" ++ lit " at "
                 ++ host (SockAddr localhost 40002) ++ lit ":"
                 ++ str_of_int (port (SockAddr localhost 40002)));
      EvSendto (ping (lit "peer1"))
               (host (SockAddr localhost 40002),
                port (SockAddr localhost 40002)); EvSleep 500;
      EvSendto (ping (lit "peer1"))
               (host (SockAddr localhost 40002),
                port (SockAddr localhost 40002)); EvSleep 500;
      EvSendto (ping (lit "peer1"))
               (host (SockAddr localhost 40002),
                port (SockAddr localhost 40002)); EvSleep 500]
       ++ trace (Peer.listen (lit "peer1") [Silence]),
     result (Peer.listen (lit "peer1") [Silence])).
Proof.
  apply (peer_punches_observed_address
           (map lit ["peer.py"; "peer1"; "127.0.0.1"]) (lit "peer1")
           (lit "127.0.0.1", Peer.PORT) (lit "peer2")
           (SockAddr localhost 40002) (SockAddr localhost 9999) [Silence]).
  - reflexivity.
  - repeat constructor.
  - repeat constructor.
  - split; [discriminate | repeat constructor].
  - vm_compute. lia.
  - accept.
  - accept.
Defined.

Lemma peer_fails_on_unsplittable_id_witness :
  Peer.main (map lit ["peer.py"; "peer1"; "127.0.0.1"])
    (Arrive (Datagram (utf8 (Server.introduction []
                               (SockAddr localhost 40002)))
                      (SockAddr localhost 9999)) :: [Silence])
  = ([EvBind ([], 0%Z);
      EvSendto (utf8 (lit "peer1")) (lit "127.0.0.1", Peer.PORT)],
     Raise ValueError).
Proof.
  apply (peer_fails_on_unsplittable_id
           (map lit ["peer.py"; "peer1"; "127.0.0.1"]) (lit "peer1")
           (lit "127.0.0.1", Peer.PORT) []
           (SockAddr localhost 40002) (SockAddr localhost 9999) [Silence]).
  - reflexivity.
  - repeat constructor.
  - constructor.
  - vm_compute. discriminate.
  - vm_compute. lia.
  - accept.
Defined.

Lemma registration_round_trip_witness :
  Peer.register (lit "peer1") (lit "127.0.0.1", 9999%Z)
  = ([EvBind ([], 0%Z);
      EvSendto (list_byte_of_string "peer1") (lit "127.0.0.1", 9999%Z)],
     Ok tt)
  /\ registration (Datagram (list_byte_of_string "peer1")
                            (SockAddr localhost 40001))
     = Some (lit "peer1").
Proof.
  destruct (registration_round_trip (lit "peer1") (lit "127.0.0.1", 9999%Z)
              (SockAddr localhost 40001))
    as (data & Ed & Hsent & _ & Hreg).
  - repeat constructor.
  - vm_compute in Ed. injection Ed as <-. split.
    + apply Hsent. accept.
    + apply Hreg; [vm_compute; lia|].
      split; [discriminate | repeat constructor].
Defined.

Lemma whitespace_variants_share_one_id_witness :
  registration (Datagram (utf8 (lit " " ++ lit "peer1" ++ lit "  "))
                         (SockAddr localhost 40002))
  = registration (Datagram (utf8 (lit "peer1")) (SockAddr localhost 40001))
  /\ result (Server.main
               [Arrive (Datagram (utf8 (lit "peer1"))
                                 (SockAddr localhost 40001));
                Arrive (Datagram (utf8 (lit " " ++ lit "peer1" ++ lit "  "))
                                 (SockAddr localhost 40002))])
     = Block
  /\ sends (trace (Server.main
               [Arrive (Datagram (utf8 (lit "peer1"))
                                 (SockAddr localhost 40001));
                Arrive (Datagram (utf8 (lit " " ++ lit "peer1" ++ lit "  "))
                                 (SockAddr localhost 40002))]))
     = [].
Proof.
  apply (whitespace_variants_share_one_id (lit "peer1") (lit " ") (lit "  ")
           (SockAddr localhost 40001) (SockAddr localhost 40002)).
  - repeat constructor.
  - repeat constructor.
  - repeat constructor.
  - vm_compute. lia.
  - vm_compute. lia.
Defined.

Lemma peer_rejects_unencodable_id_witness :
  Peer.main [lit "peer.py"; [0xDC80]; lit "127.0.0.1"]
            [Arrive (dgram "peer2 127.0.0.1 40002" 9999)]
  = ([EvBind ([], 0%Z)], Raise UnicodeEncodeError).
Proof.
  apply (peer_rejects_unencodable_id
           [lit "peer.py"; [0xDC80]; lit "127.0.0.1"] [0xDC80]
           (lit "127.0.0.1", 9999%Z)).
  - reflexivity.
  - intros H. inversion H as [|? ? Hc _]. discriminate Hc.
Defined.

Lemma peer_command_line_witness :
  Peer.main [lit "peer.py"; lit "peer1"] [Silence] = ([], Raise IndexError)
  /\ Peer.args (map lit ["peer.py"; "peer1"; "10.0.0.1"; "7000"; "extra"])
     = ret (lit "peer1", (lit "10.0.0.1", 7000%Z))
  /\ Peer.main (map lit ["peer.py"; "peer1"; "10.0.0.1"; "port"]) [Silence]
     = ([], Raise ValueError)
  /\ Peer.main [lit "peer.py"; lit "peer1"; lit "10.0.0.1"; repeat 49 4301]
               [Silence]
     = ([], Raise ValueError)
  /\ Peer.main (map lit ["peer.py"; "peer1"; "10.0.0.1"; "-1"]) [Silence]
     = ([EvBind ([], 0%Z)], Raise OverflowError).
Proof.
  destruct peer_command_line as (Hshort & _ & Hport & Hbad & Hlong & Hrange).
  split; [|split; [|split; [|split]]].
  - apply Hshort. simpl. lia.
  - apply Hport. reflexivity.
  - apply Hbad. reflexivity.
  - apply Hlong.
    + apply Forall_forall. intros c Hc. apply repeat_spec in Hc. subst c.
      reflexivity.
    + rewrite repeat_length. lia.
  - apply (Hrange (lit "peer.py") (lit "peer1") (lit "10.0.0.1") (lit "-1")
                  [] (-1)%Z).
    + reflexivity.
    + lia.
    + repeat constructor.
    + reflexivity.
    + reflexivity.
Defined.

Lemma peer_waits_without_timeout_witness :
  Peer.main (map lit ["peer.py"; "peer1"; "127.0.0.1"]) (repeat Silence 7)
  = ([EvBind ([], 0%Z);
      EvSendto (utf8 (lit "peer1")) (lit "127.0.0.1", 9999%Z)], Block).
Proof.
  apply (peer_waits_without_timeout
           (map lit ["peer.py"; "peer1"; "127.0.0.1"]) (lit "peer1")
           (lit "127.0.0.1", 9999%Z) 7).
  - reflexivity.
  - repeat constructor.
  - accept.
Defined.

Lemma server_exceptions_witness :
  (exists pre d post,
      [Arrive (dgram "peer1" 40001);
       Arrive (Datagram [xc3; x28] (SockAddr localhost 40002))]
      = pre ++ Arrive d :: post
      /\ decode (fst (recvfrom 1024 d)) = None)
  /\ sends (trace (Server.main
              [Arrive (dgram "peer1" 40001);
               Arrive (Datagram [xc3; x28] (SockAddr localhost 40002))]))
     = [].
Proof.
  destruct (server_exceptions
              [Arrive (dgram "peer1" 40001);
               Arrive (Datagram [xc3; x28] (SockAddr localhost 40002))]
              UnicodeDecodeError)
    as [(_ & Hd & _ & Hs)|(He & _)].
  - reflexivity.
  - split; [exact Hd | exact Hs].
  - discriminate He.
Defined.


Lemma ping_is_answered_ack_is_not_witness :
  Peer.listen_loop (lit "peer2")
    (Arrive (Datagram (ping (lit "peer1")) (SockAddr localhost 40001))
       :: [Silence])
  = (EvPrint (lit "peer2" ++ lit " got " ++ [34]
                ++ (lit "ping from " ++ lit "peer1") ++ [34]
                ++ lit " from " ++ repr_addr (SockAddr localhost 40001))
       :: EvSendto (ack (lit "peer2"))
                   (host (SockAddr localhost 40001),
                    port (SockAddr localhost 40001))
       :: trace (Peer.listen_loop (lit "peer2") [Silence]),
     result (Peer.listen_loop (lit "peer2") [Silence]))
  /\ Peer.listen_loop (lit "peer2")
       (Arrive (Datagram (ack (lit "peer1")) (SockAddr localhost 40001))
          :: [Silence])
     = (EvPrint (lit "peer2" ++ lit " got " ++ [34]
                   ++ (lit "ack from " ++ lit "peer1") ++ [34]
                   ++ lit " from " ++ repr_addr (SockAddr localhost 40001))
          :: trace (Peer.listen_loop (lit "peer2") [Silence]),
        result (Peer.listen_loop (lit "peer2") [Silence])).
Proof.
  destruct (ping_is_answered_ack_is_not (lit "peer1") (lit "peer2")
              (SockAddr localhost 40001) [Silence]) as [Hping Hack].
  - repeat constructor.
  - repeat constructor.
  - vm_compute. lia.
  - split; [apply Hping; accept | exact Hack].
Defined.

Lemma peer_output_has_learned_and_ack_witness :
  let run :=
    Peer.main (map lit ["peer.py"; "peer1"; "127.0.0.1"])
      (Arrive (Datagram (utf8 (Server.introduction (lit "peer2")
                                 (SockAddr localhost 40002)))
                        (SockAddr localhost 9999))
         :: map Arrive [Datagram (ping (lit "peer2"))
                                 (SockAddr localhost 40002);
                        Datagram (ack (lit "peer2"))
                                 (SockAddr localhost 40002)]
         ++ Silence :: []) in
  result run = Ok tt
  /\ occurs_in (lit "learned " ++ lit "peer2") (stdout (trace run))
  /\ occurs_in (lit "ack from " ++ lit "peer2") (stdout (trace run)).
Proof.
  apply (peer_output_has_learned_and_ack
           (map lit ["peer.py"; "peer1"; "127.0.0.1"]) (lit "peer1")
           (lit "127.0.0.1", 9999%Z) (lit "peer2")
           (SockAddr localhost 40002) (SockAddr localhost 9999)
           (SockAddr localhost 40002)).
  - reflexivity.
  - repeat constructor.
  - repeat constructor.
  - split; [discriminate | repeat constructor].
  - vm_compute. lia.
  - accept.
  - accept.
  - gone_through.
  - right. left. reflexivity.
  - vm_compute. lia.
Defined.

Lemma handshake_crosses_addresses_witness :
  exists regA regB to_a to_b,
    Peer.register (lit "peer1") (lit "127.0.0.1", 9999%Z)
    = ([EvBind ([], 0%Z); EvSendto regA (lit "127.0.0.1", 9999%Z)], Ok tt)
    /\ Peer.register (lit "peer2") (lit "127.0.0.1", 9999%Z)
       = ([EvBind ([], 0%Z); EvSendto regB (lit "127.0.0.1", 9999%Z)], Ok tt)
    /\ sends (trace (Server.main
                       [Arrive (Datagram regA (SockAddr localhost 40001));
                        Arrive (Datagram regB (SockAddr localhost 40002))]))
       = [(to_a, (host (SockAddr localhost 40001),
                  port (SockAddr localhost 40001)));
          (to_b, (host (SockAddr localhost 40002),
                  port (SockAddr localhost 40002)))]
    /\ firstn 4 (sends (trace (Peer.main
                   (map lit ["peer.py"; "peer1"; "127.0.0.1"])
                   (Arrive (Datagram to_a (SockAddr localhost 9999))
                      :: [Silence]))))
       = [(regA, (lit "127.0.0.1", 9999%Z));
          (ping (lit "peer1"), (host (SockAddr localhost 40002),
                                port (SockAddr localhost 40002)));
          (ping (lit "peer1"), (host (SockAddr localhost 40002),
                                port (SockAddr localhost 40002)));
          (ping (lit "peer1"), (host (SockAddr localhost 40002),
                                port (SockAddr localhost 40002)))]
    /\ firstn 4 (sends (trace (Peer.main
                   (map lit ["peer.py"; "peer2"; "127.0.0.1"])
                   (Arrive (Datagram to_b (SockAddr localhost 9999))
                      :: [Silence]))))
       = [(regB, (lit "127.0.0.1", 9999%Z));
          (ping (lit "peer2"), (host (SockAddr localhost 40001),
                                port (SockAddr localhost 40001)));
          (ping (lit "peer2"), (host (SockAddr localhost 40001),
                                port (SockAddr localhost 40001)));
          (ping (lit "peer2"), (host (SockAddr localhost 40001),
                                port (SockAddr localhost 40001)))].
Proof.
  apply (handshake_crosses_addresses (lit "peer1") (lit "peer2")
           (SockAddr localhost 40001) (SockAddr localhost 40002)
           (SockAddr localhost 9999)
           (map lit ["peer.py"; "peer1"; "127.0.0.1"])
           (map lit ["peer.py"; "peer2"; "127.0.0.1"])
           (lit "127.0.0.1", 9999%Z) (lit "127.0.0.1", 9999%Z)
           [Silence] [Silence]).
  - discriminate.
  - split; [discriminate | repeat constructor].
  - split; [discriminate | repeat constructor].
  - repeat constructor.
  - repeat constructor.
  - reflexivity.
  - reflexivity.
  - vm_compute. lia.
  - vm_compute. lia.
  - accept.
  - accept.
  - accept.
  - accept.
  - accept.
  - accept.
Defined.

Lemma dict_insert_lookup_witness :
  keys (dict_set [(lit "peer1", SockAddr localhost 40001)] (lit "peer2")
                 (SockAddr localhost 40002))
  = keys [(lit "peer1", SockAddr localhost 40001)] ++ [lit "peer2"].
Proof.
  apply (dict_insert_lookup [(lit "peer1", SockAddr localhost 40001)]
           (lit "peer2") (SockAddr localhost 40002)).
  simpl. intros [H|[]]. discriminate.
Defined.

Lemma recvfrom_ignores_excess_witness :
  Server.main (Arrive (Datagram (repeat x41 1024 ++ [xff])
                                (SockAddr localhost 40001)) :: [Silence])
  = Server.main (Arrive (Datagram (repeat x41 1024)
                                  (SockAddr localhost 40001)) :: [Silence]).
Proof.
  apply (recvfrom_ignores_excess (repeat x41 1024) [xff]
           (SockAddr localhost 40001) [Silence]).
  apply repeat_length.
Defined.

Lemma server_logs_each_datagram_witness :
  exists consumed a b,
    [Arrive (dgram "peer1" 40001); Silence; Arrive (dgram "peer2" 40002);
     Arrive (dgram "peer3" 40003)]
    = consumed ++ [Arrive (dgram "peer3" 40003)]
    /\ Forall (fun d => registration d <> None) (arrived consumed)
    /\ stdout (EvBind (lit "0.0.0.0", Server.PORT)
                 :: [got_line (lit "peer1") (source (dgram "peer1" 40001));
                     got_line (lit "peer2") (source (dgram "peer2" 40002))]
                 ++ introduction_round
                      (lit "peer1") (source (dgram "peer1" 40001))
                      (lit "peer2") (source (dgram "peer2" 40002)))
       = stdout (flat_map log_of (arrived consumed))
         ++ lit "introduced " ++ a ++ lit " " ++ b ++ [10]
    /\ List.length (flat_map log_of (arrived consumed))
       = List.length (arrived consumed).
Proof.
  apply (server_logs_each_datagram
           [Arrive (dgram "peer1" 40001); Silence;
            Arrive (dgram "peer2" 40002); Arrive (dgram "peer3" 40003)]
           [Arrive (dgram "peer3" 40003)]).
  reflexivity.
Defined.
